(** * Ghost Job Hunter: the ingestion, verification and scoring pipeline

    A shallow embedding of the automation code of the repository
    (scraper aggregation, verifier, rule-based legitimacy checker,
    pipeline orchestrator, re-verification sweep and the public listing
    query), with the properties its specification states about it.

    Modelling conventions.
    - A JavaScript string is a [string]: a sequence of code units, here
      restricted to the code units below 256 (Latin-1), so that [length]
      is the JavaScript [length].
    - A JavaScript number that holds a salary, a score, an HTTP status or
      a time in milliseconds is a [Z]; the numbers [parseSalary] reads
      from a text are doubles, which [JsNumber] holds with their
      rounding.
    - An optional field ([salaryMin?: number], [description?: string]) is
      an [option]; truthiness tests are written out ([truthyNum],
      [truthyStr]).
    - The network, the clock, the language-model providers and the
      storage service are parameters of the model: the fields of the
      environment record [Env]. *)

From Stdlib Require Import ZArith List Bool Lia.
From Stdlib Require Import Permutation Sorted.
From Stdlib Require Import Strings.String Strings.Ascii.
From Stdlib Require Import Numbers.DecimalString.
Import ListNotations.

Local Open Scope string_scope.
Local Open Scope Z_scope.

(* ================================================================= *)
(** ** JavaScript string primitives *)

Module Js.

(** [String.prototype.toLowerCase] on one Latin-1 code unit: the letters
    A-Z, and the accented capitals 0xC0-0xDE except the multiplication
    sign 0xD7, move up by 32; every other code unit is unchanged. *)
Definition lowerChar (c : ascii) : ascii :=
  let n := nat_of_ascii c in
  if ((65 <=? n) && (n <=? 90))%nat then ascii_of_nat (n + 32)
  else if ((192 <=? n) && (n <=? 222) && negb (n =? 215))%nat
       then ascii_of_nat (n + 32)
  else c.

Fixpoint toLowerCase (s : string) : string :=
  match s with
  | EmptyString => EmptyString
  | String c s' => String (lowerChar c) (toLowerCase s')
  end.

(** [s.startsWith(w)]. *)
Fixpoint startsWith (s w : string) {struct w} : bool :=
  match w, s with
  | EmptyString, _ => true
  | String _ _, EmptyString => false
  | String b w', String a s' => Ascii.eqb a b && startsWith s' w'
  end.

(** [s.includes(w)]: [w] occurs in [s] at some position. *)
Fixpoint includes (s w : string) : bool :=
  startsWith s w ||
  match s with
  | EmptyString => false
  | String _ s' => includes s' w
  end.

(** Truthiness of an optional number: [undefined] and [0] are falsy. *)
Definition truthyNum (n : option Z) : bool :=
  match n with
  | Some v => negb (v =? 0)
  | None => false
  end.

(** Truthiness of an optional string: [undefined] and [""] are falsy. *)
Definition truthyStr (s : option string) : bool :=
  match s with
  | Some v => negb (String.eqb v "")
  | None => false
  end.

(** [s || ""]. *)
Definition orEmpty (s : option string) : string :=
  match s with
  | Some v => v
  | None => ""
  end.

(** Length of a string as a number. *)
Definition len (s : string) : Z := Z.of_nat (String.length s).

(** Template-literal rendering of an integer: [`${n}`]. *)
Definition showZ (n : Z) : string := NilEmpty.string_of_int (Z.to_int n).

(** [xs.join(sep)]. *)
Fixpoint join (sep : string) (xs : list string) : string :=
  match xs with
  | [] => ""
  | [x] => x
  | x :: rest => x ++ sep ++ join sep rest
  end.

End Js.

(* ================================================================= *)
(** ** Scraped postings (scraper.ts, [ScrapedJob]) *)

Inductive LocationType := REMOTE | HYBRID | ONSITE.

Record ScrapedJob := mkJob {
  title : string;
  company : string;
  location : string;
  locationType : LocationType;
  salaryMin : option Z;
  salaryMax : option Z;
  applyUrl : string;
  sourceUrl : string;
  source : string;
  description : option string
}.

(* ================================================================= *)
(** ** Legitimacy checker (ai-checker.ts) *)

Inductive Recommendation := APPROVE | REVIEW | REJECT.

Definition Recommendation_eqb (a b : Recommendation) : bool :=
  match a, b with
  | APPROVE, APPROVE | REVIEW, REVIEW | REJECT, REJECT => true
  | _, _ => false
  end.

Record AIAnalysisResult := mkAnalysis {
  legitimacyScore : Z;
  isLikelyGhostJob : bool;
  concerns : list string;
  positiveSignals : list string;
  recommendation : Recommendation;
  reasoning : string
}.

Module Rules.

(** The three mutable locals of [analyzeWithRules]. *)
Record Acc := mkAcc {
  score : Z;
  accConcerns : list string;
  accPositive : list string
}.

(** [if (c) { concerns.push(msg); score -= d; }] *)
Definition concern (c : bool) (msg : string) (d : Z) (a : Acc) : Acc :=
  if c then mkAcc (score a - d) (accConcerns a ++ [msg]) (accPositive a)
  else a.

(** [if (c) { positiveSignals.push(msg); score += d; }] *)
Definition positive (c : bool) (msg : string) (d : Z) (a : Acc) : Acc :=
  if c then mkAcc (score a + d) (accConcerns a) (accPositive a ++ [msg])
  else a.

(** [`${job.title} ${job.description || ""}`.toLowerCase()] *)
Definition text (job : ScrapedJob) : string :=
  Js.toLowerCase (title job ++ " " ++ Js.orEmpty (description job)).

(** The conditions of the nine [if] statements, in source order. *)
Definition urgency (job : ScrapedJob) : bool :=
  Js.includes (text job) "urgently" || Js.includes (text job) "immediate".

Definition contradictory (job : ScrapedJob) : bool :=
  Js.includes (text job) "no experience" && Js.includes (text job) "senior".

Definition undisclosed (job : ScrapedJob) : bool :=
  (Js.len (company job) <? 3) ||
  String.eqb (Js.toLowerCase (company job)) "confidential".

Definition shortDescription (job : ScrapedJob) : bool :=
  negb (Js.truthyStr (description job)) ||
  (Js.len (Js.orEmpty (description job)) <? 100).

Definition tooGood (job : ScrapedJob) : bool :=
  Js.includes (text job) "guaranteed" ||
  Js.includes (text job) "unlimited earning".

Definition salaryRange (job : ScrapedJob) : bool :=
  Js.truthyNum (salaryMin job) && Js.truthyNum (salaryMax job) &&
  match salaryMin job, salaryMax job with
  | Some lo, Some hi => lo <? hi
  | _, _ => false
  end.

Definition teamStructure (job : ScrapedJob) : bool :=
  Js.includes (text job) "team" || Js.includes (text job) "report to" ||
  Js.includes (text job) "manager".

Definition atsUrl (job : ScrapedJob) : bool :=
  Js.includes (applyUrl job) "greenhouse" ||
  Js.includes (applyUrl job) "lever" ||
  Js.includes (applyUrl job) "workday".

Definition longDescription (job : ScrapedJob) : bool :=
  Js.truthyStr (description job) &&
  (500 <? Js.len (Js.orEmpty (description job))).

(** The body of [analyzeWithRules] up to the clamp: the accumulator
    after the nine conditional updates. *)
Definition accumulate (job : ScrapedJob) : Acc :=
  let a := mkAcc 70 [] [] in
  let a := concern (urgency job) "Urgency language detected" 15 a in
  let a := concern (contradictory job)
                   "Contradictory experience requirements" 20 a in
  let a := concern (undisclosed job) "Company name not disclosed" 15 a in
  let a := concern (shortDescription job)
                   "Very short or missing description" 10 a in
  let a := concern (tooGood job) "Too-good-to-be-true claims" 25 a in
  let a := positive (salaryRange job) "Salary range provided" 10 a in
  let a := positive (teamStructure job) "Team structure mentioned" 5 a in
  let a := positive (atsUrl job) "Uses legitimate ATS platform" 10 a in
  let a := positive (longDescription job) "Detailed job description" 5 a in
  a.

(** [Math.max(0, Math.min(100, score))] *)
Definition cap (s : Z) : Z := Z.max 0 (Z.min 100 s).

Definition recommend (s : Z) : Recommendation :=
  if 70 <=? s then APPROVE else if 50 <=? s then REVIEW else REJECT.

Definition analyzeWithRules (job : ScrapedJob) : AIAnalysisResult :=
  let a := accumulate job in
  let s := cap (score a) in
  mkAnalysis s (s <? 50) (accConcerns a) (accPositive a) (recommend s)
    ("Rule-based analysis score: " ++ Js.showZ s ++ "/100. " ++
     Js.showZ (Z.of_nat (List.length (accConcerns a))) ++ " concerns, " ++
     Js.showZ (Z.of_nat (List.length (accPositive a))) ++
     " positive signals.").

End Rules.

(* ================================================================= *)
(** ** Regular expressions of the red-flag table

    The patterns of [RED_FLAG_PATTERNS] use literals, [\d], [.], [|],
    [*], [+] and [{3,}], the repetitions always over a single character
    class, and the flag [i].  [test] without the flag [g] is stateless:
    it answers whether the pattern matches at some position. *)

Module Regex.

Inductive cls :=
| CChar (c : ascii)   (* a literal character, compared ignoring case *)
| CDigit              (* \d *)
| CDot.               (* .  : anything but a line terminator *)

Inductive regex :=
| REps
| RCls (c : cls)
| RCat (r1 r2 : regex)
| RAlt (r1 r2 : regex)
| RStar (c : cls).

(** Canonicalisation of the flag [i] on the letters a-z.  A code unit
    of 128 or more never canonicalises to an ASCII one, and the pattern
    characters of the table are ASCII, so it is left as it is. *)
Definition canon (c : ascii) : ascii :=
  let n := nat_of_ascii c in
  if ((97 <=? n) && (n <=? 122))%nat then ascii_of_nat (n - 32) else c.

Definition isDigit (c : ascii) : bool :=
  let n := nat_of_ascii c in ((48 <=? n) && (n <=? 57))%nat.

Definition isLineTerminator (c : ascii) : bool :=
  let n := nat_of_ascii c in ((n =? 10) || (n =? 13))%nat.

Definition clsMatch (k : cls) (a : ascii) : bool :=
  match k with
  | CChar c => Ascii.eqb (canon c) (canon a)
  | CDigit => isDigit a
  | CDot => negb (isLineTerminator a)
  end.

(** Greedy repetition of a class, then the continuation; on failure of
    the continuation one repetition is given back. *)
Fixpoint starCls (c : cls) (k : string -> bool) (s : string) : bool :=
  match s with
  | String a s' =>
      if clsMatch c a then (if starCls c k s' then true else k s) else k s
  | EmptyString => k s
  end.

(** Backtracking match of [r] at the start of [s], [k] deciding on the
    rest of the input. *)
Fixpoint matchAt (r : regex) (s : string) (k : string -> bool) : bool :=
  match r with
  | REps => k s
  | RCls c =>
      match s with
      | String a s' => if clsMatch c a then k s' else false
      | EmptyString => false
      end
  | RCat r1 r2 => matchAt r1 s (fun s' => matchAt r2 s' k)
  | RAlt r1 r2 => if matchAt r1 s k then true else matchAt r2 s k
  | RStar c => starCls c k s
  end.

(** [pattern.test(s)] *)
Fixpoint test (r : regex) (s : string) : bool :=
  if matchAt r s (fun _ => true) then true
  else match s with
       | String _ s' => test r s'
       | EmptyString => false
       end.

(** A literal word. *)
Fixpoint lit (w : string) : regex :=
  match w with
  | EmptyString => REps
  | String c w' => RCat (RCls (CChar c)) (lit w')
  end.

Definition digit : regex := RCls CDigit.
Definition plus (c : cls) : regex := RCat (RCls c) (RStar c).
Definition atLeast3 (c : cls) : regex :=
  RCat (RCls c) (RCat (RCls c) (RCat (RCls c) (RStar c))).
Definition anything : regex := RStar CDot.

Fixpoint cat (rs : list regex) : regex :=
  match rs with
  | [] => REps
  | r :: rest => RCat r (cat rest)
  end.

End Regex.

(* ================================================================= *)
(** ** Verifier (verifier.ts) *)

Record VerificationResult := mkVerification {
  isValid : bool;
  urlStatus : option Z;
  urlAccessible : bool;
  companyDomainValid : bool;
  hasRedFlags : bool;
  redFlags : list string;
  notes : string
}.

(** The network as the verifier sees it: the outcome of a [HEAD] and of
    a [GET] request on a URL is the response status, or [None] when
    [fetch] rejects (time-out after 10 s, DNS or connection failure);
    [urlHostname] is [new URL(url).hostname], [None] when the
    constructor throws. *)
Record Net := mkNet {
  fetchHead : string -> option Z;
  fetchGet : string -> option Z;
  urlHostname : string -> option string
}.

Module Verifier.

Import Regex.

Definition RED_FLAG_PATTERNS : list (regex * string) :=
  [ (lit "urgently hiring", "Urgently hiring language");
    (lit "immediate start", "Immediate start pressure");
    (lit "no experience needed", "No experience needed for tech role");
    (cat [lit "work from home $"; plus CDigit; lit "k"],
     "Work from home with unrealistic salary claims");
    (cat [lit "$"; atLeast3 CDigit; lit "/day"], "Unrealistic daily rate");
    (cat [lit "$"; atLeast3 CDigit; lit "/hour"],
     "Unrealistic hourly rate (>$200/hr for entry level)");
    (lit "guaranteed income", "Guaranteed income claims");
    (lit "be your own boss", "MLM-style language");
    (lit "unlimited earning", "Unlimited earning claims");
    (cat [lit "crypto"; anything; lit "payment"], "Crypto payment offers");
    (RAlt (lit "training fee") (lit "pay for training"),
     "Requires training fee");
    (RAlt (cat [lit "send"; anything; lit "money"]) (lit "wire transfer"),
     "Requests money transfer");
    (cat [lit "personal"; anything; lit "bank"; anything; lit "account"],
     "Requests bank account info");
    (RAlt (lit "ssn") (lit "social security"), "Requests SSN upfront") ].

Definition TRUSTED_DOMAINS : list string :=
  [ "greenhouse.io"; "lever.co"; "ashbyhq.com"; "workday.com";
    "smartrecruiters.com"; "jobvite.com"; "icims.com"; "taleo.net";
    "myworkdayjobs.com"; "careers-page.com"; "breezy.hr"; "recruitee.com";
    "bamboohr.com"; "workable.com"; "jazz.co"; "applytojob.com" ].

(** [response.status >= 200 && response.status < 400] *)
Definition okStatus (st : Z) : bool := (200 <=? st) && (st <? 400).

(** [checkUrlAccessibility]: a [HEAD] request; when it rejects, one
    [GET] request; when that rejects too, not accessible, no status. *)
Definition checkUrlAccessibility (net : Net) (url : string)
  : bool * option Z :=
  match fetchHead net url with
  | Some st => (okStatus st, Some st)
  | None =>
      match fetchGet net url with
      | Some st => (okStatus st, Some st)
      | None => (false, None)
      end
  end.

Definition extractDomain (net : Net) (url : string) : option string :=
  urlHostname net url.

(** [domain.replace(/^www\./, "")] *)
Definition stripWww (domain : string) : string :=
  if Js.startsWith domain "www." then
    String.substring 4 (String.length domain - 4) domain
  else domain.

(** [if (!domain) return false] holds for a URL that does not parse and
    for one that parses to an empty host name. *)
Definition checkCompanyDomain (net : Net) (url : string) : bool :=
  match extractDomain net url with
  | None => false
  | Some domain =>
      if String.eqb domain "" then false
      else if existsb (fun trusted => Js.includes domain trusted)
                      TRUSTED_DOMAINS
      then true
      else fst (checkUrlAccessibility net ("https://" ++ stripWww domain))
  end.

(** The loop over the pattern table: the labels of the patterns that
    match, in table order. *)
Fixpoint scanPatterns (table : list (regex * string)) (txt : string)
  : list string :=
  match table with
  | [] => []
  | (pattern, flag) :: rest =>
      if test pattern txt then flag :: scanPatterns rest txt
      else scanPatterns rest txt
  end.

Definition unrealisticSalary (job : ScrapedJob) : bool :=
  Js.truthyNum (salaryMin job) &&
  match salaryMin job with
  | Some v => 200000 <? v
  | None => false
  end.

Definition vagueCompany (job : ScrapedJob) : bool :=
  (Js.len (company job) <? 3) ||
  String.eqb (Js.toLowerCase (company job)) "company" ||
  String.eqb (Js.toLowerCase (company job)) "confidential".

Definition SALARY_FLAG : string := "Unrealistic entry-level salary (>$200k)".
Definition COMPANY_FLAG : string := "Vague or confidential company name".

Definition detectRedFlags (job : ScrapedJob) : list string :=
  let textToCheck := title job ++ " " ++ Js.orEmpty (description job) in
  let redFlags := scanPatterns RED_FLAG_PATTERNS textToCheck in
  let redFlags :=
    if unrealisticSalary job then (redFlags ++ [SALARY_FLAG])%list
    else redFlags in
  let redFlags :=
    if vagueCompany job then (redFlags ++ [COMPANY_FLAG])%list
    else redFlags in
  redFlags.

(** [`${urlStatus || "failed"}`] *)
Definition statusOrFailed (st : option Z) : string :=
  match st with
  | Some v => if v =? 0 then "failed" else Js.showZ v
  | None => "failed"
  end.

(** [`${urlStatus}`] *)
Definition showStatus (st : option Z) : string :=
  match st with
  | Some v => Js.showZ v
  | None => "null"
  end.

Definition verifyJob (net : Net) (job : ScrapedJob) : VerificationResult :=
  let (accessible, status) := checkUrlAccessibility net (applyUrl job) in
  let domainValid := checkCompanyDomain net (applyUrl job) in
  let flags := detectRedFlags job in
  let hasFlags := (0 <? List.length flags)%nat in
  let valid := accessible && domainValid && negb hasFlags in
  let notes :=
    Js.join "; "
      [ if accessible then "URL accessible (" ++ showStatus status ++ ")"
        else "URL not accessible (" ++ statusOrFailed status ++ ")";
        if domainValid then "Company domain valid"
        else "Company domain invalid";
        if hasFlags then "Red flags: " ++ Js.join ", " flags
        else "No red flags" ] in
  mkVerification valid status accessible domainValid hasFlags flags notes.

End Verifier.

(* ================================================================= *)
(** ** Aggregation (scraper.ts, [scrapeAllSources]) *)

(** What the eight adapters returned, named as the destructured result
    of [Promise.all]. *)
Record Sources := mkSources {
  remoteOKJobs : list ScrapedJob;
  remotiveJobs : list ScrapedJob;
  arbeitnowJobs : list ScrapedJob;
  himalayasJobs : list ScrapedJob;
  jobicyJobs : list ScrapedJob;
  wwrJobs : list ScrapedJob;
  greenhouseJobs : list ScrapedJob;
  leverJobs : list ScrapedJob
}.

Module Scraper.

(** A [Set<string>] as the list of its insertions. *)
Definition setHas (seen : list string) (key : string) : bool :=
  existsb (String.eqb key) seen.

Definition setAdd (seen : list string) (key : string) : list string :=
  key :: seen.

(** [`${job.company.toLowerCase()}-${job.title.toLowerCase()}`] *)
Definition dedupKey (job : ScrapedJob) : string :=
  Js.toLowerCase (company job) ++ "-" ++ Js.toLowerCase (title job).

(** [allJobs.filter(...)] with its mutable set [seen]. *)
Fixpoint filterUnseen (seen : list string) (jobs : list ScrapedJob)
  : list ScrapedJob :=
  match jobs with
  | [] => []
  | job :: rest =>
      let key := dedupKey job in
      if setHas seen key then filterUnseen seen rest
      else job :: filterUnseen (setAdd seen key) rest
  end.

Definition allJobs (src : Sources) : list ScrapedJob :=
  (remoteOKJobs src ++ remotiveJobs src ++ arbeitnowJobs src ++
   himalayasJobs src ++ jobicyJobs src ++ wwrJobs src ++
   greenhouseJobs src ++ leverJobs src)%list.

Definition uniqueJobs (all : list ScrapedJob) : list ScrapedJob :=
  filterUnseen [] all.

Definition scrapeAllSources (src : Sources) : list ScrapedJob :=
  uniqueJobs (allJobs src).

End Scraper.

(* ================================================================= *)
(** ** Storage: the [jobs] table (database.ts, 001_initial_schema.sql) *)

Inductive VerificationStatus :=
| VERIFIED | EXPIRED | BROKEN_LINK | NOT_HIRING | PENDING.

Definition VerificationStatus_eqb (a b : VerificationStatus) : bool :=
  match a, b with
  | VERIFIED, VERIFIED | EXPIRED, EXPIRED | BROKEN_LINK, BROKEN_LINK
  | NOT_HIRING, NOT_HIRING | PENDING, PENDING => true
  | _, _ => false
  end.

(** The columns the automation writes ([Insert] of database.ts); a
    [timestamptz] is the instant in milliseconds. *)
Record JobInsert := mkInsert {
  ins_title : string;
  ins_company : string;
  ins_location : string;
  ins_location_type : LocationType;
  ins_salary_min : option Z;
  ins_salary_max : option Z;
  ins_apply_url : string;
  ins_source_url : string;
  ins_source : string;
  ins_verification_status : VerificationStatus;
  ins_last_verified_at : option Z;
  ins_verification_notes : string
}.

(** A stored row: the primary key and the inserted columns. *)
Record JobRow := mkRow {
  id : nat;
  cols : JobInsert
}.

Definition Store := list JobRow.

Definition verification_status (r : JobRow) := ins_verification_status (cols r).
Definition last_verified_at (r : JobRow) := ins_last_verified_at (cols r).
Definition verification_notes (r : JobRow) := ins_verification_notes (cols r).
Definition apply_url (r : JobRow) := ins_apply_url (cols r).
Definition source_url (r : JobRow) := ins_source_url (cols r).

Module Storage.

(** The primary key of a new row: one not in the table. *)
Definition freshId (st : Store) : nat :=
  S (fold_right Nat.max 0%nat (map id st)).

(** [from("jobs").insert(payload)] when the service accepts it. *)
Definition insert (st : Store) (payload : JobInsert) : Store :=
  (st ++ [mkRow (freshId st) payload])%list.

(** [from("jobs").update(patch).eq("id", key)]: the patch is applied to
    the columns of every row whose key is [key]. *)
Definition update (st : Store) (key : nat) (patch : JobInsert -> JobInsert)
  : Store :=
  map (fun r => if (id r =? key)%nat then mkRow (id r) (patch (cols r)) else r)
      st.

Definition setVerified (at_ : Z) (note : string) (c : JobInsert) : JobInsert :=
  mkInsert (ins_title c) (ins_company c) (ins_location c)
    (ins_location_type c) (ins_salary_min c) (ins_salary_max c)
    (ins_apply_url c) (ins_source_url c) (ins_source c)
    (ins_verification_status c) (Some at_) note.

Definition setBroken (note : string) (c : JobInsert) : JobInsert :=
  mkInsert (ins_title c) (ins_company c) (ins_location c)
    (ins_location_type c) (ins_salary_min c) (ins_salary_max c)
    (ins_apply_url c) (ins_source_url c) (ins_source c)
    BROKEN_LINK (ins_last_verified_at c) note.

End Storage.

(* ================================================================= *)
(** ** The world outside the automation code *)

(** How the storage service answers the URL query of a run. *)
Inductive ReadOutcome :=
| ReadRows                 (* [data] holds the rows of the table *)
| ReadNoData               (* [data] is null *)
| ReadThrew (msg : string) (* the awaited call rejects *).

(** How the storage service answers the insert of one posting. *)
Inductive InsertOutcome :=
| Inserted
| InsertError (message : string)  (* [error] is set in the answer *)
| InsertThrew (msg : string)      (* the awaited call rejects *).

Record Env := mkEnv {
  (* scraper: the adapters' results, or the rejection of the stage *)
  scraped : Sources + string;
  (* storage *)
  existingRead : ReadOutcome;
  insertOutcome : ScrapedJob -> InsertOutcome;
  staleReadError : option string;
  (* network *)
  net : Net;
  verifyStageThrew : option string;
  (* language-model providers: an assessment, or null *)
  analyzeWithOpenAI : ScrapedJob -> option AIAnalysisResult;
  analyzeWithAnthropic : ScrapedJob -> option AIAnalysisResult;
  analysisStageThrew : option string;
  (* clock: the k-th reading of [Date.now()] / [new Date()] of a run,
     and [Date.prototype.toISOString] *)
  clock : nat -> Z;
  toISOString : Z -> string
}.

(* ================================================================= *)
(** ** Batch stages: [verifyJobs] and [analyzeJobs]

    Both fill a [Map] keyed by the posting, one batch of [concurrency]
    postings after the other, with a pause between batches.  The map is
    the list of its entries in insertion order; a posting is looked up
    by its fields (the postings of a run differ pairwise in company or
    title). *)

Definition option_eqb {A} (eqb : A -> A -> bool) (a b : option A) : bool :=
  match a, b with
  | Some x, Some y => eqb x y
  | None, None => true
  | _, _ => false
  end.

Definition LocationType_eqb (a b : LocationType) : bool :=
  match a, b with
  | REMOTE, REMOTE | HYBRID, HYBRID | ONSITE, ONSITE => true
  | _, _ => false
  end.

Definition ScrapedJob_eqb (a b : ScrapedJob) : bool :=
  String.eqb (title a) (title b) && String.eqb (company a) (company b) &&
  String.eqb (location a) (location b) &&
  LocationType_eqb (locationType a) (locationType b) &&
  option_eqb Z.eqb (salaryMin a) (salaryMin b) &&
  option_eqb Z.eqb (salaryMax a) (salaryMax b) &&
  String.eqb (applyUrl a) (applyUrl b) &&
  String.eqb (sourceUrl a) (sourceUrl b) &&
  String.eqb (source a) (source b) &&
  option_eqb String.eqb (description a) (description b).

(** [map.get(job)] *)
Fixpoint mapGet {V} (m : list (ScrapedJob * V)) (job : ScrapedJob)
  : option V :=
  match m with
  | [] => None
  | (k, v) :: rest => if ScrapedJob_eqb k job then Some v else mapGet rest job
  end.

(** The loop [for (let i = 0; i < jobs.length; i += concurrency)]: the
    batch [jobs.slice(i, i + concurrency)] is processed and its entries
    are set, then the loop goes on with the postings after it.  [fuel]
    bounds the number of batches; the callers pass a positive
    [concurrency], for which the number of postings is enough. *)
Fixpoint runBatches {V} (fuel concurrency : nat) (f : ScrapedJob -> V)
    (jobs : list ScrapedJob) : list (ScrapedJob * V) :=
  match fuel, jobs with
  | S fuel', _ :: _ =>
      (map (fun job => (job, f job)) (firstn concurrency jobs) ++
       runBatches fuel' concurrency f (skipn concurrency jobs))%list
  | _, _ => []
  end.

Definition verifyJobs (n : Net) (jobs : list ScrapedJob) (concurrency : nat)
  : list (ScrapedJob * VerificationResult) :=
  runBatches (List.length jobs) concurrency (Verifier.verifyJob n) jobs.

(** [analyzeJobWithAI]: the first provider, then the second, then the
    rules. *)
Definition analyzeJobWithAI (env : Env) (job : ScrapedJob)
  : AIAnalysisResult :=
  match analyzeWithOpenAI env job with
  | Some result => result
  | None =>
      match analyzeWithAnthropic env job with
      | Some result => result
      | None => Rules.analyzeWithRules job
      end
  end.

Definition analyzeJobs (env : Env) (jobs : list ScrapedJob)
    (concurrency : nat) : list (ScrapedJob * AIAnalysisResult) :=
  runBatches (List.length jobs) concurrency (analyzeJobWithAI env) jobs.

(* ================================================================= *)
(** ** Pipeline orchestrator (the automation pipeline, [runPipeline]) *)

Record PipelineResult := mkResult {
  scrapedCount : Z;
  verifiedCount : Z;
  addedCount : Z;
  skippedCount : Z;
  failedCount : Z;
  duration : Z;
  errors : list string
}.

Record JobWithAnalysis := mkJWA {
  job : ScrapedJob;
  verification : option VerificationResult;  (* [get(job)!] *)
  aiAnalysis : AIAnalysisResult
}.

Module Pipeline.

Definition count {A} (l : list A) : Z := Z.of_nat (List.length l).

(** Step 2: the set [existingUrls], as the list of its insertions. *)
Definition loadExistingUrls (env : Env) (st : Store) : list string :=
  match existingRead env with
  | ReadRows => flat_map (fun r => [apply_url r; source_url r]) st
  | ReadNoData => []
  | ReadThrew _ => []
  end.

Definition existingReadErrors (env : Env) : list string :=
  match existingRead env with
  | ReadThrew msg => ["Database check error: " ++ msg]
  | _ => []
  end.

Definition isNew (existingUrls : list string) (j : ScrapedJob) : bool :=
  negb (Scraper.setHas existingUrls (applyUrl j)) &&
  negb (Scraper.setHas existingUrls (sourceUrl j)).

(** Step 3: the map of verification results, empty when the stage
    rejects. *)
Definition verificationResults (env : Env) (newJobs : list ScrapedJob)
  : list (ScrapedJob * VerificationResult) :=
  match verifyStageThrew env with
  | None => verifyJobs (net env) newJobs 5
  | Some _ => []
  end.

(** [result?.urlAccessible && !result?.hasRedFlags] *)
Definition passes (result : option VerificationResult) : bool :=
  match result with
  | Some r => urlAccessible r && negb (hasRedFlags r)
  | None => false
  end.

(** Step 4: the map of assessments, empty when the stage rejects. *)
Definition aiResults (env : Env) (validJobs : list ScrapedJob)
  : list (ScrapedJob * AIAnalysisResult) :=
  match analysisStageThrew env with
  | None => analyzeJobs env validJobs 3
  | Some _ => []
  end.

Definition defaultAnalysis : AIAnalysisResult :=
  mkAnalysis 70 false [] [] REVIEW "No AI analysis available".

(** [aiResults.get(job) || { ... }] *)
Definition analysisOrDefault (a : option AIAnalysisResult)
  : AIAnalysisResult :=
  match a with
  | Some r => r
  | None => defaultAnalysis
  end.

(** The predicate of the last [filter] of the chain. *)
Definition accepted (a : AIAnalysisResult) : bool :=
  Recommendation_eqb (recommendation a) APPROVE ||
  (Recommendation_eqb (recommendation a) REVIEW &&
   (60 <=? legitimacyScore a)).

(** [x || null] on an optional number. *)
Definition orNull (n : option Z) : option Z :=
  if Js.truthyNum n then n else None.

(** The mutable state of step 5: the table, the number of clock
    readings so far, [addedCount] and the appended errors. *)
Record Loop := mkLoop {
  table : Store;
  ticks : nat;
  added : Z;
  loopErrors : list string
}.

Definition UNDEFINED_NOTES : string :=
  "TypeError: Cannot read properties of undefined (reading 'notes')".

(** The object literal passed to [insert].  Its properties are
    evaluated in order: the clock is read for an approved posting, then
    the notes are built. *)
Definition payload (env : Env) (tick : nat) (j : ScrapedJob)
    (a : AIAnalysisResult) (v : VerificationResult) : JobInsert :=
  let approve := Recommendation_eqb (recommendation a) APPROVE in
  mkInsert (title j) (company j) (location j) (locationType j)
    (orNull (salaryMin j)) (orNull (salaryMax j))
    (applyUrl j) (sourceUrl j) (source j)
    (if approve then VERIFIED else PENDING)
    (if approve then Some (clock env tick) else None)
    ("Auto-verified. Score: " ++ Js.showZ (legitimacyScore a) ++ "/100. " ++
     notes v).

(** One iteration of [for (const {...} of approvedJobs)]. *)
Definition insertOne (env : Env) (s : Loop) (x : JobWithAnalysis) : Loop :=
  let approve := Recommendation_eqb (recommendation (aiAnalysis x)) APPROVE in
  let ticks' := if approve then S (ticks s) else ticks s in
  let failed msg :=
    mkLoop (table s) ticks' (added s)
      (loopErrors s ++ ["Insert error for " ++ title (job x) ++ ": " ++ msg])
  in
  match verification x with
  | None => failed UNDEFINED_NOTES
  | Some v =>
      match insertOutcome env (job x) with
      | Inserted =>
          mkLoop
            (Storage.insert (table s)
               (payload env (ticks s) (job x) (aiAnalysis x) v))
            ticks' (added s + 1) (loopErrors s)
      | InsertError message => failed message
      | InsertThrew msg => failed msg
      end
  end.

Definition insertAll (env : Env) (s : Loop) (xs : list JobWithAnalysis)
  : Loop :=
  fold_left (insertOne env) xs s.

(** The values the stages of a run compute, named as in the source. *)
Definition jobsOf (env : Env) : list ScrapedJob :=
  match scraped env with
  | inl src => Scraper.scrapeAllSources src
  | inr _ => []
  end.

Definition scrapeErrors (env : Env) : list string :=
  match scraped env with
  | inl _ => []
  | inr msg => ["Scraping error: " ++ msg]
  end.

Definition newJobsOf (env : Env) (st : Store) : list ScrapedJob :=
  filter (isNew (loadExistingUrls env st)) (jobsOf env).

Definition validJobsOf (env : Env) (st : Store) : list ScrapedJob :=
  let newJobs := newJobsOf env st in
  filter (fun j => passes (mapGet (verificationResults env newJobs) j))
         newJobs.

Definition verifyErrors (env : Env) : list string :=
  match verifyStageThrew env with
  | Some msg => ["Verification error: " ++ msg]
  | None => []
  end.

Definition analysisErrors (env : Env) : list string :=
  match analysisStageThrew env with
  | Some msg => ["AI analysis error: " ++ msg]
  | None => []
  end.

Definition combined (env : Env) (st : Store) : list JobWithAnalysis :=
  let newJobs := newJobsOf env st in
  let validJobs := validJobsOf env st in
  map (fun j =>
         mkJWA j (mapGet (verificationResults env newJobs) j)
               (analysisOrDefault (mapGet (aiResults env validJobs) j)))
      validJobs.

Definition approvedJobsOf (env : Env) (st : Store) : list JobWithAnalysis :=
  filter (fun x => accepted (aiAnalysis x)) (combined env st).

(** [runPipeline]: the result and the table it leaves. *)
Definition runPipeline (env : Env) (st : Store) : PipelineResult * Store :=
  let startTime := clock env 0 in
  let jobs := jobsOf env in
  let errors1 := scrapeErrors env in
  if (List.length jobs =? 0)%nat then
    (mkResult 0 0 0 0 0 (clock env 1 - startTime) errors1, st)
  else
  let errors2 := (errors1 ++ existingReadErrors env)%list in
  let newJobs := newJobsOf env st in
  let skipped := count jobs - count newJobs in
  if (List.length newJobs =? 0)%nat then
    (mkResult (count jobs) 0 0 skipped 0 (clock env 1 - startTime) errors2, st)
  else
  let errors3 := (errors2 ++ verifyErrors env)%list in
  let validJobs := validJobsOf env st in
  if (List.length validJobs =? 0)%nat then
    (mkResult (count jobs) 0 0 skipped (count newJobs)
       (clock env 1 - startTime) errors3, st)
  else
  let errors4 := (errors3 ++ analysisErrors env)%list in
  let approvedJobs := approvedJobsOf env st in
  let s := insertAll env (mkLoop st 1 0 errors4) approvedJobs in
  (mkResult (count jobs) (count validJobs) (added s) skipped
     (count newJobs - count validJobs + (count approvedJobs - added s))
     (clock env (ticks s) - startTime) (loopErrors s),
   table s).

End Pipeline.

(* ================================================================= *)
(** ** Re-verification sweep ([reverifyExistingJobs]) *)

Record SweepResult := mkSweep {
  checked : Z;
  expired : Z;
  sweepErrors : list string
}.

Module Sweep.

Definition DAY_MS : Z := 24 * 60 * 60 * 1000.

(** [.eq("verification_status", "VERIFIED").lt("last_verified_at", t)]:
    a null timestamp satisfies no comparison. *)
Definition isStale (threshold : Z) (r : JobRow) : bool :=
  VerificationStatus_eqb (verification_status r) VERIFIED &&
  match last_verified_at r with
  | Some t => t <? threshold
  | None => false
  end.

(** The mutable state of the loop: the table, the number of clock
    readings so far and [expired]. *)
Record Loop := mkLoop {
  table : Store;
  ticks : nat;
  expiredSoFar : Z
}.

(** One iteration of [for (const job of jobsToCheck)]: a [HEAD] request
    on the apply URL, then one update of the row. *)
Definition checkOne (env : Env) (s : Loop) (r : JobRow) : Loop :=
  match fetchHead (net env) (apply_url r) with
  | Some st =>
      if Verifier.okStatus st then
        mkLoop
          (Storage.update (table s) (id r)
             (Storage.setVerified (clock env (ticks s))
                ("Re-verified at " ++
                 toISOString env (clock env (S (ticks s))))))
          (S (S (ticks s))) (expiredSoFar s)
      else
        mkLoop
          (Storage.update (table s) (id r)
             (Storage.setBroken
                ("Link broken (HTTP " ++ Js.showZ st ++ ") at " ++
                 toISOString env (clock env (ticks s)))))
          (S (ticks s)) (expiredSoFar s + 1)
  | None =>
      mkLoop
        (Storage.update (table s) (id r)
           (Storage.setBroken
              ("Link unreachable at " ++
               toISOString env (clock env (ticks s)))))
        (S (ticks s)) (expiredSoFar s + 1)
  end.

Definition jobsToCheck (env : Env) (st : Store) : list JobRow :=
  filter (isStale (clock env 0 - DAY_MS)) st.

Definition reverifyExistingJobs (env : Env) (st : Store)
  : SweepResult * Store :=
  match staleReadError env with
  | Some message => (mkSweep 0 0 ["Fetch error: " ++ message], st)
  | None =>
      let rows := jobsToCheck env st in
      if (List.length rows =? 0)%nat then (mkSweep 0 0 [], st)
      else
        let s := fold_left (checkOne env) rows (mkLoop st 1 0) in
        (mkSweep (Pipeline.count rows) (expiredSoFar s) [], table s)
  end.

End Sweep.

(* ================================================================= *)
(** ** Public listing (the home page and the jobs page)

    Both pages select with
    [.eq("verification_status", "VERIFIED")
     .gte("last_verified_at", fortyEightHoursAgo)];
    the home page then keeps the ten most recent rows and counts all the
    matching ones. *)

Module Listing.

Definition WINDOW_MS : Z := 48 * 60 * 60 * 1000.

(** [new Date(Date.now() - 48 * 60 * 60 * 1000)] *)
Definition fortyEightHoursAgo (now : Z) : Z := now - WINDOW_MS.

(** The two conditions of the query on one row; a null timestamp
    satisfies no comparison. *)
Definition selected (now : Z) (r : JobRow) : bool :=
  VerificationStatus_eqb (verification_status r) VERIFIED &&
  match last_verified_at r with
  | Some t => fortyEightHoursAgo now <=? t
  | None => false
  end.

(** The rows matching the query. *)
Definition matching (now : Z) (st : Store) : list JobRow :=
  filter (selected now) st.

(** [select("*", { count: "exact", head: true })] with the same
    conditions. *)
Definition totalCount (now : Z) (st : Store) : Z :=
  Pipeline.count (matching now st).

(** The age of a record at time [now]. *)
Definition age (now : Z) (t : Z) : Z := now - t.

End Listing.

(* ================================================================= *)
(** ** Vocabulary of the statements *)

(** A condition counted as 0 or 1. *)
Definition b2z (b : bool) : Z := if b then 1 else 0.

(** The adjustments of the rule engine for the signals present. *)
Definition adjustments (job : ScrapedJob) : Z :=
  - 15 * b2z (Rules.urgency job)
  - 20 * b2z (Rules.contradictory job)
  - 15 * b2z (Rules.undisclosed job)
  - 10 * b2z (Rules.shortDescription job)
  - 25 * b2z (Rules.tooGood job)
  + 10 * b2z (Rules.salaryRange job)
  + 5 * b2z (Rules.teamStructure job)
  + 10 * b2z (Rules.atsUrl job)
  + 5 * b2z (Rules.longDescription job).

(** Every code unit of the word is an ASCII one. *)
Fixpoint asciiOnly (w : string) : bool :=
  match w with
  | EmptyString => true
  | String c w' => (nat_of_ascii c <? 128)%nat && asciiOnly w'
  end.

(** The word [w0] occurs in [txt] when case is ignored: some stretch of
    [txt] lower-cases to [w0]. *)
Definition occursIgnoringCase (txt w0 : string) : Prop :=
  exists pre w post, txt = pre ++ w ++ post /\ Js.toLowerCase w = w0.

(** The text the red-flag scan reads. *)
Definition textToCheck (j : ScrapedJob) : string :=
  title j ++ " " ++ Js.orEmpty (description j).

Definition scamJob : ScrapedJob :=
  mkJob "Sales Associate" "Confidential" "Remote" REMOTE (Some 250000) None
    "https://example.com/jobs/2" "https://example.com/jobs/2" "jobicy"
    (Some "Earn a Guaranteed Income from home.").


(** A stored row of the posting "Junior Developer at Acme". *)
Definition acmeCols (status : VerificationStatus) (last : option Z)
  : JobInsert :=
  mkInsert "Junior Developer" "Acme" "Remote" REMOTE (Some 70000) (Some 90000)
    "https://boards.greenhouse.io/acme/jobs/1"
    "https://remotive.com/remote-jobs/1" "remotive" status last
    "Auto-verified. Score: 95/100. URL accessible (200)".

(** Noon of 3 November 2026, in milliseconds. *)
Definition someNoon : Z := 1793707200000.

Definition boundaryRow : JobRow :=
  mkRow 1 (acmeCols VERIFIED (Some (someNoon - Listing.WINDOW_MS))).

(** Two postings of one opening, cross-posted with different URLs. *)
Definition acmeJob : ScrapedJob :=
  mkJob "Junior Developer" "Acme" "Remote" REMOTE (Some 70000) (Some 90000)
    "https://boards.greenhouse.io/acme/jobs/1"
    "https://remotive.com/remote-jobs/1" "remotive"
    (Some ("We build accounting software for small shops. You will write " ++
           "Python services, fix bugs and ship features every week.")).

Definition acmeJobReposted : ScrapedJob :=
  mkJob "JUNIOR Developer" "ACME" "Worldwide" REMOTE None None
    "https://jobicy.com/jobs/77" "https://jobicy.com/jobs/77" "jobicy" None.

Definition twinSources : Sources :=
  mkSources [] [acmeJob] [] [] [acmeJobReposted] [] [] [].

(** A world for the examples: the storage answers, the providers are
    not configured, no stage rejects, the clock advances by one second
    per reading. *)
Definition quietEnv (src : Sources) (n : Net) : Env :=
  mkEnv (inl src) ReadRows (fun _ => Inserted) None n None
        (fun _ => None) (fun _ => None) None
        (fun k => someNoon + 1000 * Z.of_nat k)
        (fun t => "T" ++ Js.showZ t).

(** A posting on the employer's own site: the page answers 200, the
    bare host does not answer. *)
Definition ownSiteUrl : string := "https://careers.acme-widgets.example/jobs/1".

Definition ownSiteJob : ScrapedJob :=
  mkJob "Junior Developer" "Acme Widgets" "Remote" REMOTE None None
    ownSiteUrl "https://remotive.com/remote-jobs/9" "remotive"
    (Some ("We build accounting software for small shops. You will write " ++
           "Python services, fix bugs and ship features every week.")).

Definition ownSiteNet : Net :=
  mkNet (fun url => if String.eqb url ownSiteUrl then Some 200 else None)
        (fun _ => None)
        (fun url => if String.eqb url ownSiteUrl
                    then Some "careers.acme-widgets.example" else None).

Definition ownSiteEnv : Env :=
  quietEnv (mkSources [] [ownSiteJob] [] [] [] [] [] []) ownSiteNet.

(** A posting on a trusted board that the rule engine rejects. *)
Definition pushyUrl : string := "https://boards.greenhouse.io/pushy/jobs/3".

Definition pushyJob : ScrapedJob :=
  mkJob "Developer" "Pushy Labs" "Remote" REMOTE None None
    pushyUrl "https://remotive.com/remote-jobs/3" "remotive"
    (Some "Immediate opening. Guaranteed bonus.").

Definition pushyNet : Net :=
  mkNet (fun url => if String.eqb url pushyUrl then Some 200 else None)
        (fun _ => None)
        (fun url => if String.eqb url pushyUrl
                    then Some "boards.greenhouse.io" else None).

Definition pushyEnv : Env :=
  quietEnv (mkSources [] [pushyJob] [] [] [] [] [] []) pushyNet.

(** The assessment a run uses for a verified posting: the one of the
    scoring stage, or the default when the stage produced none. *)
Definition assessmentOf (env : Env) (j : ScrapedJob) : AIAnalysisResult :=
  match analysisStageThrew env with
  | None => analyzeJobWithAI env j
  | Some _ => Pipeline.defaultAnalysis
  end.

(** The URL [u] is the apply URL or the source URL of a stored row. *)
Definition urlInStorage (st : Store) (u : string) : Prop :=
  exists r, In r st /\ (u = apply_url r \/ u = source_url r).

(** The acceptance rule of the specification. *)
Definition acceptable (a : AIAnalysisResult) : Prop :=
  recommendation a = APPROVE \/
  (recommendation a = REVIEW /\ 60 <= legitimacyScore a).

(** The Acme posting on its trusted board. *)
Definition acmeNet : Net :=
  mkNet (fun url => if String.eqb url (applyUrl acmeJob) then Some 200
                    else None)
        (fun _ => None)
        (fun url => if String.eqb url (applyUrl acmeJob)
                    then Some "boards.greenhouse.io" else None).

Definition acmeEnv : Env := quietEnv twinSources acmeNet.




(** A table with one row verified 30 hours ago, and a world in which
    its apply URL answers 404. *)
Definition staleRow : JobRow :=
  mkRow 7 (acmeCols VERIFIED (Some (someNoon - 30 * 60 * 60 * 1000))).

Definition goneNet : Net :=
  mkNet (fun _ => Some 404) (fun _ => Some 404) (fun _ => None).

Definition goneEnv : Env := quietEnv twinSources goneNet.

(** The verified postings whose assessment is not accepted. *)
Definition rejectedCount (env : Env) (st : Store) : Z :=
  Pipeline.count (Pipeline.validJobsOf env st) -
  Pipeline.count (Pipeline.approvedJobsOf env st).

(** The storage takes the row of the approved posting. *)
Definition taken (env : Env) (x : JobWithAnalysis) : bool :=
  match verification x, insertOutcome env (job x) with
  | Some _, Inserted => true
  | _, _ => false
  end.

(** The new postings the filter after the verification stage drops. *)
Definition failedVerification (env : Env) (st : Store) : list ScrapedJob :=
  let newJobs := Pipeline.newJobsOf env st in
  filter (fun j => negb (Pipeline.passes
                           (mapGet (Pipeline.verificationResults env newJobs) j)))
         newJobs.

(** The approved postings whose insert fails. *)
Definition failedInserts (env : Env) (st : Store) : list JobWithAnalysis :=
  filter (fun x => negb (taken env x)) (Pipeline.approvedJobsOf env st).

(** *** The rule engine, in words *)

(** The posting mentions the phrase [w]: it occurs in the title or in
    the description, case ignored. *)
Definition mentions (j : ScrapedJob) (w : string) : Prop :=
  occursIgnoringCase (textToCheck j) w.

(** The apply URL holds the word [w], as written. *)
Definition urlHolds (j : ScrapedJob) (w : string) : Prop :=
  exists pre post, applyUrl j = pre ++ w ++ post.

(** The nine signals of the rule engine, in words. *)
Definition urgencyLanguage (j : ScrapedJob) : Prop :=
  mentions j "urgently" \/ mentions j "immediate".

Definition contradictoryExperience (j : ScrapedJob) : Prop :=
  mentions j "no experience" /\ mentions j "senior".

Definition undisclosedCompany (j : ScrapedJob) : Prop :=
  (String.length (company j) < 3)%nat \/
  Js.toLowerCase (company j) = "confidential".

(** A missing description counts as a short one. *)
Definition descriptionUnder100 (j : ScrapedJob) : Prop :=
  forall d, description j = Some d -> (String.length d < 100)%nat.

Definition tooGoodClaims (j : ScrapedJob) : Prop :=
  mentions j "guaranteed" \/ mentions j "unlimited earning".

Definition salaryRangeGiven (j : ScrapedJob) : Prop :=
  exists lo hi, salaryMin j = Some lo /\ salaryMax j = Some hi /\
                lo <> 0 /\ hi <> 0 /\ lo < hi.

Definition teamLanguage (j : ScrapedJob) : Prop :=
  mentions j "team" \/ mentions j "report to" \/ mentions j "manager".

Definition atsWordInUrl (j : ScrapedJob) : Prop :=
  urlHolds j "greenhouse" \/ urlHolds j "lever" \/ urlHolds j "workday".

Definition descriptionOver500 (j : ScrapedJob) : Prop :=
  exists d, description j = Some d /\ (500 < String.length d)%nat.

(** The adjustment a signal of weight [w] makes to the score: [w] when
    the signal is present, nothing otherwise. *)
Inductive adjusts (present : Prop) (w : Z) : Z -> Prop :=
| adjusts_present : present -> adjusts present w w
| adjusts_absent : ~ present -> adjusts present w 0.

(** "Known ATS apply URL" as the specification has it: the apply URL is
    on one of the applicant-tracking domains of the verifier's
    allow-list. *)
Definition onAtsAllowList (j : ScrapedJob) : Prop :=
  exists d, In d Verifier.TRUSTED_DOMAINS /\ urlHolds j d.

(** The Acme opening on a board of the allow-list whose name holds none
    of the three words, and on a site that is no applicant-tracking
    platform but holds one of them. *)
Definition ashbyJob : ScrapedJob :=
  mkJob "Junior Developer" "Acme" "Remote" REMOTE None None
    "https://jobs.ashbyhq.com/acme/1" "https://remotive.com/remote-jobs/11"
    "remotive"
    (Some ("We build accounting software for small shops. You will write " ++
           "Python services, fix bugs and ship features every week.")).

Definition cleverJob : ScrapedJob :=
  mkJob "Junior Developer" "Acme" "Remote" REMOTE None None
    "https://cleverjobs.example/acme/1" "https://remotive.com/remote-jobs/12"
    "remotive"
    (Some ("We build accounting software for small shops. You will write " ++
           "Python services, fix bugs and ship features every week.")).

(** *** Acceptance and persistence *)

(** The acceptance rule of the specification, decided. *)
Definition accepts (a : AIAnalysisResult) : bool :=
  match recommendation a with
  | APPROVE => true
  | REVIEW => 60 <=? legitimacyScore a
  | REJECT => false
  end.

(** The storage takes the row of the posting. *)
Definition storageTakes (env : Env) (j : ScrapedJob) : bool :=
  match insertOutcome env j with
  | Inserted => true
  | _ => false
  end.

(** The survivors of verification a run accepts and the storage takes,
    in the order of the run. *)
Definition persisted (env : Env) (st : Store) : list ScrapedJob :=
  filter (storageTakes env)
    (filter (fun j => accepts (assessmentOf env j))
       (Pipeline.validJobsOf env st)).

(** The row [r] is the posting [j] persisted as the specification has
    it: VERIFIED with a reading of the clock taken during the run when
    the assessment says APPROVE, PENDING without a timestamp otherwise,
    the score and the notes of the verifier in its notes. *)
Definition persistedAs (env : Env) (j : ScrapedJob) (r : JobRow) : Prop :=
  let a := assessmentOf env j in
  ins_title (cols r) = title j /\ ins_company (cols r) = company j /\
  apply_url r = applyUrl j /\ source_url r = sourceUrl j /\
  (recommendation a = APPROVE ->
   verification_status r = VERIFIED /\
   exists k, (1 <= k)%nat /\ last_verified_at r = Some (clock env k)) /\
  (recommendation a <> APPROVE ->
   verification_status r = PENDING /\ last_verified_at r = None) /\
  Js.includes (verification_notes r)
    ("Score: " ++ Js.showZ (legitimacyScore a) ++ "/100") = true /\
  Js.includes (verification_notes r)
    (notes (Verifier.verifyJob (net env) j)) = true.

(** *** The existing-URL check *)

(** The URL [u] is the apply URL or the source URL of a stored row,
    decided. *)
Definition storedUrl (st : Store) (u : string) : bool :=
  existsb (fun r => String.eqb u (apply_url r) || String.eqb u (source_url r))
          st.

(** The apply URL or the source URL of the posting is a URL of a stored
    row. *)
Definition alreadyStored (st : Store) (j : ScrapedJob) : bool :=
  storedUrl st (applyUrl j) || storedUrl st (sourceUrl j).

(** A later run in the same world: the adapters return the same
    postings, the network, the providers and the storage answer as
    before; the run reads its own clock. *)
Definition laterRun (env : Env) (clock' : nat -> Z) (iso' : Z -> string)
  : Env :=
  mkEnv (scraped env) (existingRead env) (insertOutcome env)
        (staleReadError env) (net env) (verifyStageThrew env)
        (analyzeWithOpenAI env) (analyzeWithAnthropic env)
        (analysisStageThrew env) clock' iso'.

(** The clock of a run started an hour after noon. *)
Definition hourLater (k : nat) : Z := someNoon + 3600000 + 1000 * Z.of_nat k.

(** *** The key of the aggregation *)








(** *** The request of the sweep *)








(* ================================================================= *)
(** ** Display helpers (utils.ts) *)

Module Utils.

(** [formatDistanceToNow(date)], with the reading [now] of the clock and
    the platform's [date.toLocaleDateString()] as parameters.
    [Math.floor] of a quotient is the integer division of [Z]. *)
Definition formatDistanceToNow (toLocaleDateString : Z -> string)
    (now date : Z) : string :=
  let diffMs := now - date in
  let diffMins := diffMs / 60000 in
  let diffHours := diffMins / 60 in
  let diffDays := diffHours / 24 in
  if diffMins <? 1 then "just now"
  else if diffMins <? 60 then Js.showZ diffMins ++ "m ago"
  else if diffHours <? 24 then Js.showZ diffHours ++ "h ago"
  else if diffDays <? 7 then Js.showZ diffDays ++ "d ago"
  else toLocaleDateString date.

(** [Math.round(n / 1000)] on an integer below 2^53 in size: the
    quotient is rounded to a double less than 0.001 away from it, which
    lies on the same side of every half as the quotient itself, so the
    result is the nearest integer, a half rounded up. *)
Definition roundK (n : Z) : Z := (n + 500) / 1000.

(** [formatK]: [`$${Math.round(n / 1000)}k`].  An integer below 10^21
    is written with all its digits; where [n] is 2^53 or more in size the
    rounded quotient and its writing (with an exponent from 10^21 on) are
    the engine's, [render]. *)
Definition formatK (render : Z -> string) (n : Z) : string :=
  "$" ++ (if Z.abs n <? 2 ^ 53 then Js.showZ (roundK n) else render n) ++ "k".

(** The number held by a truthy argument. *)
Definition num (n : option Z) : Z :=
  match n with
  | Some v => v
  | None => 0
  end.

(** [formatSalary(min, max)]; [null] and [0] are falsy. *)
Definition formatSalary (render : Z -> string) (min max : option Z)
  : string :=
  if negb (Js.truthyNum min) && negb (Js.truthyNum max)
  then "Salary not listed"
  else if Js.truthyNum min && Js.truthyNum max
  then formatK render (num min) ++ " - " ++ formatK render (num max)
  else if Js.truthyNum min then formatK render (num min) ++ "+"
  else if Js.truthyNum max then "Up to " ++ formatK render (num max)
  else "Salary not listed".

End Utils.

(* ================================================================= *)
(** ** Salary parsing (scraper.ts, [parseSalary]) *)

(** The argument [salaryStr?: string | number]. *)
Inductive SalaryInput :=
| SalaryMissing
| SalaryNumber (n : Z)
| SalaryText (s : string).

(** A number [parseSalary] computes with: an integer held by a double,
    or [Infinity]. *)
Inductive JsNumber :=
| Finite (z : Z)
| Infinity.

Record SalaryRange := mkRange {
  rangeMin : option JsNumber;
  rangeMax : option JsNumber
}.

Module Salary.

(** The matches of [/\d+/g]: the maximal runs of digits, left to right.
    [run] is the run being read, most recent digit first. *)
Fixpoint digitRunsFrom (run : list ascii) (s : string) : list (list ascii) :=
  match s with
  | EmptyString =>
      match run with
      | [] => []
      | _ :: _ => [rev run]
      end
  | String c s' =>
      if Regex.isDigit c then digitRunsFrom (c :: run) s'
      else
        match run with
        | [] => digitRunsFrom [] s'
        | _ :: _ => rev run :: digitRunsFrom [] s'
        end
  end.

Definition digitRuns (s : string) : list (list ascii) := digitRunsFrom [] s.

(** The integer a run of digits denotes in radix 10. *)
Definition mathInt (ds : list ascii) : Z :=
  fold_left (fun acc c => 10 * acc + (Z.of_nat (nat_of_ascii c) - 48)) ds 0.

(** The double nearest to the integer [z >= 0]: [z] itself below 2^53;
    above, [z] rounded to 53 significant bits, a tie going to the even
    significand, and [Infinity] when that is 2^1024 or more. *)
Definition toDouble (z : Z) : JsNumber :=
  if z <? 2 ^ 53 then Finite z
  else
    let e := Z.log2 z - 52 in
    let q := z / 2 ^ e in
    let r := z mod 2 ^ e in
    let half := 2 ^ (e - 1) in
    let q' := if r <? half then q
              else if half <? r then q + 1
              else if Z.even q then q else q + 1 in
    if q' * 2 ^ e <? 2 ^ 1024 then Finite (q' * 2 ^ e) else Infinity.

(** [parseInt(n, 10)] on a run of digits. *)
Definition parseInt (ds : list ascii) : JsNumber := toDouble (mathInt ds).

(** [x * 1000] *)
Definition times1000 (x : JsNumber) : JsNumber :=
  match x with
  | Finite z => toDouble (z * 1000)
  | Infinity => Infinity
  end.

(** Truthiness of an element of [parsed]: a missing element and [0]
    are falsy. *)
Definition truthy (x : option JsNumber) : bool :=
  match x with
  | Some (Finite z) => negb (z =? 0)
  | Some Infinity => true
  | None => false
  end.

(** [x ? x * 1000 : undefined] *)
Definition thousands (x : option JsNumber) : option JsNumber :=
  match x with
  | Some n => if truthy (Some n) then Some (times1000 n) else None
  | None => None
  end.

Definition parseSalary (salaryStr : SalaryInput) : SalaryRange :=
  match salaryStr with
  | SalaryMissing => mkRange None None
  | SalaryNumber n =>
      if n =? 0 then mkRange None None
      else mkRange (Some (Finite n)) (Some (Finite n))
  | SalaryText s =>
      if String.eqb s "" then mkRange None None
      else
        match digitRuns s with
        | [] => mkRange None None
        | numbers =>
            let parsed := map parseInt numbers in
            let p0 := nth_error parsed 0 in
            let p1 := nth_error parsed 1 in
            if Js.includes (Js.toLowerCase s) "k" then
              mkRange (thousands p0)
                      (if truthy p1 then thousands p1 else thousands p0)
            else
              mkRange p0 (if truthy p1 then p1 else p0)
        end
  end.

End Salary.

(* ================================================================= *)
(** ** The pages that show the listing (home page, [JobList]) *)

Module Pages.

(** [a] is to come before [b] under
    [.order("last_verified_at", { ascending: false })]; a null timestamp
    sorts first in a descending order. *)
Definition notOlder (a b : JobRow) : bool :=
  match last_verified_at a, last_verified_at b with
  | None, _ => true
  | Some _, None => false
  | Some ta, Some tb => tb <=? ta
  end.

Fixpoint insertDesc (r : JobRow) (sorted : list JobRow) : list JobRow :=
  match sorted with
  | [] => [r]
  | x :: rest => if notOlder r x then r :: x :: rest else x :: insertDesc r rest
  end.

(** The order of the query result: latest first, rows with equal
    timestamps in table order (the database may return them in any
    order). *)
Definition orderDesc (rows : list JobRow) : list JobRow :=
  fold_right insertDesc [] rows.

(** The home page: the query with [.limit(10)], then
    [jobs.slice(0, 5)] on the page. *)
Definition homePageJobs (now : Z) (st : Store) : list JobRow :=
  firstn 10 (orderDesc (Listing.matching now st)).

Definition homePagePreview (now : Z) (st : Store) : list JobRow :=
  firstn 5 (homePageJobs now st).

(** [jobs.length > 5]: the link to all the jobs is shown. *)
Definition homePageShowsMore (now : Z) (st : Store) : bool :=
  (5 <? List.length (homePageJobs now st))%nat.

(** [JobList]: what an account sees of the filtered jobs. *)
Definition shouldShowPaywall (jobs : list JobRow) (hasPaid : bool)
    (freeLimit : nat) : bool :=
  negb hasPaid && (freeLimit <? List.length jobs)%nat.

Definition visibleJobs (filteredJobs : list JobRow) (hasPaid : bool)
    (freeLimit : nat) : list JobRow :=
  if hasPaid then filteredJobs else firstn freeLimit filteredJobs.

(** [Math.max(0, filteredJobs.length - freeLimit)] *)
Definition hiddenCount (filteredJobs : list JobRow) (hasPaid : bool)
    (freeLimit : nat) : Z :=
  if hasPaid then 0
  else Z.max 0 (Z.of_nat (List.length filteredJobs) - Z.of_nat freeLimit).

(** [filteredJobs.slice(freeLimit, freeLimit + 3)], rendered blurred
    when the paywall shows and some job matches the filters. *)
Definition blurredJobs (jobs filteredJobs : list JobRow) (hasPaid : bool)
    (freeLimit : nat) : list JobRow :=
  if (List.length filteredJobs =? 0)%nat then []
  else if shouldShowPaywall jobs hasPaid freeLimit
       then firstn 3 (skipn freeLimit filteredJobs)
       else [].

End Pages.

(* ================================================================= *)
(** ** Vocabulary of the further statements *)

(** The strings a pattern of the table matches exactly. *)
Inductive Lang : Regex.regex -> string -> Prop :=
| LangEps : Lang Regex.REps ""
| LangCls c a : Regex.clsMatch c a = true -> Lang (Regex.RCls c) (String a "")
| LangCat r1 r2 m1 m2 :
    Lang r1 m1 -> Lang r2 m2 -> Lang (Regex.RCat r1 r2) (m1 ++ m2)
| LangAltL r1 r2 m : Lang r1 m -> Lang (Regex.RAlt r1 r2) m
| LangAltR r1 r2 m : Lang r2 m -> Lang (Regex.RAlt r1 r2) m
| LangStarNil c : Lang (Regex.RStar c) ""
| LangStarCons c a m :
    Regex.clsMatch c a = true -> Lang (Regex.RStar c) m ->
    Lang (Regex.RStar c) (String a m).

(** A property of all 256 code units, checked by running through them. *)
Definition allAscii (p : ascii -> bool) : bool :=
  forallb (fun n => p (ascii_of_nat n)) (seq 0 256).

(** A word the way the table writes its literals: ASCII, no capitals. *)
Fixpoint plainWord (w : string) : bool :=
  match w with
  | EmptyString => true
  | String c w' =>
      (nat_of_ascii c <? 128)%nat && Ascii.eqb (Js.lowerChar c) c &&
      plainWord w'
  end.

(** The string is made of decimal digits. *)
Fixpoint allDigits (d : string) : bool :=
  match d with
  | EmptyString => true
  | String c d' => Regex.isDigit c && allDigits d'
  end.

(** The patterns of the table that are one literal phrase. *)
Definition literalFlags : list (string * string) :=
  [ ("urgently hiring", "Urgently hiring language");
    ("immediate start", "Immediate start pressure");
    ("no experience needed", "No experience needed for tech role");
    ("guaranteed income", "Guaranteed income claims");
    ("be your own boss", "MLM-style language");
    ("unlimited earning", "Unlimited earning claims") ].

(** A money amount of three or more digits followed by [unit], as in
    "$250/day". *)
Definition hasRate (txt unit : string) : Prop :=
  exists pre d w post,
    txt = pre ++ "$" ++ d ++ w ++ post /\
    allDigits d = true /\ (3 <= String.length d)%nat /\
    Js.toLowerCase w = unit.

(** The strings of the list differ pairwise. *)
Fixpoint distinctStrings (l : list string) : bool :=
  match l with
  | [] => true
  | x :: rest => negb (existsb (String.eqb x) rest) && distinctStrings rest
  end.

(** The patterns of a table that carry the label [flag]. *)
Definition patternsOf (table : list (Regex.regex * string)) (flag : string)
  : list Regex.regex :=
  map fst (filter (fun e => String.eqb (snd e) flag) table).

(** The lower-case letter test behind the flag [i], for one pattern
    character [c] against every input character. *)
Definition canonAgrees (c : ascii) : bool :=
  implb ((nat_of_ascii c <? 128)%nat && Ascii.eqb (Js.lowerChar c) c)
        (allAscii (fun a =>
           Bool.eqb (Ascii.eqb (Regex.canon c) (Regex.canon a))
                    (Ascii.eqb (Js.lowerChar a) c))).



(** A server that refuses [HEAD] with 405 and would serve [GET]. *)
Definition headRefusedNet : Net :=
  mkNet (fun _ => Some 405) (fun _ => Some 200) (fun _ => None).

(** The number of negative and of positive signals of a posting. *)
Definition negativeSignals (j : ScrapedJob) : Z :=
  b2z (Rules.urgency j) + b2z (Rules.contradictory j) +
  b2z (Rules.undisclosed j) + b2z (Rules.shortDescription j) +
  b2z (Rules.tooGood j).

Definition positiveCount (j : ScrapedJob) : Z :=
  b2z (Rules.salaryRange j) + b2z (Rules.teamStructure j) +
  b2z (Rules.atsUrl j) + b2z (Rules.longDescription j).

(** A world in which the first provider approves with a score of 5. *)
Definition lenientProviderEnv : Env :=
  mkEnv (inl twinSources) ReadRows (fun _ => Inserted) None acmeNet None
        (fun _ => Some (mkAnalysis 5 true ["Vague"] [] APPROVE "ok"))
        (fun _ => Some (mkAnalysis 10 true [] [] REJECT "no")) None
        (fun k => someNoon + 1000 * Z.of_nat k)
        (fun t => "T" ++ Js.showZ t).

(** Every row with status VERIFIED has a last-verified timestamp. *)
Definition wellDated (st : Store) : Prop :=
  forall r, In r st -> verification_status r = VERIFIED ->
            last_verified_at r <> None.

(** A row as the run inserts it: VERIFIED with a timestamp or PENDING
    without one, with the URLs of a verified posting of the run. *)
Definition insertedRow (env : Env) (st : Store) (r : JobRow) : Prop :=
  ((verification_status r = VERIFIED /\ exists t, last_verified_at r = Some t) \/
   (verification_status r = PENDING /\ last_verified_at r = None)) /\
  exists j, In j (Pipeline.validJobsOf env st) /\
            apply_url r = applyUrl j /\ source_url r = sourceUrl j.

(** No stage of the run rejects and the URL query does not throw. *)
Definition stagesSucceed (env : Env) : Prop :=
  (exists src, scraped env = inl src) /\
  (forall msg, existingRead env <> ReadThrew msg) /\
  verifyStageThrew env = None /\ analysisStageThrew env = None.

(** The columns of a row the sweep has no business with: the key and
    the posting itself, the status, the timestamp and the notes blanked
    out. *)
Definition postingOf (r : JobRow) : nat * JobInsert :=
  (id r,
   mkInsert (ins_title (cols r)) (ins_company (cols r))
     (ins_location (cols r)) (ins_location_type (cols r))
     (ins_salary_min (cols r)) (ins_salary_max (cols r))
     (ins_apply_url (cols r)) (ins_source_url (cols r))
     (ins_source (cols r)) PENDING None "").

(** The number a run of digits, given as a string, stands for. *)
Definition digitsValue (d : string) : Z :=
  Salary.mathInt (list_ascii_of_string d).

(** [k] is the nearest thousand of [n], a half rounded up. *)
Definition nearestThousand (n k : Z) : Prop :=
  1000 * k - 500 <= n < 1000 * k + 500.

(** A bound [parseSalary] may return for a text: [Infinity] or a
    non-negative integer. *)
Definition nonNegative (b : JsNumber) : Prop :=
  b = Infinity \/ exists v, b = Finite v /\ 0 <= v.

(** A bound it may return for a text with the letter k: [Infinity] or a
    positive integer, a multiple of 1000 when it is below 2^53. *)
Definition thousandfold (b : JsNumber) : Prop :=
  b = Infinity \/
  exists v, b = Finite v /\ 0 < v /\ (v < 2 ^ 53 -> v mod 1000 = 0).

(* ================================================================= *)
(** ** The per-company boards (scraper.ts, [scrapeGreenhouseAll] and
    [scrapeLeverAll]) *)

Module Boards.

Definition GREENHOUSE_COMPANIES : list string :=
  [ "stripe"; "mongodb"; "figma"; "notion"; "discord"; "plaid"; "ramp";
    "brex"; "gusto"; "airtable"; "webflow"; "vercel"; "supabase"; "linear";
    "loom"; "miro"; "asana"; "dropbox"; "twitch"; "reddit"; "coinbase";
    "robinhood"; "doordash"; "instacart"; "lyft"; "uber"; "airbnb";
    "snapchat"; "pinterest"; "spotify"; "netflix"; "databricks"; "snowflake";
    "datadog"; "cloudflare"; "elastic"; "gitlab"; "hashicorp"; "confluent";
    "okta" ].

Definition LEVER_COMPANIES : list string :=
  [ "openai"; "anthropic"; "scale"; "anyscale"; "huggingface"; "stability";
    "replit"; "sourcegraph"; "retool"; "deel"; "remote"; "oysterhr";
    "lattice"; "rippling"; "zapier"; "calendly"; "canva"; "grammarly";
    "duolingo"; "quizlet" ].

(** The loop [for (let i = 0; i < roster.length; i += batchSize)]: the
    boards of [roster.slice(i, i + batchSize)] are fetched together and
    their postings pushed in the order of the batch, then the loop goes
    on with the tokens after it.  [scrapeCompany] is the per-company
    adapter, which returns the postings of one board and [[]] when the
    board fails; [fuel] bounds the number of batches. *)
Fixpoint scrapeBatches (fuel batchSize : nat)
    (scrapeCompany : string -> list ScrapedJob) (roster : list string)
  : list ScrapedJob :=
  match fuel, roster with
  | S fuel', _ :: _ =>
      (flat_map scrapeCompany (firstn batchSize roster) ++
       scrapeBatches fuel' batchSize scrapeCompany (skipn batchSize roster))%list
  | _, _ => []
  end.

Definition scrapeGreenhouseAll (scrapeGreenhouseCompany : string -> list ScrapedJob)
  : list ScrapedJob :=
  scrapeBatches (List.length GREENHOUSE_COMPANIES) 5 scrapeGreenhouseCompany
    GREENHOUSE_COMPANIES.

Definition scrapeLeverAll (scrapeLeverCompany : string -> list ScrapedJob)
  : list ScrapedJob :=
  scrapeBatches (List.length LEVER_COMPANIES) 5 scrapeLeverCompany
    LEVER_COMPANIES.

End Boards.

(** Postings whose company and title split one hyphenated phrase
    differently. *)
Definition leftSplit (x y z : string) : ScrapedJob :=
  mkJob z (x ++ "-" ++ y) "Remote" REMOTE None None
    "https://example.com/a" "https://example.com/a" "remotive" None.

Definition rightSplit (x y z : string) : ScrapedJob :=
  mkJob (y ++ "-" ++ z) x "Remote" REMOTE None None
    "https://example.com/b" "https://example.com/b" "jobicy" None.

(** The string holds no line terminator. *)
Fixpoint oneLine (m : string) : bool :=
  match m with
  | EmptyString => true
  | String c m' => negb (Regex.isLineTerminator c) && oneLine m'
  end.

(** The phrase [w1] and, later on the same line, the phrase [w2]. *)
Definition hasGap (txt w1 w2 : string) : Prop :=
  exists pre a mid b post,
    txt = pre ++ a ++ mid ++ b ++ post /\
    Js.toLowerCase a = w1 /\ oneLine mid = true /\ Js.toLowerCase b = w2.

(** Three phrases in a row on one line. *)
Definition hasGaps (txt w1 w2 w3 : string) : Prop :=
  exists pre a m1 b m2 c post,
    txt = pre ++ a ++ m1 ++ b ++ m2 ++ c ++ post /\
    Js.toLowerCase a = w1 /\ oneLine m1 = true /\
    Js.toLowerCase b = w2 /\ oneLine m2 = true /\ Js.toLowerCase c = w3.

(** "work from home $", one digit or more, then "k". *)
Definition hasHomePay (txt : string) : Prop :=
  exists pre w d k post,
    txt = pre ++ w ++ d ++ k ++ post /\
    Js.toLowerCase w = "work from home $" /\
    allDigits d = true /\ d <> "" /\ Js.toLowerCase k = "k".

(** A world whose storage does not answer the URL query, with the Acme
    posting already in the table. *)
Definition silentStoreEnv : Env :=
  mkEnv (inl twinSources) ReadNoData (fun _ => Inserted) None acmeNet None
        (fun _ => None) (fun _ => None) None
        (fun k => someNoon + 1000 * Z.of_nat k)
        (fun t => "T" ++ Js.showZ t).

Definition acmeTable : Store :=
  [mkRow 1 (acmeCols VERIFIED (Some someNoon))].

(* ================================================================= *)
(** * Properties *)

(** ** The rule engine *)

Lemma score_concern c msg d a :
  Rules.score (Rules.concern c msg d a) = Rules.score a - d * b2z c.
Proof. destruct c; cbn; lia. Qed.

Lemma score_positive c msg d a :
  Rules.score (Rules.positive c msg d a) = Rules.score a + d * b2z c.
Proof. destruct c; cbn; lia. Qed.

Lemma score_accumulate job :
  Rules.score (Rules.accumulate job) = 70 + adjustments job.
Proof.
  unfold Rules.accumulate, adjustments.
  rewrite !score_positive, !score_concern. cbn [Rules.score]. lia.
Qed.

Lemma cap_bounds s : 0 <= Rules.cap s <= 100.
Proof. unfold Rules.cap. lia. Qed.

Lemma recommend_cases s :
  (Rules.recommend s = APPROVE <-> 70 <= s) /\
  (Rules.recommend s = REVIEW <-> 50 <= s < 70) /\
  (Rules.recommend s = REJECT <-> s < 50).
Proof.
  unfold Rules.recommend.
  destruct (70 <=? s) eqn:H70; [apply Z.leb_le in H70 | apply Z.leb_gt in H70].
  - repeat split; intros; try discriminate; try lia.
  - destruct (50 <=? s) eqn:H50;
      [apply Z.leb_le in H50 | apply Z.leb_gt in H50];
      repeat split; intros; try discriminate; try lia.
Qed.

(** ** Strings and patterns *)

Lemma startsWith_app w s : Js.startsWith (w ++ s) w = true.
Proof.
  induction w as [|c w IH]; cbn; [reflexivity |].
  rewrite Ascii.eqb_refl. exact IH.
Qed.

Lemma includes_startsWith s w :
  Js.startsWith s w = true -> Js.includes s w = true.
Proof. intros H. destruct s; cbn; rewrite H; reflexivity. Qed.

Lemma includes_app pre w post : Js.includes (pre ++ w ++ post) w = true.
Proof.
  induction pre as [|c pre IH].
  - cbn [append]. apply includes_startsWith. apply startsWith_app.
  - cbn. rewrite IH. apply orb_true_r.
Qed.

Lemma canon_lowerChar a :
  (nat_of_ascii (Js.lowerChar a) <? 128)%nat = true ->
  Regex.canon (Js.lowerChar a) = Regex.canon a.
Proof.
  destruct a as [[] [] [] [] [] [] [] []]; vm_compute;
    solve [reflexivity | discriminate].
Qed.

Lemma matchAt_lit w0 : forall w rest k,
  asciiOnly w0 = true -> Js.toLowerCase w = w0 ->
  Regex.matchAt (Regex.lit w0) (w ++ rest) k = k rest.
Proof.
  induction w0 as [|c w0 IH]; intros w rest k Hascii Hlow.
  - destruct w; [reflexivity | discriminate].
  - destruct w as [|a w]; [discriminate |].
    cbn in Hlow. injection Hlow as Hc Hw.
    cbn in Hascii. apply andb_prop in Hascii as [Hc128 Hascii].
    cbn [Regex.lit Regex.matchAt append Regex.clsMatch].
    rewrite <- Hc in *. rewrite canon_lowerChar by exact Hc128.
    rewrite Ascii.eqb_refl. apply IH; assumption.
Qed.

Lemma test_lit w0 txt :
  asciiOnly w0 = true -> occursIgnoringCase txt w0 ->
  Regex.test (Regex.lit w0) txt = true.
Proof.
  intros Hascii (pre & w & post & -> & Hlow).
  induction pre as [|c pre IH].
  - cbn [append]. destruct (w ++ post) eqn:E; cbn [Regex.test];
      rewrite <- E, (matchAt_lit w0 w post _ Hascii Hlow); reflexivity.
  - cbn [append Regex.test]. rewrite IH.
    destruct (Regex.matchAt _ _ _); reflexivity.
Qed.

Lemma scanPatterns_In table txt pattern flag :
  In (pattern, flag) table -> Regex.test pattern txt = true ->
  In flag (Verifier.scanPatterns table txt).
Proof.
  induction table as [|[p f] table IH]; intros Hin Htest; [contradiction |].
  cbn. destruct Hin as [E | Hin].
  - injection E as -> ->. rewrite Htest. left. reflexivity.
  - destruct (Regex.test p txt); [right |]; apply IH; assumption.
Qed.

Lemma detectRedFlags_scan j flag :
  In flag (Verifier.scanPatterns Verifier.RED_FLAG_PATTERNS (textToCheck j)) ->
  In flag (Verifier.detectRedFlags j).
Proof.
  intros H. unfold Verifier.detectRedFlags. fold (textToCheck j).
  destruct (Verifier.vagueCompany j); destruct (Verifier.unrealisticSalary j);
    repeat (apply in_or_app; left); exact H.
Qed.

Lemma append_empty (m : string) : m ++ "" = m.
Proof. induction m as [|a m IH]; cbn; [reflexivity | rewrite IH; reflexivity]. Qed.

Lemma toLowerCase_app a b :
  Js.toLowerCase (a ++ b) = Js.toLowerCase a ++ Js.toLowerCase b.
Proof. induction a as [|c a IH]; cbn; [reflexivity | rewrite IH; reflexivity]. Qed.

(** ** The rule engine: the signals and the score *)

Lemma startsWith_spec w : forall s,
  Js.startsWith s w = true <-> exists post, s = w ++ post.
Proof.
  induction w as [|b w IH]; intros s; cbn.
  - split; [intros _; exists s; reflexivity | reflexivity].
  - destruct s as [|a s].
    + split; [discriminate | intros [post E]; discriminate].
    + rewrite andb_true_iff, Ascii.eqb_eq, IH. split.
      * intros [-> [post ->]]. exists post. reflexivity.
      * intros [post E]. injection E as -> ->. split; [reflexivity |].
        exists post. reflexivity.
Qed.

(** [includes] finds a word exactly when it occurs. *)
Lemma includes_spec w : forall s,
  Js.includes s w = true <-> exists pre post, s = pre ++ w ++ post.
Proof.
  induction s as [|a s IH].
  - cbn [Js.includes]. rewrite orb_false_r, startsWith_spec. split.
    + intros [post E]. exists "", post. exact E.
    + intros [[|c pre] [post E]]; [exists post; exact E | discriminate].
  - cbn [Js.includes]. rewrite orb_true_iff, startsWith_spec, IH. split.
    + intros [[post E] | [pre [post E]]].
      * exists "", post. exact E.
      * exists (String a pre), post. cbn. rewrite E. reflexivity.
    + intros [[|c pre] [post E]].
      * left. exists post. exact E.
      * right. cbn in E. injection E as _ E. exists pre, post. exact E.
Qed.

Lemma lower_split a : forall s b,
  Js.toLowerCase s = a ++ b ->
  exists a' b', s = a' ++ b' /\ Js.toLowerCase a' = a /\ Js.toLowerCase b' = b.
Proof.
  induction a as [|c a IH]; intros s b E.
  - exists "", s. auto.
  - destruct s as [|x s]; [discriminate |].
    cbn in E. injection E as Hc E.
    destruct (IH s b E) as (a' & b' & -> & Ha & Hb).
    exists (String x a'), b'. cbn. rewrite Ha, Hc. auto.
Qed.

(** The lower-cased text holds a word exactly when the text holds it
    with case ignored. *)
Lemma lower_includes txt w :
  Js.includes (Js.toLowerCase txt) w = true <-> occursIgnoringCase txt w.
Proof.
  rewrite includes_spec. unfold occursIgnoringCase. split.
  - intros (pre & post & E).
    apply lower_split in E as (pre' & rest & -> & Hpre & E).
    apply lower_split in E as (w' & post' & -> & Hw & _).
    exists pre', w', post'. auto.
  - intros (pre & w' & post & -> & <-).
    exists (Js.toLowerCase pre), (Js.toLowerCase post).
    rewrite !toLowerCase_app. reflexivity.
Qed.

Lemma mentions_spec j w :
  Js.includes (Rules.text j) w = true <-> mentions j w.
Proof. apply lower_includes. Qed.

Lemma urgency_spec j : Rules.urgency j = true <-> urgencyLanguage j.
Proof.
  unfold Rules.urgency, urgencyLanguage.
  rewrite orb_true_iff, !mentions_spec. reflexivity.
Qed.

Lemma contradictory_spec j :
  Rules.contradictory j = true <-> contradictoryExperience j.
Proof.
  unfold Rules.contradictory, contradictoryExperience.
  rewrite andb_true_iff, !mentions_spec. reflexivity.
Qed.

Lemma undisclosed_spec j : Rules.undisclosed j = true <-> undisclosedCompany j.
Proof.
  unfold Rules.undisclosed, undisclosedCompany, Js.len.
  rewrite orb_true_iff, Z.ltb_lt, String.eqb_eq. split; intros [H | H]; auto;
    left; lia.
Qed.

Lemma shortDescription_spec j :
  Rules.shortDescription j = true <-> descriptionUnder100 j.
Proof.
  unfold Rules.shortDescription, descriptionUnder100, Js.truthyStr,
    Js.orEmpty, Js.len.
  destruct (description j) as [d|]; cbn.
  - rewrite orb_true_iff, negb_true_iff, negb_false_iff, String.eqb_eq,
      Z.ltb_lt. split.
    + intros [-> | H] d' E; injection E as <-; cbn; lia.
    + intros H. right. specialize (H d eq_refl). lia.
  - split; [intros _ d E; discriminate | reflexivity].
Qed.

Lemma tooGood_spec j : Rules.tooGood j = true <-> tooGoodClaims j.
Proof.
  unfold Rules.tooGood, tooGoodClaims.
  rewrite orb_true_iff, !mentions_spec. reflexivity.
Qed.

Lemma salaryRange_spec j : Rules.salaryRange j = true <-> salaryRangeGiven j.
Proof.
  unfold Rules.salaryRange, salaryRangeGiven, Js.truthyNum.
  destruct (salaryMin j) as [lo|], (salaryMax j) as [hi|]; cbn.
  - rewrite !andb_true_iff, !negb_true_iff, !Z.eqb_neq, Z.ltb_lt. split.
    + intros [[H1 H2] H3]. exists lo, hi. auto.
    + intros (lo' & hi' & E1 & E2 & H1 & H2 & H3).
      injection E1 as <-. injection E2 as <-. auto.
  - rewrite andb_false_r. split; [discriminate |].
    intros (lo' & hi' & _ & E & _). discriminate.
  - split; [discriminate |]. intros (lo' & hi' & E & _). discriminate.
  - split; [discriminate |]. intros (lo' & hi' & E & _). discriminate.
Qed.

Lemma teamStructure_spec j : Rules.teamStructure j = true <-> teamLanguage j.
Proof.
  unfold Rules.teamStructure, teamLanguage.
  rewrite !orb_true_iff, !mentions_spec. tauto.
Qed.

Lemma atsUrl_spec j : Rules.atsUrl j = true <-> atsWordInUrl j.
Proof.
  unfold Rules.atsUrl, atsWordInUrl, urlHolds.
  rewrite !orb_true_iff, !includes_spec. tauto.
Qed.

Lemma longDescription_spec j :
  Rules.longDescription j = true <-> descriptionOver500 j.
Proof.
  unfold Rules.longDescription, descriptionOver500, Js.truthyStr,
    Js.orEmpty, Js.len.
  destruct (description j) as [d|]; cbn.
  - rewrite andb_true_iff, Z.ltb_lt. split.
    + intros [_ H]. exists d. split; [reflexivity | lia].
    + intros (d' & E & H). injection E as <-. split; [| lia].
      destruct d; [cbn in H; lia | reflexivity].
  - split; [discriminate | intros (d & E & _); discriminate].
Qed.

(** A signal decided by the test [b] adjusts the score by its weight
    times 0 or 1. *)
Lemma adjusts_test (P : Prop) (b : bool) (w : Z) :
  (b = true <-> P) -> adjusts P w (w * b2z b).
Proof.
  intros H. destruct b; cbn [b2z].
  - rewrite Z.mul_1_r. apply adjusts_present. apply H. reflexivity.
  - rewrite Z.mul_0_r. apply adjusts_absent. intros HP.
    apply H in HP. discriminate.
Qed.

Lemma absent_test (P : Prop) (b : bool) :
  (b = true <-> P) -> ~ P -> b = false.
Proof. intros H HP. destruct b; [exfalso; tauto | reflexivity]. Qed.

(** C4 as stated fails: the apply URL of [ashbyJob] is on a domain of
    the allow-list of applicant-tracking systems and the posting shows
    no other listed signal, yet it scores 70 and not 80; the apply URL
    of [cleverJob] is on no such domain, no signal is listed for it, and
    it scores 80. *)
Lemma C4_known_ats_counterexample :
  (onAtsAllowList ashbyJob /\
   ~ urgencyLanguage ashbyJob /\ ~ contradictoryExperience ashbyJob /\
   ~ undisclosedCompany ashbyJob /\ ~ descriptionUnder100 ashbyJob /\
   ~ tooGoodClaims ashbyJob /\ ~ salaryRangeGiven ashbyJob /\
   ~ teamLanguage ashbyJob /\ ~ descriptionOver500 ashbyJob /\
   legitimacyScore (Rules.analyzeWithRules ashbyJob) <> 70 + 10) /\
  (~ onAtsAllowList cleverJob /\
   ~ urgencyLanguage cleverJob /\ ~ contradictoryExperience cleverJob /\
   ~ undisclosedCompany cleverJob /\ ~ descriptionUnder100 cleverJob /\
   ~ tooGoodClaims cleverJob /\ ~ salaryRangeGiven cleverJob /\
   ~ teamLanguage cleverJob /\ ~ descriptionOver500 cleverJob /\
   legitimacyScore (Rules.analyzeWithRules cleverJob) <> 70).
Proof.
  split.
  - split.
    { exists "ashbyhq.com". split; [cbn; tauto |].
      exists "https://jobs.", "/acme/1". reflexivity. }
    split; [intros H; apply urgency_spec in H; discriminate |].
    split; [intros H; apply contradictory_spec in H; discriminate |].
    split; [intros H; apply undisclosed_spec in H; discriminate |].
    split; [intros H; apply shortDescription_spec in H; discriminate |].
    split; [intros H; apply tooGood_spec in H; discriminate |].
    split; [intros H; apply salaryRange_spec in H; discriminate |].
    split; [intros H; apply teamStructure_spec in H; discriminate |].
    split; [intros H; apply longDescription_spec in H; discriminate |].
    vm_compute. discriminate.
  - split.
    { intros (d & Hd & Hurl). unfold urlHolds in Hurl.
      apply includes_spec in Hurl.
      cbn in Hd. repeat (destruct Hd as [<- | Hd]; [discriminate Hurl |]).
      contradiction. }
    split; [intros H; apply urgency_spec in H; discriminate |].
    split; [intros H; apply contradictory_spec in H; discriminate |].
    split; [intros H; apply undisclosed_spec in H; discriminate |].
    split; [intros H; apply shortDescription_spec in H; discriminate |].
    split; [intros H; apply tooGood_spec in H; discriminate |].
    split; [intros H; apply salaryRange_spec in H; discriminate |].
    split; [intros H; apply teamStructure_spec in H; discriminate |].
    split; [intros H; apply longDescription_spec in H; discriminate |].
    vm_compute. discriminate.
Qed.

(** C4, amended. The rule-based fallback scorer returns 70 plus the
    adjustment of every signal present, clamped to [0,100], the signals
    being: "urgently" or "immediate" in the text (-15); "no experience"
    and "senior" both in the text (-20); a company name of fewer than
    three characters or equal to "confidential", case ignored (-15); a
    description that is missing or under 100 characters (-10);
    "guaranteed" or "unlimited earning" in the text (-25); both salary
    bounds given, not zero, the maximum above the minimum (+10); "team",
    "report to" or "manager" in the text (+5); "greenhouse", "lever" or
    "workday" anywhere in the apply URL (+10); a description over 500
    characters (+5); the text is the title, a space and the description,
    case ignored.  [isLikelyGhostJob] holds iff the score is below 50;
    the recommendation is APPROVE iff the score is at least 70, REVIEW
    iff it is in [50,70), REJECT iff it is below 50; a posting with no
    signal and no salary scores exactly 70.  The scorer is a total
    function: it returns a result on every posting. *)
Theorem C4_rule_engine_score (j : ScrapedJob) :
  let r := Rules.analyzeWithRules j in
  let s := legitimacyScore r in
  (exists u c n d g p t a l,
     adjusts (urgencyLanguage j) (-15) u /\
     adjusts (contradictoryExperience j) (-20) c /\
     adjusts (undisclosedCompany j) (-15) n /\
     adjusts (descriptionUnder100 j) (-10) d /\
     adjusts (tooGoodClaims j) (-25) g /\
     adjusts (salaryRangeGiven j) 10 p /\
     adjusts (teamLanguage j) 5 t /\
     adjusts (atsWordInUrl j) 10 a /\
     adjusts (descriptionOver500 j) 5 l /\
     s = Z.max 0 (Z.min 100 (70 + u + c + n + d + g + p + t + a + l))) /\
  0 <= s <= 100 /\
  (isLikelyGhostJob r = true <-> s < 50) /\
  (recommendation r = APPROVE <-> 70 <= s) /\
  (recommendation r = REVIEW <-> 50 <= s < 70) /\
  (recommendation r = REJECT <-> s < 50) /\
  (~ urgencyLanguage j -> ~ contradictoryExperience j ->
   ~ undisclosedCompany j -> ~ descriptionUnder100 j -> ~ tooGoodClaims j ->
   ~ teamLanguage j -> ~ atsWordInUrl j -> ~ descriptionOver500 j ->
   salaryMin j = None -> salaryMax j = None -> s = 70).
Proof.
  cbn zeta. unfold Rules.analyzeWithRules. cbn [legitimacyScore
    isLikelyGhostJob recommendation]. rewrite score_accumulate.
  fold (Rules.cap (70 + adjustments j)).
  pose proof (cap_bounds (70 + adjustments j)) as Hb.
  pose proof (recommend_cases (Rules.cap (70 + adjustments j))) as [Ha [Hr Hj]].
  split.
  { exists (-15 * b2z (Rules.urgency j)), (-20 * b2z (Rules.contradictory j)),
      (-15 * b2z (Rules.undisclosed j)), (-10 * b2z (Rules.shortDescription j)),
      (-25 * b2z (Rules.tooGood j)), (10 * b2z (Rules.salaryRange j)),
      (5 * b2z (Rules.teamStructure j)), (10 * b2z (Rules.atsUrl j)),
      (5 * b2z (Rules.longDescription j)).
    split; [apply adjusts_test, urgency_spec |].
    split; [apply adjusts_test, contradictory_spec |].
    split; [apply adjusts_test, undisclosed_spec |].
    split; [apply adjusts_test, shortDescription_spec |].
    split; [apply adjusts_test, tooGood_spec |].
    split; [apply adjusts_test, salaryRange_spec |].
    split; [apply adjusts_test, teamStructure_spec |].
    split; [apply adjusts_test, atsUrl_spec |].
    split; [apply adjusts_test, longDescription_spec |].
    unfold Rules.cap, adjustments. f_equal. f_equal. lia. }
  split; [exact Hb |].
  split; [apply Z.ltb_lt |].
  split; [exact Ha |].
  split; [exact Hr |].
  split; [exact Hj |].
  intros H1 H2 H3 H4 H5 H6 H7 H8 Hmin Hmax.
  unfold adjustments.
  rewrite (absent_test _ _ (urgency_spec j) H1),
    (absent_test _ _ (contradictory_spec j) H2),
    (absent_test _ _ (undisclosed_spec j) H3),
    (absent_test _ _ (shortDescription_spec j) H4),
    (absent_test _ _ (tooGood_spec j) H5),
    (absent_test _ _ (teamStructure_spec j) H6),
    (absent_test _ _ (atsUrl_spec j) H7),
    (absent_test _ _ (longDescription_spec j) H8).
  unfold Rules.salaryRange. rewrite Hmin, Hmax. reflexivity.
Qed.

(** The posting [pushyJob] mentions "immediate" and "guaranteed", has a
    description of 36 characters and an apply URL with "greenhouse" in
    it: it scores 70 - 15 - 10 - 25 + 10 = 30 and is rejected. *)
Lemma C4_rule_engine_score_witness :
  legitimacyScore (Rules.analyzeWithRules pushyJob) = 30 /\
  recommendation (Rules.analyzeWithRules pushyJob) = REJECT.
Proof.
  destruct (C4_rule_engine_score pushyJob)
    as ((u & c & n & d & g & p & t & a & l &
         Hu & Hc & Hn & Hd & Hg & Hp & Ht & Ha & Hl & Hs) &
        _ & _ & _ & _ & Hrej & _).
  cbn zeta in Hs, Hrej.
  assert (Hu' : u = -15).
  { inversion Hu as [|Habs]; [reflexivity |]. exfalso. apply Habs.
    apply urgency_spec. reflexivity. }
  assert (Hc' : c = 0).
  { inversion Hc as [Hpres|]; [| reflexivity]. exfalso.
    apply contradictory_spec in Hpres. discriminate. }
  assert (Hn' : n = 0).
  { inversion Hn as [Hpres|]; [| reflexivity]. exfalso.
    apply undisclosed_spec in Hpres. discriminate. }
  assert (Hd' : d = -10).
  { inversion Hd as [|Habs]; [reflexivity |]. exfalso. apply Habs.
    apply shortDescription_spec. reflexivity. }
  assert (Hg' : g = -25).
  { inversion Hg as [|Habs]; [reflexivity |]. exfalso. apply Habs.
    apply tooGood_spec. reflexivity. }
  assert (Hp' : p = 0).
  { inversion Hp as [Hpres|]; [| reflexivity]. exfalso.
    apply salaryRange_spec in Hpres. discriminate. }
  assert (Ht' : t = 0).
  { inversion Ht as [Hpres|]; [| reflexivity]. exfalso.
    apply teamStructure_spec in Hpres. discriminate. }
  assert (Ha' : a = 10).
  { inversion Ha as [|Habs]; [reflexivity |]. exfalso. apply Habs.
    apply atsUrl_spec. reflexivity. }
  assert (Hl' : l = 0).
  { inversion Hl as [Hpres|]; [| reflexivity]. exfalso.
    apply longDescription_spec in Hpres. discriminate. }
  subst. split; [exact Hs |]. apply Hrej. rewrite Hs. reflexivity.
Defined.

(** ** The red-flag scan *)

(** C8. The red-flag list is a function of the title, the description,
    the minimum salary and the company name of the posting.  A text
    (title, a space, the description) in which "guaranteed income" occurs,
    case ignored, yields the flag of that pattern; a minimum salary above
    200000 yields the unrealistic-salary flag; a company name of fewer
    than three characters, or equal to "company" or "confidential" when
    lower-cased, yields the vague-company flag. *)
Theorem C8_red_flag_scan (j : ScrapedJob) :
  (forall j' : ScrapedJob,
      title j' = title j -> description j' = description j ->
      salaryMin j' = salaryMin j -> company j' = company j ->
      Verifier.detectRedFlags j' = Verifier.detectRedFlags j) /\
  (occursIgnoringCase (textToCheck j) "guaranteed income" ->
   In "Guaranteed income claims" (Verifier.detectRedFlags j)) /\
  (forall v, salaryMin j = Some v -> 200000 < v ->
   In Verifier.SALARY_FLAG (Verifier.detectRedFlags j)) /\
  ((String.length (company j) < 3)%nat \/
   Js.toLowerCase (company j) = "company" \/
   Js.toLowerCase (company j) = "confidential" ->
   In Verifier.COMPANY_FLAG (Verifier.detectRedFlags j)).
Proof.
  split; [| split; [| split]].
  - intros j' Ht Hd Hs Hc.
    unfold Verifier.detectRedFlags, Verifier.unrealisticSalary,
      Verifier.vagueCompany. rewrite Ht, Hd, Hs, Hc. reflexivity.
  - intros Hocc. apply detectRedFlags_scan.
    apply scanPatterns_In with (pattern := Regex.lit "guaranteed income").
    + cbn. tauto.
    + apply test_lit; [reflexivity | exact Hocc].
  - intros v Hv Hlt. unfold Verifier.detectRedFlags.
    assert (Verifier.unrealisticSalary j = true) as ->.
    { unfold Verifier.unrealisticSalary, Js.truthyNum. rewrite Hv.
      apply andb_true_intro. split.
      - apply negb_true_iff, Z.eqb_neq. lia.
      - apply Z.ltb_lt. exact Hlt. }
    destruct (Verifier.vagueCompany j).
    + apply in_or_app. left. apply in_or_app. right. left. reflexivity.
    + apply in_or_app. right. left. reflexivity.
  - intros Hc. unfold Verifier.detectRedFlags.
    assert (Verifier.vagueCompany j = true) as ->.
    { unfold Verifier.vagueCompany, Js.len.
      destruct Hc as [Hlen | [Hco | Hcf]].
      - assert ((Z.of_nat (String.length (company j)) <? 3) = true) as ->
          by (apply Z.ltb_lt; lia). reflexivity.
      - rewrite Hco. cbn. rewrite orb_true_r. reflexivity.
      - rewrite Hcf. cbn. apply orb_true_r. }
    apply in_or_app. right. left. reflexivity.
Qed.

(** The posting [scamJob] carries the three flags. *)
Lemma C8_red_flag_scan_witness :
  In "Guaranteed income claims" (Verifier.detectRedFlags scamJob) /\
  In Verifier.SALARY_FLAG (Verifier.detectRedFlags scamJob) /\
  In Verifier.COMPANY_FLAG (Verifier.detectRedFlags scamJob).
Proof.
  destruct (C8_red_flag_scan scamJob) as [_ [Hg [Hs Hc]]].
  split; [| split].
  - apply Hg. exists "Sales Associate Earn a ", "Guaranteed Income",
      " from home.". split; reflexivity.
  - apply (Hs 250000); [reflexivity | lia].
  - apply Hc. right. right. reflexivity.
Defined.

(** ** The public listing *)

Lemma status_eqb_eq a b : VerificationStatus_eqb a b = true <-> a = b.
Proof. destruct a, b; cbn; split; intros H; try reflexivity; discriminate. Qed.

(** C5 as stated fails: a row verified exactly 48 hours ago is selected
    by the query, although its age is not below 48 hours. *)
Lemma C5_boundary_counterexample :
  ~ (Listing.selected someNoon boundaryRow = true <->
     verification_status boundaryRow = VERIFIED /\
     exists t, last_verified_at boundaryRow = Some t /\
               Listing.age someNoon t < Listing.WINDOW_MS).
Proof.
  intros [H _]. destruct (H eq_refl) as [_ [t [Ht Hage]]].
  injection Ht as <-. vm_compute in Hage. discriminate.
Qed.

(** C5, amended. A row is selected by the public listing query if and
    only if its status is VERIFIED and its last-verified timestamp is at
    most 48 hours old: an age of exactly 48 hours is included, a larger
    one and a missing timestamp are excluded. *)
Theorem C5_listing_eligibility (now : Z) (r : JobRow) :
  Listing.selected now r = true <->
  verification_status r = VERIFIED /\
  exists t, last_verified_at r = Some t /\
            Listing.age now t <= Listing.WINDOW_MS.
Proof.
  unfold Listing.selected, Listing.fortyEightHoursAgo, Listing.age.
  rewrite andb_true_iff, status_eqb_eq.
  destruct (last_verified_at r) as [t|].
  - rewrite Z.leb_le. split.
    + intros [Hs Ht]. split; [exact Hs |]. exists t. split; [reflexivity | lia].
    + intros [Hs [t' [E Ht]]]. injection E as <-. split; [exact Hs | lia].
  - split.
    + intros [_ H]. discriminate.
    + intros [_ [t [E _]]]. discriminate.
Qed.

(** ** Aggregation *)

Lemma setHas_In seen k : Scraper.setHas seen k = true <-> In k seen.
Proof.
  unfold Scraper.setHas. rewrite existsb_exists. split.
  - intros [x [Hin E]]. apply String.eqb_eq in E. subst. exact Hin.
  - intros Hin. exists k. split; [exact Hin | apply String.eqb_refl].
Qed.

Lemma setHas_false seen k : Scraper.setHas seen k = false <-> ~ In k seen.
Proof.
  rewrite <- setHas_In. destruct (Scraper.setHas seen k); split; intros H;
    try reflexivity; try discriminate; try (intros E; discriminate).
  exfalso. apply H. reflexivity.
Qed.

(** A posting whose key is already in the set leaves the rest of the
    filter as it was. *)
Lemma filterUnseen_skip l2 : forall seen b l3,
  In (Scraper.dedupKey b) seen ->
  Scraper.filterUnseen seen (l2 ++ b :: l3) =
  Scraper.filterUnseen seen (l2 ++ l3).
Proof.
  induction l2 as [|x l2 IH]; intros seen b l3 Hin; cbn.
  - apply setHas_In in Hin. rewrite Hin. reflexivity.
  - destruct (Scraper.setHas seen (Scraper.dedupKey x)).
    + apply IH. exact Hin.
    + f_equal. apply IH. right. exact Hin.
Qed.

Lemma filterUnseen_later_duplicate l1 : forall seen a l2 b l3,
  Scraper.dedupKey a = Scraper.dedupKey b ->
  Scraper.filterUnseen seen (l1 ++ a :: l2 ++ b :: l3) =
  Scraper.filterUnseen seen (l1 ++ a :: l2 ++ l3).
Proof.
  induction l1 as [|x l1 IH]; intros seen a l2 b l3 Hkey; cbn.
  - destruct (Scraper.setHas seen (Scraper.dedupKey a)) eqn:Hseen.
    + apply filterUnseen_skip. rewrite <- Hkey. apply setHas_In. exact Hseen.
    + f_equal. apply filterUnseen_skip. left. exact Hkey.
  - destruct (Scraper.setHas seen (Scraper.dedupKey x)).
    + apply IH. exact Hkey.
    + f_equal. apply IH. exact Hkey.
Qed.

Lemma filterUnseen_keys l : forall seen,
  NoDup (map Scraper.dedupKey (Scraper.filterUnseen seen l)) /\
  (forall j, In j (Scraper.filterUnseen seen l) ->
             ~ In (Scraper.dedupKey j) seen).
Proof.
  induction l as [|x l IH]; intros seen; cbn.
  - split; [constructor | intros j []].
  - destruct (Scraper.setHas seen (Scraper.dedupKey x)) eqn:Hseen.
    + apply IH.
    + destruct (IH (Scraper.setAdd seen (Scraper.dedupKey x))) as [Hnd Hout].
      apply setHas_false in Hseen. split.
      * cbn. constructor; [| exact Hnd].
        intros Hin. apply in_map_iff in Hin as [j [Hk Hj]].
        apply (Hout j Hj). left. symmetry. exact Hk.
      * intros j [<- | Hj]; [exact Hseen |].
        intros Hin. apply (Hout j Hj). right. exact Hin.
Qed.












(** ** The stages of a run *)

Lemma count_split {A} (f : A -> bool) (l : list A) :
  Pipeline.count l =
  Pipeline.count (filter f l) +
  Pipeline.count (filter (fun x => negb (f x)) l).
Proof. unfold Pipeline.count. pose proof (filter_length f l). lia. Qed.

Lemma length_zero_nil {A} (l : list A) :
  (List.length l =? 0)%nat = true -> l = [].
Proof. destruct l; [reflexivity | discriminate]. Qed.

Lemma option_eqb_eq {A} (eqb : A -> A -> bool) :
  (forall x y, eqb x y = true <-> x = y) ->
  forall a b, option_eqb eqb a b = true <-> a = b.
Proof.
  intros H [x|] [y|]; cbn; split; intros E; try discriminate; try reflexivity.
  - f_equal. apply H. exact E.
  - injection E as ->. apply H. reflexivity.
Qed.

Lemma LocationType_eqb_eq a b : LocationType_eqb a b = true <-> a = b.
Proof. destruct a, b; cbn; split; intros H; try reflexivity; discriminate. Qed.

Lemma ScrapedJob_eqb_eq a b : ScrapedJob_eqb a b = true <-> a = b.
Proof.
  unfold ScrapedJob_eqb. rewrite !andb_true_iff, !String.eqb_eq,
    LocationType_eqb_eq, !(option_eqb_eq Z.eqb Z.eqb_eq),
    (option_eqb_eq String.eqb String.eqb_eq).
  destruct a, b; cbn. split.
  - intros [[[[[[[[[-> ->] ->] ->] ->] ->] ->] ->] ->] ->]. reflexivity.
  - intros E. injection E as -> -> -> -> -> -> -> -> -> ->. tauto.
Qed.

Lemma mapGet_tabulate {V} (f : ScrapedJob -> V) jobs j :
  In j jobs -> mapGet (map (fun x => (x, f x)) jobs) j = Some (f j).
Proof.
  induction jobs as [|x jobs IH]; intros Hin; [contradiction |].
  cbn. destruct (ScrapedJob_eqb x j) eqn:E.
  - apply ScrapedJob_eqb_eq in E. subst. reflexivity.
  - destruct Hin as [-> | Hin]; [| exact (IH Hin)].
    assert (ScrapedJob_eqb j j = true) as E' by (apply ScrapedJob_eqb_eq; reflexivity).
    congruence.
Qed.

(** With a positive batch size the batches cover the postings, in
    order. *)
Lemma runBatches_map {V} (f : ScrapedJob -> V) concurrency :
  (0 < concurrency)%nat ->
  forall fuel jobs, (List.length jobs <= fuel)%nat ->
  runBatches fuel concurrency f jobs = map (fun job => (job, f job)) jobs.
Proof.
  intros Hc. induction fuel as [|fuel IH]; intros jobs Hlen.
  - destruct jobs; [reflexivity | cbn in Hlen; lia].
  - destruct jobs as [|x jobs]; [reflexivity |].
    cbn [runBatches]. rewrite IH.
    + rewrite <- map_app, firstn_skipn. reflexivity.
    + rewrite length_skipn. cbn [List.length] in *. lia.
Qed.

(** The verification result the orchestrator finds for a new posting. *)
Lemma verification_lookup env newJobs j :
  In j newJobs ->
  mapGet (Pipeline.verificationResults env newJobs) j =
  match verifyStageThrew env with
  | None => Some (Verifier.verifyJob (net env) j)
  | Some _ => None
  end.
Proof.
  intros Hin. unfold Pipeline.verificationResults, verifyJobs.
  destruct (verifyStageThrew env); [reflexivity |].
  rewrite runBatches_map by lia.
  apply mapGet_tabulate. exact Hin.
Qed.

(** The assessment the orchestrator uses for a verified posting. *)
Lemma analysis_lookup env validJobs j :
  In j validJobs ->
  mapGet (Pipeline.aiResults env validJobs) j =
  match analysisStageThrew env with
  | None => Some (analyzeJobWithAI env j)
  | Some _ => None
  end.
Proof.
  intros Hin. unfold Pipeline.aiResults, analyzeJobs.
  destruct (analysisStageThrew env); [reflexivity |].
  rewrite runBatches_map by lia.
  apply (mapGet_tabulate (analyzeJobWithAI env)). exact Hin.
Qed.

(** What the filter after the verification stage keeps. *)
Lemma validJobs_spec env st j :
  In j (Pipeline.validJobsOf env st) <->
  In j (Pipeline.newJobsOf env st) /\
  verifyStageThrew env = None /\
  urlAccessible (Verifier.verifyJob (net env) j) = true /\
  hasRedFlags (Verifier.verifyJob (net env) j) = false.
Proof.
  unfold Pipeline.validJobsOf. rewrite filter_In. split.
  - intros [Hin Hp]. rewrite (verification_lookup env _ j Hin) in Hp.
    destruct (verifyStageThrew env); [discriminate |].
    cbn in Hp. apply andb_prop in Hp as [Ha Hf].
    apply negb_true_iff in Hf. tauto.
  - intros (Hin & Hs & Ha & Hf). split; [exact Hin |].
    rewrite (verification_lookup env _ j Hin), Hs. cbn.
    rewrite Ha, Hf. reflexivity.
Qed.

(** ** Ingestion: the filter after the verification stage *)

(** C1 at the posting [ownSiteJob]: its verdict is not valid, because
    the domain check fails, and the run keeps it, scores it and inserts
    it as VERIFIED. *)
Theorem C1_domain_check_ignored :
  let verdict := Verifier.verifyJob (net ownSiteEnv) ownSiteJob in
  let run := Pipeline.runPipeline ownSiteEnv [] in
  urlAccessible verdict = true /\ hasRedFlags verdict = false /\
  companyDomainValid verdict = false /\ isValid verdict = false /\
  Pipeline.validJobsOf ownSiteEnv [] = [ownSiteJob] /\
  verifiedCount (fst run) = 1 /\ addedCount (fst run) = 1 /\
  map verification_status (snd run) = [VERIFIED].
Proof. vm_compute. repeat split; reflexivity. Qed.

(** ** Ingestion: the insert loop and the table *)

Lemma insertOne_table_grows env s x r :
  In r (Pipeline.table s) -> In r (Pipeline.table (Pipeline.insertOne env s x)).
Proof.
  intros Hin. unfold Pipeline.insertOne.
  destruct (verification x); [| exact Hin].
  destruct (insertOutcome env (job x)); cbn; try exact Hin.
  unfold Storage.insert. apply in_or_app. left. exact Hin.
Qed.

Lemma insertAll_table_grows env xs : forall s r,
  In r (Pipeline.table s) -> In r (Pipeline.table (Pipeline.insertAll env s xs)).
Proof.
  unfold Pipeline.insertAll.
  induction xs as [|x xs IH]; intros s r Hin; cbn; [exact Hin |].
  apply IH. apply insertOne_table_grows. exact Hin.
Qed.

(** An inserted posting leaves a row with its apply URL. *)
Lemma insertAll_row env xs : forall s x v,
  In x xs -> verification x = Some v ->
  insertOutcome env (job x) = Inserted ->
  exists r, In r (Pipeline.table (Pipeline.insertAll env s xs)) /\
            apply_url r = applyUrl (job x) /\
            exists k, cols r = Pipeline.payload env k (job x) (aiAnalysis x) v.
Proof.
  unfold Pipeline.insertAll.
  induction xs as [|y xs IH]; intros s x v Hin Hv Hout; [contradiction |].
  cbn. destruct Hin as [-> | Hin]; [| apply (IH _ x v Hin Hv Hout)].
  set (row := mkRow (Storage.freshId (Pipeline.table s))
                (Pipeline.payload env (Pipeline.ticks s) (job x)
                   (aiAnalysis x) v)).
  exists row. split; [| split; [reflexivity | exists (Pipeline.ticks s); reflexivity]].
  apply (insertAll_table_grows env xs). unfold Pipeline.insertOne.
  rewrite Hv, Hout. cbn. unfold Storage.insert.
  apply in_or_app. right. left. reflexivity.
Qed.

(** Postings the storage does not take add nothing. *)
Lemma insertAll_none_added env xs : forall s,
  (forall x, In x xs -> insertOutcome env (job x) <> Inserted) ->
  Pipeline.added (Pipeline.insertAll env s xs) = Pipeline.added s.
Proof.
  unfold Pipeline.insertAll.
  induction xs as [|x xs IH]; intros s Hnone; cbn; [reflexivity |].
  rewrite IH by (intros y Hy; apply Hnone; right; exact Hy).
  unfold Pipeline.insertOne. destruct (verification x); [| reflexivity].
  destruct (insertOutcome env (job x)) eqn:E; try reflexivity.
  exfalso. apply (Hnone x); [left; reflexivity | exact E].
Qed.

(** The table and the counter of additions of a run are those of the
    insert loop over the approved postings, on every path of the run. *)
Lemma runPipeline_loop env st :
  exists errs,
    let s := Pipeline.insertAll env (Pipeline.mkLoop st 1 0 errs)
               (Pipeline.approvedJobsOf env st) in
    snd (Pipeline.runPipeline env st) = Pipeline.table s /\
    addedCount (fst (Pipeline.runPipeline env st)) = Pipeline.added s.
Proof.
  unfold Pipeline.runPipeline.
  destruct (List.length (Pipeline.jobsOf env) =? 0)%nat eqn:Hjobs.
  { exists []. unfold Pipeline.approvedJobsOf, Pipeline.combined,
      Pipeline.validJobsOf, Pipeline.newJobsOf.
    rewrite (length_zero_nil _ Hjobs). cbn. split; reflexivity. }
  destruct (List.length (Pipeline.newJobsOf env st) =? 0)%nat eqn:Hnew.
  { exists []. unfold Pipeline.approvedJobsOf, Pipeline.combined,
      Pipeline.validJobsOf.
    rewrite (length_zero_nil _ Hnew). cbn. split; reflexivity. }
  destruct (List.length (Pipeline.validJobsOf env st) =? 0)%nat eqn:Hvalid.
  { exists []. unfold Pipeline.approvedJobsOf, Pipeline.combined.
    rewrite (length_zero_nil _ Hvalid). cbn. split; reflexivity. }
  eexists. cbn. split; reflexivity.
Qed.

(** ** Ingestion: the existing-URL check *)

Lemma existing_urls_spec env st u :
  existingRead env = ReadRows ->
  (In u (Pipeline.loadExistingUrls env st) <-> urlInStorage st u).
Proof.
  intros Hread. unfold Pipeline.loadExistingUrls, urlInStorage.
  rewrite Hread, in_flat_map. split.
  - intros [r [Hr [E | [E | []]]]]; exists r; split; auto.
  - intros [r [Hr [E | E]]]; exists r; (split; [exact Hr |]); cbn; auto.
Qed.

Lemma isNew_spec urls j :
  Pipeline.isNew urls j = true <->
  ~ In (applyUrl j) urls /\ ~ In (sourceUrl j) urls.
Proof.
  unfold Pipeline.isNew.
  rewrite andb_true_iff, !negb_true_iff, !setHas_false. reflexivity.
Qed.

Lemma newJobs_spec env st j :
  In j (Pipeline.newJobsOf env st) <->
  In j (Pipeline.jobsOf env) /\
  Pipeline.isNew (Pipeline.loadExistingUrls env st) j = true.
Proof. unfold Pipeline.newJobsOf. apply filter_In. Qed.

Lemma analysis_used env st j :
  In j (Pipeline.validJobsOf env st) ->
  Pipeline.analysisOrDefault
    (mapGet (Pipeline.aiResults env (Pipeline.validJobsOf env st)) j) =
  assessmentOf env j.
Proof.
  intros Hin. rewrite (analysis_lookup env _ j Hin). unfold assessmentOf.
  destruct (analysisStageThrew env); reflexivity.
Qed.

(** The approved postings: the verified ones whose assessment is
    accepted, each with its verification result and its assessment. *)
Lemma approved_spec env st x :
  In x (Pipeline.approvedJobsOf env st) <->
  exists j, In j (Pipeline.validJobsOf env st) /\
            x = mkJWA j (Some (Verifier.verifyJob (net env) j))
                      (assessmentOf env j) /\
            Pipeline.accepted (assessmentOf env j) = true.
Proof.
  unfold Pipeline.approvedJobsOf, Pipeline.combined.
  rewrite filter_In, in_map_iff. split.
  - intros [[j [<- Hj]] Hacc]. cbn in Hacc.
    rewrite (analysis_used env st j Hj) in *.
    exists j. split; [exact Hj |]. split; [| exact Hacc].
    pose proof Hj as Hv. apply validJobs_spec in Hv as (Hnew & Hs & _).
    rewrite (verification_lookup env _ j Hnew), Hs. reflexivity.
  - intros [j (Hj & -> & Hacc)]. split; [| exact Hacc].
    exists j. split; [| exact Hj].
    rewrite (analysis_used env st j Hj).
    pose proof Hj as Hv. apply validJobs_spec in Hv as (Hnew & Hs & _).
    rewrite (verification_lookup env _ j Hnew), Hs. reflexivity.
Qed.

(** After a run whose URL query was answered, a posting that is still
    new was not taken by the storage. *)
Lemma still_new_not_inserted env st j :
  existingRead env = ReadRows ->
  In j (Pipeline.validJobsOf env (snd (Pipeline.runPipeline env st))) ->
  Pipeline.accepted (assessmentOf env j) = true ->
  insertOutcome env j <> Inserted.
Proof.
  intros Hread Hvalid2 Hacc Hins.
  destruct (runPipeline_loop env st) as [errs [Htable _]]. cbn zeta in Htable.
  apply validJobs_spec in Hvalid2 as (Hnew2 & Hs & Ha & Hf).
  apply newJobs_spec in Hnew2 as [Hjobs Hnew2].
  apply isNew_spec in Hnew2 as [Happly2 Hsource2].
  assert (Hnew1 : In j (Pipeline.newJobsOf env st)).
  { apply newJobs_spec. split; [exact Hjobs |]. apply isNew_spec.
    split; intros Hin; [apply Happly2 | apply Hsource2];
      apply (existing_urls_spec env _ _ Hread);
      apply (existing_urls_spec env _ _ Hread) in Hin;
      destruct Hin as [r [Hr E]]; exists r; (split; [| exact E]);
      rewrite Htable; apply insertAll_table_grows; exact Hr. }
  assert (Hvalid1 : In j (Pipeline.validJobsOf env st))
    by (apply validJobs_spec; tauto).
  set (x := mkJWA j (Some (Verifier.verifyJob (net env) j)) (assessmentOf env j)).
  assert (Happ : In x (Pipeline.approvedJobsOf env st))
    by (apply approved_spec; exists j; tauto).
  destruct (insertAll_row env _ (Pipeline.mkLoop st 1 0 errs) x _ Happ
              eq_refl Hins) as [r (Hr & Hurl & _)].
  apply Happly2. apply (existing_urls_spec env _ _ Hread).
  exists r. split; [rewrite Htable; exact Hr | left; symmetry; exact Hurl].
Qed.

Lemma storedUrl_spec st u : storedUrl st u = true <-> urlInStorage st u.
Proof.
  unfold storedUrl, urlInStorage. rewrite existsb_exists.
  split; intros [r [Hr H]]; exists r; (split; [exact Hr |]).
  - apply orb_prop in H as [H | H]; apply String.eqb_eq in H; auto.
  - apply orb_true_iff. rewrite !String.eqb_eq. exact H.
Qed.

(** With an answered URL query the check keeps exactly the postings none
    of whose URLs is stored. *)
Lemma isNew_stored env st j :
  existingRead env = ReadRows ->
  Pipeline.isNew (Pipeline.loadExistingUrls env st) j =
  negb (alreadyStored st j).
Proof.
  intros Hread. apply Bool.eq_iff_eq_true.
  rewrite isNew_spec, negb_true_iff. unfold alreadyStored.
  rewrite orb_false_iff, <- !not_true_iff_false, !storedUrl_spec,
    !(existing_urls_spec env st _ Hread). reflexivity.
Qed.

(** With an unanswered URL query every aggregated posting is new. *)
Lemma unanswered_all_new env st :
  existingRead env <> ReadRows ->
  Pipeline.newJobsOf env st = Pipeline.jobsOf env.
Proof.
  intros Hread. unfold Pipeline.newJobsOf, Pipeline.loadExistingUrls.
  destruct (existingRead env); [contradiction Hread; reflexivity | |];
    (induction (Pipeline.jobsOf env) as [|x l IH]; [reflexivity |];
     cbn; rewrite IH; reflexivity).
Qed.

(** The counter of skipped postings on every path of a run. *)
Lemma skipped_count env st :
  skippedCount (fst (Pipeline.runPipeline env st)) =
  Pipeline.count (Pipeline.jobsOf env) -
  Pipeline.count (Pipeline.newJobsOf env st).
Proof.
  unfold Pipeline.runPipeline.
  destruct (List.length (Pipeline.jobsOf env) =? 0)%nat eqn:Hjobs.
  { unfold Pipeline.newJobsOf. rewrite (length_zero_nil _ Hjobs).
    reflexivity. }
  destruct (List.length (Pipeline.newJobsOf env st) =? 0)%nat;
    [reflexivity |].
  destruct (List.length (Pipeline.validJobsOf env st) =? 0)%nat;
    reflexivity.
Qed.

(** C6 as stated fails: in a world whose storage returns no data for
    the URL query, the Acme posting is added by a first run, its URL is
    then in the table, and a second run on that table neither removes it
    nor skips it, and adds it again. *)
Lemma C6_unanswered_query_counterexample :
  let first := Pipeline.runPipeline silentStoreEnv [] in
  let second := Pipeline.runPipeline silentStoreEnv (snd first) in
  addedCount (fst first) = 1 /\
  urlInStorage (snd first) (applyUrl acmeJob) /\
  In acmeJob (Pipeline.newJobsOf silentStoreEnv (snd first)) /\
  skippedCount (fst second) = 0 /\
  addedCount (fst second) <> 0.
Proof.
  cbn zeta. split; [vm_compute; reflexivity |].
  split; [apply storedUrl_spec; vm_compute; reflexivity |].
  split; [vm_compute; left; reflexivity |].
  split; [vm_compute; reflexivity | vm_compute; discriminate].
Qed.

(** C6, amended. When the storage answers the URL query, the postings
    kept for verification are exactly the aggregated postings neither of
    whose URLs is the apply URL or the source URL of a stored row, the
    others are the ones counted as skipped, and a later run in the same
    world on the table the run leaves adds nothing.  When the query
    returns no data or rejects, no posting is removed and none is
    counted as skipped: the run goes on with every aggregated posting. *)
Theorem C6_existing_url_dedup (env : Env) (st : Store) :
  (existingRead env = ReadRows ->
   Pipeline.newJobsOf env st =
     filter (fun j => negb (alreadyStored st j)) (Pipeline.jobsOf env) /\
   (forall j, In j (Pipeline.jobsOf env) ->
      urlInStorage st (applyUrl j) \/ urlInStorage st (sourceUrl j) ->
      ~ In j (Pipeline.newJobsOf env st)) /\
   skippedCount (fst (Pipeline.runPipeline env st)) =
     Pipeline.count (filter (alreadyStored st) (Pipeline.jobsOf env)) /\
   forall clock' iso',
     addedCount
       (fst (Pipeline.runPipeline (laterRun env clock' iso')
               (snd (Pipeline.runPipeline env st)))) = 0) /\
  (existingRead env <> ReadRows ->
   Pipeline.newJobsOf env st = Pipeline.jobsOf env /\
   skippedCount (fst (Pipeline.runPipeline env st)) = 0).
Proof.
  split.
  - intros Hread.
    assert (Hnew : Pipeline.newJobsOf env st =
                   filter (fun j => negb (alreadyStored st j))
                          (Pipeline.jobsOf env)).
    { unfold Pipeline.newJobsOf. apply filter_ext. intros j.
      apply isNew_stored. exact Hread. }
    split; [exact Hnew |]. split; [| split].
    + intros j _ Hurl Hin. rewrite Hnew in Hin.
      apply filter_In in Hin as [_ Hin]. apply negb_true_iff in Hin.
      unfold alreadyStored in Hin. apply orb_false_iff in Hin as [Ha Hs].
      destruct Hurl as [H | H]; apply storedUrl_spec in H; congruence.
    + rewrite skipped_count, Hnew.
      pose proof (count_split (alreadyStored st) (Pipeline.jobsOf env)).
      lia.
    + intros clock' iso'.
      destruct (runPipeline_loop (laterRun env clock' iso')
                  (snd (Pipeline.runPipeline env st)))
        as [errs [_ Hadded]]. cbn zeta in Hadded. rewrite Hadded.
      rewrite insertAll_none_added; [reflexivity |].
      intros x Hx. apply approved_spec in Hx as [j (Hj & -> & Hacc)].
      cbn [job].
      change (insertOutcome (laterRun env clock' iso') j)
        with (insertOutcome env j).
      apply (still_new_not_inserted env st j Hread); [exact Hj | exact Hacc].
  - intros Hread.
    pose proof (unanswered_all_new env st Hread) as Hnew.
    split; [exact Hnew |]. rewrite skipped_count, Hnew. lia.
Qed.

(** The posting on the employer's own site is added by a first run on
    an empty table; a run an hour later skips it and adds nothing. *)
Lemma C6_existing_url_dedup_witness :
  let first := Pipeline.runPipeline ownSiteEnv [] in
  let second :=
    Pipeline.runPipeline (laterRun ownSiteEnv hourLater (toISOString ownSiteEnv))
                         (snd first) in
  addedCount (fst first) = 1 /\
  skippedCount (fst second) = 1 /\
  addedCount (fst second) = 0.
Proof.
  cbn zeta. split; [vm_compute; reflexivity |].
  split; [vm_compute; reflexivity |].
  apply (proj1 (C6_existing_url_dedup ownSiteEnv []) eq_refl).
Defined.

(** ** Ingestion: acceptance and persistence *)

Lemma Recommendation_eqb_eq a b : Recommendation_eqb a b = true <-> a = b.
Proof. destruct a, b; cbn; split; intros H; try reflexivity; discriminate. Qed.

Lemma accepted_spec a : Pipeline.accepted a = true <-> acceptable a.
Proof.
  unfold Pipeline.accepted, acceptable.
  rewrite orb_true_iff, andb_true_iff, !Recommendation_eqb_eq, Z.leb_le.
  reflexivity.
Qed.

Lemma payload_status env k j a v :
  (recommendation a = APPROVE ->
   ins_verification_status (Pipeline.payload env k j a v) = VERIFIED /\
   ins_last_verified_at (Pipeline.payload env k j a v) = Some (clock env k)) /\
  (recommendation a <> APPROVE ->
   ins_verification_status (Pipeline.payload env k j a v) = PENDING /\
   ins_last_verified_at (Pipeline.payload env k j a v) = None).
Proof.
  cbn. destruct (recommendation a); cbn; split; intros H;
    try (split; reflexivity); try discriminate; contradiction.
Qed.

Lemma append_assoc (a b c : string) : (a ++ b) ++ c = a ++ b ++ c.
Proof. induction a as [|x a IH]; cbn; [reflexivity | rewrite IH; reflexivity]. Qed.

Lemma notes_shape (score : Z) (rest : string) :
  "Auto-verified. Score: " ++ Js.showZ score ++ "/100. " ++ rest =
  "Auto-verified. " ++ ("Score: " ++ Js.showZ score ++ "/100") ++ ". " ++ rest.
Proof.
  change ("Auto-verified. Score: " ++ Js.showZ score ++ "/100. " ++ rest)
    with ("Auto-verified. " ++ "Score: " ++ Js.showZ score ++ "/100. " ++ rest).
  f_equal. rewrite !append_assoc. reflexivity.
Qed.

Lemma accepts_spec a : accepts a = true <-> acceptable a.
Proof.
  unfold accepts, acceptable. destruct (recommendation a).
  - split; [left; reflexivity | reflexivity].
  - rewrite Z.leb_le. split; [right; auto | intros [H | [_ H]]];
      [discriminate | exact H].
  - split; [discriminate | intros [H | [H _]]; discriminate].
Qed.

Lemma accepts_accepted a : accepts a = Pipeline.accepted a.
Proof.
  unfold accepts, Pipeline.accepted. destruct (recommendation a); reflexivity.
Qed.

(** A verified posting with its verdict and the assessment the run uses
    for it. *)
Lemma combined_entries env st :
  Pipeline.combined env st =
  map (fun j => mkJWA j (Some (Verifier.verifyJob (net env) j))
                      (assessmentOf env j))
      (Pipeline.validJobsOf env st).
Proof.
  unfold Pipeline.combined. apply map_ext_in. intros j Hj.
  rewrite (analysis_used env st j Hj).
  apply validJobs_spec in Hj as (Hnew & Hs & _).
  rewrite (verification_lookup env _ j Hnew), Hs. reflexivity.
Qed.

Lemma filter_of_map {A B} (f : A -> B) (p : B -> bool) (l : list A) :
  filter p (map f l) = map f (filter (fun x => p (f x)) l).
Proof.
  induction l as [|x l IH]; cbn; [reflexivity |].
  destruct (p (f x)); cbn; rewrite IH; reflexivity.
Qed.

(** The approved postings of a run are its accepted survivors. *)
Lemma approved_entries env st :
  Pipeline.approvedJobsOf env st =
  map (fun j => mkJWA j (Some (Verifier.verifyJob (net env) j))
                      (assessmentOf env j))
      (filter (fun j => accepts (assessmentOf env j))
              (Pipeline.validJobsOf env st)).
Proof.
  unfold Pipeline.approvedJobsOf. rewrite combined_entries, filter_of_map.
  f_equal. apply filter_ext. intros j. cbn. symmetry. apply accepts_accepted.
Qed.

Lemma payload_persisted env k j :
  (1 <= k)%nat ->
  forall key,
  persistedAs env j
    (mkRow key (Pipeline.payload env k j (assessmentOf env j)
                  (Verifier.verifyJob (net env) j))).
Proof.
  intros Hk key. unfold persistedAs. cbn zeta.
  destruct (payload_status env k j (assessmentOf env j)
              (Verifier.verifyJob (net env) j)) as [Hyes Hno].
  unfold verification_status, last_verified_at, verification_notes,
    apply_url, source_url. cbn [cols].
  do 4 (split; [reflexivity |]).
  split.
  { intros Ha. destruct (Hyes Ha) as [Hs Ht]. split; [exact Hs |].
    exists k. split; [exact Hk | exact Ht]. }
  split; [exact Hno |].
  cbn [Pipeline.payload ins_verification_notes]. split.
  - rewrite notes_shape. apply includes_app.
  - apply includes_spec.
    exists ("Auto-verified. Score: " ++
            Js.showZ (legitimacyScore (assessmentOf env j)) ++ "/100. "), "".
    rewrite append_empty, !append_assoc. reflexivity.
Qed.

(** One iteration of the insert loop on a survivor with its verdict:
    the clock never goes back before its first reading, and the table
    gets the row of the posting exactly when the storage takes it. *)
Lemma insertOne_entry env s j :
  let x := mkJWA j (Some (Verifier.verifyJob (net env) j))
                 (assessmentOf env j) in
  (Pipeline.ticks s <= Pipeline.ticks (Pipeline.insertOne env s x))%nat /\
  match insertOutcome env j with
  | Inserted =>
      Pipeline.table (Pipeline.insertOne env s x) =
        (Pipeline.table s ++
         [mkRow (Storage.freshId (Pipeline.table s))
            (Pipeline.payload env (Pipeline.ticks s) j (assessmentOf env j)
               (Verifier.verifyJob (net env) j))])%list /\
      Pipeline.added (Pipeline.insertOne env s x) = Pipeline.added s + 1
  | _ =>
      Pipeline.table (Pipeline.insertOne env s x) = Pipeline.table s /\
      Pipeline.added (Pipeline.insertOne env s x) = Pipeline.added s
  end.
Proof.
  cbn zeta. unfold Pipeline.insertOne. cbn [verification job aiAnalysis].
  destruct (insertOutcome env j);
    destruct (Recommendation_eqb _ _);
    cbn [Pipeline.ticks Pipeline.table Pipeline.added];
    (split; [lia | split; reflexivity]).
Qed.

(** The insert loop over accepted survivors: one row per posting the
    storage takes, in order, and nothing else. *)
Lemma insertAll_persists env js : forall s,
  (1 <= Pipeline.ticks s)%nat ->
  exists rows,
    Pipeline.table
      (Pipeline.insertAll env s
         (map (fun j => mkJWA j (Some (Verifier.verifyJob (net env) j))
                             (assessmentOf env j)) js)) =
      (Pipeline.table s ++ rows)%list /\
    Forall2 (persistedAs env) (filter (storageTakes env) js) rows /\
    Pipeline.added
      (Pipeline.insertAll env s
         (map (fun j => mkJWA j (Some (Verifier.verifyJob (net env) j))
                             (assessmentOf env j)) js)) =
      Pipeline.added s + Z.of_nat (List.length rows).
Proof.
  unfold Pipeline.insertAll.
  induction js as [|j js IH]; intros s Hk; cbn [map fold_left filter].
  - exists []. rewrite app_nil_r. split; [reflexivity |].
    split; [constructor | cbn; lia].
  - destruct (insertOne_entry env s j) as [Hticks Hone]. cbn zeta in *.
    destruct (IH _ (Nat.le_trans _ _ _ Hk Hticks)) as (rows & Ht & Hall & Hadd).
    unfold storageTakes at 1.
    destruct (insertOutcome env j); destruct Hone as [Htab Hadd1];
      rewrite Htab in Ht; rewrite Hadd1 in Hadd.
    + rewrite <- app_assoc in Ht. cbn [app] in Ht.
      eexists (_ :: rows). split; [exact Ht |]. split.
      * constructor; [| exact Hall]. apply payload_persisted. exact Hk.
      * rewrite Hadd. cbn [List.length]. lia.
    + exists rows. auto.
    + exists rows. auto.
Qed.

(** C2. A scored survivor of a run is accepted if and only if its
    recommendation is APPROVE, or REVIEW with a score of at least 60.
    The table a run leaves is the table it found followed by one row
    for every accepted survivor the storage takes, in the order of the
    run, and by nothing else; the row of a posting has status VERIFIED
    and a reading of the clock taken during the run as last-verified
    timestamp when its recommendation is APPROVE, status PENDING and no
    timestamp otherwise, and its notes embed the score and the notes of
    the verifier; the run reports these rows as added. *)
Theorem C2_acceptance_and_persistence (env : Env) (st : Store) :
  let survivors := Pipeline.validJobsOf env st in
  let run := Pipeline.runPipeline env st in
  (forall j, In j survivors ->
     (In j (map job (Pipeline.approvedJobsOf env st)) <->
      acceptable (assessmentOf env j))) /\
  exists rows,
    snd run = (st ++ rows)%list /\
    Forall2 (persistedAs env) (persisted env st) rows /\
    addedCount (fst run) = Z.of_nat (List.length rows).
Proof.
  cbn zeta. split.
  - intros j Hj. rewrite in_map_iff. split.
    + intros (x & <- & Hx).
      apply approved_spec in Hx as (j' & _ & -> & Hacc). cbn [job].
      apply accepted_spec. exact Hacc.
    + intros Hacc.
      exists (mkJWA j (Some (Verifier.verifyJob (net env) j))
                    (assessmentOf env j)).
      split; [reflexivity |]. apply approved_spec. exists j.
      split; [exact Hj |]. split; [reflexivity |].
      apply accepted_spec. exact Hacc.
  - destruct (runPipeline_loop env st) as [errs [Htable Hadded]].
    cbn zeta in Htable, Hadded. rewrite approved_entries in Htable, Hadded.
    destruct (insertAll_persists env
                (filter (fun j => accepts (assessmentOf env j))
                        (Pipeline.validJobsOf env st))
                (Pipeline.mkLoop st 1 0 errs)) as (rows & Ht & Hall & Hadd).
    { cbn. lia. }
    exists rows. rewrite Htable, Hadded, Ht, Hadd.
    cbn [Pipeline.table Pipeline.added]. auto.
Qed.

(** The Acme posting is approved by the rule engine with a score of 90
    and stored as VERIFIED. *)
Lemma C2_acceptance_and_persistence_witness :
  exists r,
    snd (Pipeline.runPipeline acmeEnv []) = [r] /\
    verification_status r = VERIFIED /\
    last_verified_at r <> None /\
    Js.includes (verification_notes r) "Score: 90/100" = true.
Proof.
  destruct (C2_acceptance_and_persistence acmeEnv [])
    as (_ & rows & Ht & Hall & _).
  cbn zeta in Ht.
  assert (E : persisted acmeEnv [] = [acmeJob]) by (vm_compute; reflexivity).
  rewrite E in Hall.
  inversion Hall as [|j r js rs Hr Hrest]; subst.
  inversion Hrest; subst.
  exists r. split; [exact Ht |].
  destruct Hr as (_ & _ & _ & _ & Hyes & _ & Hscore & _).
  destruct (Hyes eq_refl) as (Hs & k & _ & Hk).
  split; [exact Hs |]. split; [rewrite Hk; discriminate |].
  exact Hscore.
Defined.

(** ** Ingestion: a missing assessment *)



(** ** The re-verification sweep *)

Lemma update_ids st key patch :
  map id (Storage.update st key patch) = map id st.
Proof.
  unfold Storage.update. rewrite map_map. apply map_ext.
  intros r. destruct (id r =? key)%nat; reflexivity.
Qed.







Lemma okStatus_spec st : Verifier.okStatus st = true <-> 200 <= st < 400.
Proof. unfold Verifier.okStatus. rewrite andb_true_iff, Z.leb_le, Z.ltb_lt. tauto. Qed.







(** ** Ingestion: the failed counter *)

Lemma insertAll_added env xs : forall s,
  Pipeline.added (Pipeline.insertAll env s xs) =
  Pipeline.added s + Pipeline.count (filter (taken env) xs).
Proof.
  unfold Pipeline.insertAll, Pipeline.count.
  induction xs as [|x xs IH]; intros s; cbn [fold_left filter].
  - cbn. lia.
  - rewrite IH. unfold Pipeline.insertOne, taken.
    destruct (verification x); [| cbn; lia].
    destruct (insertOutcome env (job x)); cbn [Pipeline.added List.length]; lia.
Qed.

(** C3 as stated fails: the posting [pushyJob] passes verification, its
    assessment is not accepted, it is neither skipped nor added, and it
    is not counted as failed. *)
Lemma C3_rejected_counterexample :
  let res := fst (Pipeline.runPipeline pushyEnv []) in
  Pipeline.validJobsOf pushyEnv [] = [pushyJob] /\
  Pipeline.accepted (assessmentOf pushyEnv pushyJob) = false /\
  failedCount res <> scrapedCount res - skippedCount res - addedCount res.
Proof. vm_compute. repeat split; try reflexivity. discriminate. Qed.

(** C3, amended. The failed counter of a run is the number of new
    postings dropped after the verification stage plus the number of
    approved postings whose insert fails.  A verified posting whose
    assessment is not accepted is in no counter: the aggregated postings
    are the skipped, the added, the failed and those rejected ones. *)
Theorem C3_failed_counter (env : Env) (st : Store) :
  let res := fst (Pipeline.runPipeline env st) in
  failedCount res =
    Pipeline.count (failedVerification env st) +
    Pipeline.count (failedInserts env st) /\
  scrapedCount res =
    skippedCount res + addedCount res + failedCount res +
    rejectedCount env st.
Proof.
  cbn zeta.
  assert (Hver : Pipeline.count (Pipeline.newJobsOf env st) =
                 Pipeline.count (Pipeline.validJobsOf env st) +
                 Pipeline.count (failedVerification env st)).
  { unfold Pipeline.validJobsOf, failedVerification. cbn zeta.
    apply count_split. }
  assert (Hins : forall errs,
            Pipeline.count (Pipeline.approvedJobsOf env st) =
            Pipeline.added
              (Pipeline.insertAll env (Pipeline.mkLoop st 1 0 errs)
                 (Pipeline.approvedJobsOf env st)) +
            Pipeline.count (failedInserts env st)).
  { intros errs. rewrite insertAll_added. cbn [Pipeline.added].
    unfold failedInserts.
    rewrite (count_split (taken env) (Pipeline.approvedJobsOf env st)) at 1.
    lia. }
  unfold rejectedCount, Pipeline.runPipeline.
  destruct (List.length (Pipeline.jobsOf env) =? 0)%nat eqn:Hjobs.
  { unfold failedInserts, failedVerification, Pipeline.approvedJobsOf,
      Pipeline.combined, Pipeline.validJobsOf, Pipeline.newJobsOf.
    rewrite (length_zero_nil _ Hjobs). split; reflexivity. }
  destruct (List.length (Pipeline.newJobsOf env st) =? 0)%nat eqn:Hnew.
  { unfold failedInserts, failedVerification, Pipeline.approvedJobsOf,
      Pipeline.combined, Pipeline.validJobsOf.
    rewrite (length_zero_nil _ Hnew). cbn. unfold Pipeline.count. cbn.
    split; lia. }
  destruct (List.length (Pipeline.validJobsOf env st) =? 0)%nat eqn:Hvalid.
  { pose proof Hver as Hver'.
    unfold failedInserts, Pipeline.approvedJobsOf, Pipeline.combined.
    rewrite (length_zero_nil _ Hvalid) in *. cbn.
    unfold Pipeline.count in *. cbn in *. split; lia. }
  cbn [fst scrapedCount skippedCount addedCount failedCount].
  match goal with
  | |- context [Pipeline.mkLoop st 1 0 ?e] => specialize (Hins e)
  end.
  split; lia.
Qed.

(* ================================================================= *)
(** * Further properties *)

(** ** The pattern matcher and the languages of the patterns *)

Lemma starCls_spec c k : forall s,
  Regex.starCls c k s = true <->
  exists m rest, s = m ++ rest /\ Lang (Regex.RStar c) m /\ k rest = true.
Proof.
  induction s as [|a s IH]; cbn [Regex.starCls].
  - split.
    + intros H. exists "", "". repeat split; [constructor | exact H].
    + intros (m & rest & E & _ & Hk).
      destruct m; [| discriminate]. cbn in E. subst rest. exact Hk.
  - split.
    + destruct (Regex.clsMatch c a) eqn:Hc.
      * destruct (Regex.starCls c k s) eqn:Hs.
        -- intros _. destruct (proj1 IH eq_refl) as (m & rest & -> & Hm & Hk).
           exists (String a m), rest. repeat split; [| exact Hk].
           constructor; assumption.
        -- intros Hk. exists "", (String a s).
           repeat split; [constructor | exact Hk].
      * intros Hk. exists "", (String a s).
        repeat split; [constructor | exact Hk].
    + intros (m & rest & E & Hm & Hk).
      inversion Hm as [| | | | | c' E1 E2 | c' a' m' Ha Hm' E1 E2]; subst.
      * cbn in E. subst rest.
        destruct (Regex.clsMatch c a); [| exact Hk].
        destruct (Regex.starCls c k s); [reflexivity | exact Hk].
      * cbn in E. injection E as -> ->. rewrite Ha.
        assert (Regex.starCls c k (m' ++ rest) = true) as ->; [| reflexivity].
        apply IH. exists m', rest. repeat split; assumption.
Qed.

Lemma append_assoc' (a b c : string) : a ++ b ++ c = (a ++ b) ++ c.
Proof. induction a as [|x a IH]; cbn; [reflexivity | rewrite IH; reflexivity]. Qed.

(** The matcher is sound and complete for the languages: it accepts at
    the start of [s] exactly when a prefix is in the language and the
    continuation accepts the rest. *)
Lemma matchAt_spec r : forall s k,
  Regex.matchAt r s k = true <->
  exists m rest, s = m ++ rest /\ Lang r m /\ k rest = true.
Proof.
  induction r as [| c | r1 IH1 r2 IH2 | r1 IH1 r2 IH2 | c]; intros s k;
    cbn [Regex.matchAt].
  - split.
    + intros H. exists "", s. repeat split; [constructor | exact H].
    + intros (m & rest & -> & Hm & Hk). inversion Hm; subst. exact Hk.
  - destruct s as [|a s].
    + split; [discriminate |].
      intros (m & rest & E & Hm & _). inversion Hm; subst. discriminate.
    + split.
      * destruct (Regex.clsMatch c a) eqn:Hc; [| discriminate].
        intros Hk. exists (String a ""), s.
        repeat split; [constructor; exact Hc | exact Hk].
      * intros (m & rest & E & Hm & Hk). inversion Hm; subst.
        cbn in E. injection E as -> ->.
        match goal with H : Regex.clsMatch _ _ = true |- _ => rewrite H end.
        exact Hk.
  - rewrite IH1. split.
    + intros (m1 & rest1 & -> & Hm1 & Hk).
      apply IH2 in Hk as (m2 & rest & -> & Hm2 & Hk).
      exists (m1 ++ m2), rest. split; [apply append_assoc' |].
      split; [constructor; assumption | exact Hk].
    + intros (m & rest & -> & Hm & Hk). inversion Hm; subst.
      exists m1, (m2 ++ rest). split; [symmetry; apply append_assoc' |].
      split; [assumption |]. apply IH2. exists m2, rest. auto.
  - split.
    + destruct (Regex.matchAt r1 s k) eqn:H1.
      * intros _. apply IH1 in H1 as (m & rest & E & Hm & Hk).
        exists m, rest. repeat split; auto. apply LangAltL. exact Hm.
      * intros H2. apply IH2 in H2 as (m & rest & E & Hm & Hk).
        exists m, rest. repeat split; auto. apply LangAltR. exact Hm.
    + intros (m & rest & E & Hm & Hk). inversion Hm; subst.
      * assert (Regex.matchAt r1 (m ++ rest) k = true) as ->; [| reflexivity].
        apply IH1. exists m, rest. auto.
      * destruct (Regex.matchAt r1 (m ++ rest) k); [reflexivity |].
        apply IH2. exists m, rest. auto.
  - apply starCls_spec.
Qed.

(** [test] answers whether some stretch of the text is in the language
    of the pattern. *)
Lemma test_spec r : forall txt,
  Regex.test r txt = true <->
  exists pre m post, txt = pre ++ m ++ post /\ Lang r m.
Proof.
  induction txt as [|a txt IH]; cbn [Regex.test].
  - split.
    + destruct (Regex.matchAt r "" (fun _ => true)) eqn:H; [| discriminate].
      intros _. apply matchAt_spec in H as (m & rest & E & Hm & _).
      exists "", m, rest. split; [exact E | exact Hm].
    + intros (pre & m & post & E & Hm).
      destruct pre; [| discriminate]. cbn in E.
      assert (Regex.matchAt r "" (fun _ => true) = true) as ->; [| reflexivity].
      apply matchAt_spec. exists m, post. auto.
  - split.
    + destruct (Regex.matchAt r (String a txt) (fun _ => true)) eqn:H.
      * intros _. apply matchAt_spec in H as (m & rest & E & Hm & _).
        exists "", m, rest. split; [exact E | exact Hm].
      * intros Ht. apply IH in Ht as (pre & m & post & -> & Hm).
        exists (String a pre), m, post. split; [reflexivity | exact Hm].
    + intros (pre & m & post & E & Hm). destruct pre as [|b pre].
      * cbn in E.
        assert (Regex.matchAt r (String a txt) (fun _ => true) = true) as ->;
          [| reflexivity].
        apply matchAt_spec. exists m, post. auto.
      * cbn in E. injection E as -> ->.
        assert (Regex.test r (pre ++ m ++ post) = true) as ->.
        { apply IH. exists pre, m, post. auto. }
        destruct (Regex.matchAt r _ _); reflexivity.
Qed.

Lemma allAscii_spec p : allAscii p = true -> forall a, p a = true.
Proof.
  unfold allAscii. intros H a. rewrite forallb_forall in H.
  rewrite <- (ascii_nat_embedding a). apply H.
  apply in_seq. pose proof (nat_ascii_bounded a). lia.
Qed.

Lemma canon_plain c a :
  (nat_of_ascii c <? 128)%nat = true -> Js.lowerChar c = c ->
  (Regex.canon c = Regex.canon a <-> Js.lowerChar a = c).
Proof.
  intros H128 Hlow.
  assert (Hall : allAscii canonAgrees = true) by (vm_compute; reflexivity).
  pose proof (allAscii_spec _ Hall c) as Hc. unfold canonAgrees in Hc.
  rewrite H128, Hlow, Ascii.eqb_refl in Hc. cbn [implb andb] in Hc.
  pose proof (allAscii_spec _ Hc a) as Ha. cbn beta in Ha.
  apply Bool.eqb_prop in Ha. rewrite <- !Ascii.eqb_eq, Ha. reflexivity.
Qed.

(** The language of a literal: the strings that lower-case to it. *)
Lemma Lang_lit w : plainWord w = true ->
  forall m, Lang (Regex.lit w) m <-> Js.toLowerCase m = w.
Proof.
  induction w as [|c w IH]; intros Hplain m; cbn [Regex.lit].
  - split.
    + intros H. inversion H. reflexivity.
    + intros H. destruct m; [constructor | discriminate].
  - cbn in Hplain. apply andb_prop in Hplain as [Hc Hw].
    apply andb_prop in Hc as [H128 Hlow]. apply Ascii.eqb_eq in Hlow.
    split.
    + intros H. inversion H as [| | r1 r2 m1 m2 H1 H2 | | | |]; subst.
      inversion H1 as [| c' a Ha | | | | |]; subst. cbn in *.
      apply Ascii.eqb_eq in Ha. apply (canon_plain c a H128 Hlow) in Ha.
      rewrite Ha. f_equal. apply IH; assumption.
    + intros H. destruct m as [|a m]; [discriminate |].
      cbn in H. injection H as Ha Hm.
      change (String a m) with (String a "" ++ m).
      constructor.
      * constructor. cbn. apply Ascii.eqb_eq.
        apply (canon_plain c a H128 Hlow). exact Ha.
      * apply IH; assumption.
Qed.

Lemma test_lit_iff w txt : plainWord w = true ->
  (Regex.test (Regex.lit w) txt = true <-> occursIgnoringCase txt w).
Proof.
  intros Hplain. rewrite test_spec. unfold occursIgnoringCase. split.
  - intros (pre & m & post & E & Hm). exists pre, m, post.
    split; [exact E | apply Lang_lit; assumption].
  - intros (pre & m & post & E & Hm). exists pre, m, post.
    split; [exact E | apply Lang_lit; assumption].
Qed.

(** ** The red-flag scan, label by label *)

Lemma scanPatterns_iff table txt flag :
  In flag (Verifier.scanPatterns table txt) <->
  exists pattern, In pattern (patternsOf table flag) /\
                  Regex.test pattern txt = true.
Proof.
  unfold patternsOf. induction table as [|[p f] table IH]; cbn.
  - split; [intros [] | intros [? [[] _]]].
  - destruct (Regex.test p txt) eqn:Ht; destruct (String.eqb f flag) eqn:Ef;
      cbn; rewrite IH.
    + apply String.eqb_eq in Ef. subst. split.
      * intros _. exists p. split; [left; reflexivity | exact Ht].
      * intros _. left. reflexivity.
    + apply String.eqb_neq in Ef. split.
      * intros [E | H]; [contradiction | exact H].
      * intros H. right. exact H.
    + split.
      * intros [q [Hq Hq']]. exists q. split; [right; exact Hq | exact Hq'].
      * intros [q [[<- | Hq] Hq']]; [congruence |]. exists q. auto.
    + reflexivity.
Qed.

Lemma detectRedFlags_iff j flag :
  In flag (Verifier.detectRedFlags j) <->
  In flag (Verifier.scanPatterns Verifier.RED_FLAG_PATTERNS (textToCheck j)) \/
  (Verifier.unrealisticSalary j = true /\ flag = Verifier.SALARY_FLAG) \/
  (Verifier.vagueCompany j = true /\ flag = Verifier.COMPANY_FLAG).
Proof.
  unfold Verifier.detectRedFlags. fold (textToCheck j).
  destruct (Verifier.unrealisticSalary j), (Verifier.vagueCompany j);
    rewrite ?in_app_iff; cbn [In]; split; intros H;
    repeat match goal with
           | H : _ \/ _ |- _ => destruct H
           | H : _ /\ _ |- _ => destruct H
           | H : False |- _ => contradiction
           end; subst; try discriminate; auto.
Qed.

Lemma distinctStrings_NoDup l : distinctStrings l = true -> NoDup l.
Proof.
  induction l as [|x l IH]; cbn; intros H; constructor.
  - apply andb_prop in H as [H _]. apply negb_true_iff in H.
    intros Hin. assert (existsb (String.eqb x) l = true); [| congruence].
    apply existsb_exists. exists x. split; [exact Hin | apply String.eqb_refl].
  - apply IH. apply andb_prop in H as [_ H]. exact H.
Qed.

Lemma scanPatterns_labels table txt flag :
  In flag (Verifier.scanPatterns table txt) -> In flag (map snd table).
Proof.
  induction table as [|[p f] table IH]; cbn; [tauto |].
  destruct (Regex.test p txt); cbn; intuition.
Qed.

Lemma scanPatterns_NoDup table txt :
  NoDup (map snd table) -> NoDup (Verifier.scanPatterns table txt).
Proof.
  induction table as [|[p f] table IH]; cbn; intros Hnd; [constructor |].
  inversion Hnd as [|? ? Hfresh Hnd']; subst.
  destruct (Regex.test p txt); [| exact (IH Hnd')].
  constructor; [| exact (IH Hnd')].
  intros Hin. apply Hfresh. apply (scanPatterns_labels _ _ _ Hin).
Qed.

Lemma scanPatterns_length table txt :
  (List.length (Verifier.scanPatterns table txt) <= List.length table)%nat.
Proof.
  induction table as [|[p f] table IH]; cbn; [lia |].
  destruct (Regex.test p txt); cbn; lia.
Qed.

Lemma NoDup_snoc {A} (l : list A) (x : A) :
  NoDup l -> ~ In x l -> NoDup (l ++ [x]).
Proof.
  intros Hnd Hx. induction Hnd as [|y l Hy Hnd IH]; cbn.
  - constructor; [intros [] | constructor].
  - constructor.
    + rewrite in_app_iff. cbn. intros [H | [H | []]]; [exact (Hy H) |].
      apply Hx. left. symmetry. exact H.
    + apply IH. intros H. apply Hx. right. exact H.
Qed.

Lemma single_literal_flag j w flag :
  plainWord w = true ->
  patternsOf Verifier.RED_FLAG_PATTERNS flag = [Regex.lit w] ->
  flag <> Verifier.SALARY_FLAG -> flag <> Verifier.COMPANY_FLAG ->
  (In flag (Verifier.detectRedFlags j) <->
   occursIgnoringCase (textToCheck j) w).
Proof.
  intros Hplain Htable Hs Hc.
  rewrite detectRedFlags_iff, scanPatterns_iff, Htable.
  rewrite <- (test_lit_iff w (textToCheck j) Hplain). split.
  - intros [[p [[<- | []] Ht]] | [[_ E] | [_ E]]];
      [exact Ht | contradiction | contradiction].
  - intros Ht. left. exists (Regex.lit w). split; [left; reflexivity | exact Ht].
Qed.

(** X1. Each of the six one-phrase patterns is raised exactly when its
    phrase occurs in the text, case ignored: never on a posting without
    the phrase, always on one with it, wherever in a word it falls. *)
Theorem red_flag_literal_exact (j : ScrapedJob) (w flag : string) :
  In (w, flag) literalFlags ->
  (In flag (Verifier.detectRedFlags j) <->
   occursIgnoringCase (textToCheck j) w).
Proof.
  intros Hin. cbn in Hin.
  repeat (destruct Hin as [Hin | Hin];
    [injection Hin as <- <-;
     apply single_literal_flag;
     [reflexivity | vm_compute; reflexivity | discriminate | discriminate]
    |]).
  contradiction.
Qed.

(** The phrase "guaranteed income" in the posting [scamJob]. *)
Lemma red_flag_literal_exact_witness :
  In "Guaranteed income claims" (Verifier.detectRedFlags scamJob) <->
  occursIgnoringCase (textToCheck scamJob) "guaranteed income".
Proof.
  apply (red_flag_literal_exact scamJob "guaranteed income"
           "Guaranteed income claims").
  right. right. right. left. reflexivity.
Defined.

Lemma no_pattern_for flag :
  patternsOf Verifier.RED_FLAG_PATTERNS flag = [] ->
  forall txt,
    ~ In flag (Verifier.scanPatterns Verifier.RED_FLAG_PATTERNS txt).
Proof.
  intros Hnone txt Hin. apply scanPatterns_iff in Hin as [p [Hp _]].
  rewrite Hnone in Hp. exact Hp.
Qed.

(** X2. The unrealistic-salary flag is raised exactly when the posting
    has a minimum salary above 200000, and the vague-company flag
    exactly when the company name has fewer than three characters or
    lower-cases to "company" or "confidential"; no text of the posting
    can raise or suppress either. *)
Theorem salary_and_company_flags_exact (j : ScrapedJob) :
  (In Verifier.SALARY_FLAG (Verifier.detectRedFlags j) <->
   exists v, salaryMin j = Some v /\ 200000 < v) /\
  (In Verifier.COMPANY_FLAG (Verifier.detectRedFlags j) <->
   (String.length (company j) < 3)%nat \/
   Js.toLowerCase (company j) = "company" \/
   Js.toLowerCase (company j) = "confidential").
Proof.
  split.
  - rewrite detectRedFlags_iff. split.
    + intros [H | [[H _] | [_ E]]].
      * exfalso. revert H. apply no_pattern_for. reflexivity.
      * unfold Verifier.unrealisticSalary in H.
        destruct (salaryMin j) as [v|]; [| rewrite andb_false_r in H; discriminate].
        apply andb_prop in H as [_ H]. exists v.
        split; [reflexivity | apply Z.ltb_lt; exact H].
      * discriminate E.
    + intros [v [Hv Hlt]]. right. left. split; [| reflexivity].
      unfold Verifier.unrealisticSalary, Js.truthyNum. rewrite Hv.
      apply andb_true_intro. split.
      * apply negb_true_iff, Z.eqb_neq. lia.
      * apply Z.ltb_lt. exact Hlt.
  - rewrite detectRedFlags_iff.
    assert (Hv : Verifier.vagueCompany j = true <->
                 (String.length (company j) < 3)%nat \/
                 Js.toLowerCase (company j) = "company" \/
                 Js.toLowerCase (company j) = "confidential").
    { unfold Verifier.vagueCompany, Js.len.
      rewrite !orb_true_iff, Z.ltb_lt, !String.eqb_eq. split.
      - intros [[H | H] | H]; [left; lia | auto | auto].
      - intros [H | [H | H]]; [left; left; lia | auto | auto]. }
    split.
    + intros [H | [[_ E] | [H _]]].
      * exfalso. revert H. apply no_pattern_for. reflexivity.
      * discriminate E.
      * apply Hv. exact H.
    + intros H. right. right. split; [apply Hv; exact H | reflexivity].
Qed.

(** X3. The red-flag list never repeats a label and holds at most 16
    labels: those of the 14 patterns, each at most once and in table
    order, then the salary flag, then the company flag. *)
Theorem red_flags_no_repeat (j : ScrapedJob) :
  NoDup (Verifier.detectRedFlags j) /\
  (List.length (Verifier.detectRedFlags j) <= 16)%nat.
Proof.
  assert (Hscan : NoDup (Verifier.scanPatterns Verifier.RED_FLAG_PATTERNS
                           (textToCheck j))).
  { apply scanPatterns_NoDup. apply distinctStrings_NoDup. reflexivity. }
  pose proof (scanPatterns_length Verifier.RED_FLAG_PATTERNS (textToCheck j))
    as Hlen.
  assert (Hs : ~ In Verifier.SALARY_FLAG
                 (Verifier.scanPatterns Verifier.RED_FLAG_PATTERNS
                    (textToCheck j)))
    by (apply no_pattern_for; reflexivity).
  assert (Hc : ~ In Verifier.COMPANY_FLAG
                 (Verifier.scanPatterns Verifier.RED_FLAG_PATTERNS
                    (textToCheck j)))
    by (apply no_pattern_for; reflexivity).
  split.
  - unfold Verifier.detectRedFlags. fold (textToCheck j).
    destruct (Verifier.unrealisticSalary j), (Verifier.vagueCompany j);
      repeat apply NoDup_snoc; auto.
    rewrite in_app_iff. intros [H | [E | []]]; [exact (Hc H) | discriminate E].
  - unfold Verifier.detectRedFlags. fold (textToCheck j).
    change (List.length Verifier.RED_FLAG_PATTERNS) with 14%nat in Hlen.
    destruct (Verifier.unrealisticSalary j), (Verifier.vagueCompany j);
      rewrite ?length_app; cbn [List.length]; lia.
Qed.

(** ** The money-rate patterns *)

Lemma Lang_star_digits m :
  Lang (Regex.RStar Regex.CDigit) m <-> allDigits m = true.
Proof.
  induction m as [|a m IH]; cbn.
  - split; [reflexivity | constructor].
  - rewrite andb_true_iff, <- IH. split.
    + intros H. inversion H; subst. split; assumption.
    + intros [Ha Hm]. constructor; assumption.
Qed.

Lemma Lang_digit m :
  Lang (Regex.RCls Regex.CDigit) m <->
  exists a, m = String a "" /\ Regex.isDigit a = true.
Proof.
  split.
  - intros H. inversion H; subst. eauto.
  - intros [a [-> Ha]]. constructor. exact Ha.
Qed.

Lemma Lang_cat r1 r2 m :
  Lang (Regex.RCat r1 r2) m <->
  exists m1 m2, m = m1 ++ m2 /\ Lang r1 m1 /\ Lang r2 m2.
Proof.
  split.
  - intros H. inversion H; subst. eauto.
  - intros (m1 & m2 & -> & H1 & H2). constructor; assumption.
Qed.

Lemma Lang_eps m : Lang Regex.REps m <-> m = "".
Proof.
  split.
  - intros H. inversion H. reflexivity.
  - intros ->. constructor.
Qed.

Lemma Lang_atLeast3_digits d :
  Lang (Regex.atLeast3 Regex.CDigit) d <->
  allDigits d = true /\ (3 <= String.length d)%nat.
Proof.
  unfold Regex.atLeast3. rewrite Lang_cat. split.
  - intros (m1 & m2 & -> & H1 & H2).
    apply Lang_digit in H1 as [a1 [-> Ha1]].
    apply Lang_cat in H2 as (m3 & m4 & -> & H3 & H4).
    apply Lang_digit in H3 as [a2 [-> Ha2]].
    apply Lang_cat in H4 as (m5 & m6 & -> & H5 & H6).
    apply Lang_digit in H5 as [a3 [-> Ha3]].
    apply Lang_star_digits in H6.
    cbn. rewrite Ha1, Ha2, Ha3, H6. split; [reflexivity | lia].
  - intros [Hd Hlen].
    destruct d as [|a1 [|a2 [|a3 d]]]; cbn in Hlen; try lia.
    cbn in Hd. repeat (apply andb_prop in Hd as [? Hd]).
    exists (String a1 ""), (String a2 (String a3 d)).
    split; [reflexivity |]. split; [constructor; assumption |].
    apply Lang_cat. exists (String a2 ""), (String a3 d).
    split; [reflexivity |]. split; [constructor; assumption |].
    apply Lang_cat. exists (String a3 ""), d.
    split; [reflexivity |]. split; [constructor; assumption |].
    apply Lang_star_digits. exact Hd.
Qed.

Lemma lower_dollar m : Js.toLowerCase m = "$" <-> m = "$".
Proof.
  split; [| intros ->; reflexivity].
  destruct m as [|a [|b m]]; cbn; try discriminate.
  intros H. injection H as H. f_equal. revert H.
  destruct a as [[] [] [] [] [] [] [] []]; vm_compute; intros H;
    solve [reflexivity | discriminate H].
Qed.

Lemma rate_pattern_spec unit txt :
  plainWord unit = true ->
  (Regex.test (Regex.cat [Regex.lit "$"; Regex.atLeast3 Regex.CDigit;
                          Regex.lit unit]) txt = true <->
   hasRate txt unit).
Proof.
  intros Hplain. rewrite test_spec. unfold hasRate, Regex.cat. split.
  - intros (pre & m & post & -> & Hm).
    apply Lang_cat in Hm as (m1 & m' & -> & H1 & Hm).
    apply Lang_cat in Hm as (d & m'' & -> & Hd & Hm).
    apply Lang_cat in Hm as (w & e & -> & Hw & He).
    apply Lang_eps in He. subst e. rewrite append_empty.
    apply (Lang_lit "$" eq_refl) in H1. apply (proj1 (lower_dollar m1)) in H1. subst m1.
    apply Lang_atLeast3_digits in Hd as [Hd Hlen].
    apply (Lang_lit unit Hplain) in Hw.
    exists pre, d, w, post. repeat split; try assumption.
    rewrite !append_assoc. reflexivity.
  - intros (pre & d & w & post & -> & Hd & Hlen & Hw).
    exists pre, ("$" ++ d ++ w ++ ""), post. split.
    + rewrite append_empty, !append_assoc. reflexivity.
    + apply Lang_cat. exists "$", (d ++ w ++ "").
      split; [reflexivity |]. split; [apply (Lang_lit "$" eq_refl); reflexivity |].
      apply Lang_cat. exists d, (w ++ ""). split; [reflexivity |].
      split; [apply Lang_atLeast3_digits; auto |].
      apply Lang_cat. exists w, "". split; [reflexivity |].
      split; [apply (Lang_lit unit Hplain); exact Hw | constructor].
Qed.

Lemma single_pattern_flag j pattern flag :
  patternsOf Verifier.RED_FLAG_PATTERNS flag = [pattern] ->
  flag <> Verifier.SALARY_FLAG -> flag <> Verifier.COMPANY_FLAG ->
  (In flag (Verifier.detectRedFlags j) <->
   Regex.test pattern (textToCheck j) = true).
Proof.
  intros Htable Hs Hc.
  rewrite detectRedFlags_iff, scanPatterns_iff, Htable. split.
  - intros [[p [[<- | []] Ht]] | [[_ E] | [_ E]]];
      [exact Ht | contradiction | contradiction].
  - intros Ht. left. exists pattern. split; [left; reflexivity | exact Ht].
Qed.

(** X4. The daily-rate and hourly-rate flags are raised exactly when
    the text holds a dollar sign, three or more digits and "/day" (or
    "/hour"), case ignored: any amount of three digits or more is
    flagged, whatever its size, and none of fewer digits. *)
Theorem rate_flags_exact (j : ScrapedJob) :
  (In "Unrealistic daily rate" (Verifier.detectRedFlags j) <->
   hasRate (textToCheck j) "/day") /\
  (In "Unrealistic hourly rate (>$200/hr for entry level)"
      (Verifier.detectRedFlags j) <->
   hasRate (textToCheck j) "/hour").
Proof.
  split.
  - rewrite <- (rate_pattern_spec "/day" _ eq_refl).
    apply single_pattern_flag;
      [vm_compute; reflexivity | discriminate | discriminate].
  - rewrite <- (rate_pattern_spec "/hour" _ eq_refl).
    apply single_pattern_flag;
      [vm_compute; reflexivity | discriminate | discriminate].
Qed.

(** ** The verifier's checks *)

(** An accessible link always comes with the status that made it so. *)
Lemma accessible_status (n : Net) (url : string) :
  fst (Verifier.checkUrlAccessibility n url) = true <->
  exists st, snd (Verifier.checkUrlAccessibility n url) = Some st /\
             200 <= st < 400.
Proof.
  unfold Verifier.checkUrlAccessibility.
  destruct (fetchHead n url) as [h|]; [| destruct (fetchGet n url) as [g|]];
    cbn [fst snd].
  - rewrite okStatus_spec. split.
    + intros H. exists h. auto.
    + intros [st [E H]]. injection E as <-. exact H.
  - rewrite okStatus_spec. split.
    + intros H. exists g. auto.
    + intros [st [E H]]. injection E as <-. exact H.
  - split; [discriminate | intros [st [E _]]; discriminate].
Qed.

(** X5. The link check: an answer to the [HEAD] request is final, a
    [GET] request being made only when [HEAD] is rejected, not when it
    answers with an error status; the link is accessible exactly when
    the status it reports is in [200,400); no status is reported exactly
    when both requests are rejected. *)
Theorem link_check_outcomes (n : Net) (url : string) :
  let r := Verifier.checkUrlAccessibility n url in
  (forall st, fetchHead n url = Some st -> r = (Verifier.okStatus st, Some st)) /\
  (fst r = true <-> exists st, snd r = Some st /\ 200 <= st < 400) /\
  (snd r = None <-> fetchHead n url = None /\ fetchGet n url = None).
Proof.
  cbn zeta. split; [| split; [apply accessible_status |]];
    unfold Verifier.checkUrlAccessibility.
  - intros st ->. reflexivity.
  - destruct (fetchHead n url) as [h|]; [| destruct (fetchGet n url) as [g|]];
      cbn [snd].
    + split; [discriminate | intros [E _]; discriminate].
    + split; [discriminate | intros [_ E]; discriminate].
    + tauto.
Qed.

(** A [HEAD] refused with 405 is not retried with [GET]. *)
Lemma link_check_outcomes_witness :
  Verifier.checkUrlAccessibility headRefusedNet "https://example.com/jobs/1" =
  (false, Some 405).
Proof.
  apply (proj1 (link_check_outcomes headRefusedNet "https://example.com/jobs/1")
           405 eq_refl).
Defined.



(** X7. The verdict of [verifyJob]: its flag list is the red-flag scan
    of the posting, [hasRedFlags] says the list is not empty, an
    accessible URL always comes with its status in [200,400), and a
    valid verdict passes the filter of the run and carries the note
    "URL accessible (status); Company domain valid; No red flags". *)
Theorem verdict_consistency (n : Net) (j : ScrapedJob) :
  let v := Verifier.verifyJob n j in
  redFlags v = Verifier.detectRedFlags j /\
  (hasRedFlags v = true <-> redFlags v <> []) /\
  (urlAccessible v = true ->
   exists st, urlStatus v = Some st /\ 200 <= st < 400) /\
  (isValid v = true ->
   urlAccessible v = true /\ companyDomainValid v = true /\
   redFlags v = [] /\ Pipeline.passes (Some v) = true /\
   exists st, notes v = "URL accessible (" ++ Js.showZ st ++
                        "); Company domain valid; No red flags").
Proof.
  cbn zeta. unfold Verifier.verifyJob.
  pose proof (accessible_status n (applyUrl j)) as Hacc.
  destruct (Verifier.checkUrlAccessibility n (applyUrl j)) as [acc status].
  cbn [fst snd] in Hacc.
  cbn [redFlags hasRedFlags urlAccessible urlStatus isValid
       companyDomainValid notes].
  split; [reflexivity |]. split.
  { destruct (Verifier.detectRedFlags j); cbn; split; intros H;
      try discriminate; try reflexivity; congruence. }
  split; [apply Hacc |].
  intros Hvalid. apply andb_prop in Hvalid as [Hvalid Hflags].
  apply andb_prop in Hvalid as [Ha Hd]. apply negb_true_iff in Hflags.
  split; [exact Ha |]. split; [exact Hd |].
  destruct (Verifier.detectRedFlags j) as [|f fs]; [| discriminate Hflags].
  split; [reflexivity |]. split.
  - unfold Pipeline.passes. cbn. rewrite Ha. reflexivity.
  - destruct (proj1 Hacc Ha) as [st [-> _]]. exists st.
    rewrite Ha, Hd. cbn [Js.join Verifier.showStatus List.length Nat.ltb Nat.leb].
    rewrite !append_assoc. reflexivity.
Qed.

(** The verdict on the Acme posting is valid. *)
Lemma verdict_consistency_witness :
  Pipeline.passes (Some (Verifier.verifyJob acmeNet acmeJob)) = true /\
  notes (Verifier.verifyJob acmeNet acmeJob) =
    "URL accessible (200); Company domain valid; No red flags".
Proof.
  destruct (verdict_consistency acmeNet acmeJob) as (_ & _ & _ & H).
  destruct (H eq_refl) as (_ & _ & _ & Hp & _).
  split; [exact Hp | reflexivity].
Defined.

(** ** The rule engine: ranges and consistency of its result *)

Lemma short_long_exclusive j :
  Rules.longDescription j = true -> Rules.shortDescription j = false.
Proof.
  unfold Rules.longDescription, Rules.shortDescription.
  intros H. apply andb_prop in H as [Ht Hl]. rewrite Ht. cbn.
  apply Z.ltb_lt in Hl. apply Z.ltb_ge. lia.
Qed.

Lemma b2z_range b : 0 <= b2z b <= 1.
Proof. destruct b; cbn; lia. Qed.

Lemma concern_lists c msg d a :
  Z.of_nat (List.length (Rules.accConcerns (Rules.concern c msg d a))) =
    Z.of_nat (List.length (Rules.accConcerns a)) + b2z c /\
  Rules.accPositive (Rules.concern c msg d a) = Rules.accPositive a.
Proof.
  destruct c; cbn; [| split; [lia | reflexivity]].
  rewrite length_app. cbn. split; [lia | reflexivity].
Qed.

Lemma positive_lists c msg d a :
  Z.of_nat (List.length (Rules.accPositive (Rules.positive c msg d a))) =
    Z.of_nat (List.length (Rules.accPositive a)) + b2z c /\
  Rules.accConcerns (Rules.positive c msg d a) = Rules.accConcerns a.
Proof.
  destruct c; cbn; [| split; [lia | reflexivity]].
  rewrite length_app. cbn. split; [lia | reflexivity].
Qed.

Lemma concerns_accumulate j :
  Z.of_nat (List.length (Rules.accConcerns (Rules.accumulate j))) =
    negativeSignals j /\
  Z.of_nat (List.length (Rules.accPositive (Rules.accumulate j))) =
    positiveCount j.
Proof.
  unfold Rules.accumulate, negativeSignals, positiveCount. split.
  - rewrite !(fun c m d a => proj2 (positive_lists c m d a)).
    rewrite !(fun c m d a => proj1 (concern_lists c m d a)). cbn. lia.
  - rewrite !(fun c m d a => proj1 (positive_lists c m d a)).
    rewrite !(fun c m d a => proj2 (concern_lists c m d a)). cbn. lia.
Qed.

Lemma signal_bounds j :
  0 <= negativeSignals j <= 5 /\ 0 <= positiveCount j <= 4 /\
  b2z (Rules.shortDescription j) + b2z (Rules.longDescription j) <= 1.
Proof.
  unfold negativeSignals, positiveCount.
  pose proof (b2z_range (Rules.urgency j)).
  pose proof (b2z_range (Rules.contradictory j)).
  pose proof (b2z_range (Rules.undisclosed j)).
  pose proof (b2z_range (Rules.shortDescription j)).
  pose proof (b2z_range (Rules.tooGood j)).
  pose proof (b2z_range (Rules.salaryRange j)).
  pose proof (b2z_range (Rules.teamStructure j)).
  pose proof (b2z_range (Rules.atsUrl j)).
  pose proof (b2z_range (Rules.longDescription j)).
  repeat split; try lia.
  pose proof (short_long_exclusive j) as Hex.
  destruct (Rules.longDescription j); [rewrite (Hex eq_refl) |]; cbn; lia.
Qed.

Lemma rule_score_closed j :
  legitimacyScore (Rules.analyzeWithRules j) = Rules.cap (70 + adjustments j).
Proof.
  unfold Rules.analyzeWithRules. cbn [legitimacyScore].
  rewrite score_accumulate. reflexivity.
Qed.

(** X8. Before the clamp the rule score lies between -15 and 100, a
    description being never both short and long: the upper bound of the
    clamp is never needed, the score is the larger of 0 and 70 plus the
    adjustments, and it is 100 exactly when the four positive signals
    are present and no concern is. *)
Theorem rule_score_range (j : ScrapedJob) :
  let raw := 70 + adjustments j in
  let s := legitimacyScore (Rules.analyzeWithRules j) in
  -15 <= raw <= 100 /\
  s = Z.max 0 raw /\
  (s = 100 <-> positiveCount j = 4 /\ negativeSignals j = 0).
Proof.
  cbn zeta. rewrite rule_score_closed. unfold Rules.cap.
  pose proof (signal_bounds j) as (Hn & Hp & Hex).
  unfold adjustments, positiveCount, negativeSignals in *.
  pose proof (b2z_range (Rules.urgency j)).
  pose proof (b2z_range (Rules.contradictory j)).
  pose proof (b2z_range (Rules.undisclosed j)).
  pose proof (b2z_range (Rules.shortDescription j)).
  pose proof (b2z_range (Rules.tooGood j)).
  pose proof (b2z_range (Rules.salaryRange j)).
  pose proof (b2z_range (Rules.teamStructure j)).
  pose proof (b2z_range (Rules.atsUrl j)).
  pose proof (b2z_range (Rules.longDescription j)).
  repeat split; intros; lia.
Qed.

(** The sum before the clamp never exceeds 100, so the clamp only acts
    from below. *)
Lemma rule_score_floor (j : ScrapedJob) :
  -15 <= 70 + adjustments j <= 100 /\
  legitimacyScore (Rules.analyzeWithRules j) = Z.max 0 (70 + adjustments j).
Proof.
  rewrite rule_score_closed. unfold Rules.cap.
  pose proof (signal_bounds j) as (Hn & Hp & Hex).
  unfold adjustments, positiveCount, negativeSignals in *.
  pose proof (b2z_range (Rules.urgency j)).
  pose proof (b2z_range (Rules.contradictory j)).
  pose proof (b2z_range (Rules.undisclosed j)).
  pose proof (b2z_range (Rules.shortDescription j)).
  pose proof (b2z_range (Rules.tooGood j)).
  pose proof (b2z_range (Rules.salaryRange j)).
  pose proof (b2z_range (Rules.teamStructure j)).
  pose proof (b2z_range (Rules.atsUrl j)).
  pose proof (b2z_range (Rules.longDescription j)).
  split; lia.
Qed.

(** X9. The fields of a rule-engine result agree: the ghost flag is set
    exactly when the recommendation is REJECT; the concern list has one
    entry per negative signal (at most 5) and the positive list one per
    positive signal (at most 4); a posting without concern is approved,
    and one with three or more concerns never is. *)
Theorem rule_result_consistency (j : ScrapedJob) :
  let r := Rules.analyzeWithRules j in
  (isLikelyGhostJob r = true <-> recommendation r = REJECT) /\
  Z.of_nat (List.length (concerns r)) = negativeSignals j /\
  Z.of_nat (List.length (positiveSignals r)) = positiveCount j /\
  (List.length (concerns r) <= 5)%nat /\
  (List.length (positiveSignals r) <= 4)%nat /\
  (concerns r = [] -> recommendation r = APPROVE) /\
  ((3 <= List.length (concerns r))%nat -> recommendation r <> APPROVE).
Proof.
  cbn zeta. pose proof (rule_score_closed j) as Hs.
  pose proof (concerns_accumulate j) as [Hc Hp].
  pose proof (signal_bounds j) as (Hn & Hpos & Hex).
  unfold Rules.analyzeWithRules in *.
  cbn [legitimacyScore isLikelyGhostJob recommendation concerns
       positiveSignals] in *.
  rewrite Hs.
  pose proof (recommend_cases (Rules.cap (70 + adjustments j)))
    as (Ha & Hr & Hj).
  assert (Hraw : Rules.cap (70 + adjustments j) = Z.max 0 (70 + adjustments j)
                 /\ 70 + adjustments j <= 100).
  { unfold Rules.cap, adjustments, positiveCount in *.
    pose proof (b2z_range (Rules.urgency j)).
    pose proof (b2z_range (Rules.contradictory j)).
    pose proof (b2z_range (Rules.undisclosed j)).
    pose proof (b2z_range (Rules.shortDescription j)).
    pose proof (b2z_range (Rules.tooGood j)).
    pose proof (b2z_range (Rules.salaryRange j)).
    pose proof (b2z_range (Rules.teamStructure j)).
    pose proof (b2z_range (Rules.atsUrl j)).
    pose proof (b2z_range (Rules.longDescription j)). lia. }
  split; [rewrite Z.ltb_lt; symmetry; exact Hj |].
  split; [exact Hc |]. split; [exact Hp |].
  split; [lia |]. split; [lia |]. split.
  - intros Hnil. rewrite Hnil in Hc. cbn in Hc. apply Ha.
    unfold Rules.cap, adjustments, negativeSignals in *.
    pose proof (b2z_range (Rules.urgency j)).
    pose proof (b2z_range (Rules.contradictory j)).
    pose proof (b2z_range (Rules.undisclosed j)).
    pose proof (b2z_range (Rules.shortDescription j)).
    pose proof (b2z_range (Rules.tooGood j)).
    pose proof (b2z_range (Rules.salaryRange j)).
    pose proof (b2z_range (Rules.teamStructure j)).
    pose proof (b2z_range (Rules.atsUrl j)).
    pose proof (b2z_range (Rules.longDescription j)). lia.
  - intros H3 Happ. apply Ha in Happ.
    unfold Rules.cap, adjustments, negativeSignals in *.
    pose proof (b2z_range (Rules.urgency j)).
    pose proof (b2z_range (Rules.contradictory j)).
    pose proof (b2z_range (Rules.undisclosed j)).
    pose proof (b2z_range (Rules.shortDescription j)).
    pose proof (b2z_range (Rules.tooGood j)).
    pose proof (b2z_range (Rules.salaryRange j)).
    pose proof (b2z_range (Rules.teamStructure j)).
    pose proof (b2z_range (Rules.atsUrl j)).
    pose proof (b2z_range (Rules.longDescription j)). lia.
Qed.

(** ** The scoring chain and the acceptance of its result *)

(** X10. The first provider's answer is returned as it is, and an
    APPROVE is accepted whatever score comes with it.  When neither
    provider answers, the result is the rule engine's: the posting is
    accepted exactly when its adjustments are at least -10 (a score of
    60 or more) and approved exactly when they are not negative. *)
Theorem scoring_chain_acceptance (env : Env) (j : ScrapedJob) :
  (forall r, analyzeWithOpenAI env j = Some r ->
     analyzeJobWithAI env j = r /\
     (recommendation r = APPROVE -> Pipeline.accepted r = true)) /\
  (analyzeWithOpenAI env j = None -> analyzeWithAnthropic env j = None ->
   let a := analyzeJobWithAI env j in
   a = Rules.analyzeWithRules j /\
   (Pipeline.accepted a = true <-> -10 <= adjustments j) /\
   (recommendation a = APPROVE <-> 0 <= adjustments j)).
Proof.
  unfold analyzeJobWithAI. split.
  - intros r ->. split; [reflexivity |].
    intros Hr. unfold Pipeline.accepted. rewrite Hr. reflexivity.
  - intros -> ->. cbn zeta. split; [reflexivity |].
    pose proof (rule_score_closed j) as Hs.
    pose proof (rule_score_floor j) as (Hraw & Hmax).
    pose proof (recommend_cases (legitimacyScore (Rules.analyzeWithRules j)))
      as (Ha & Hr & Hj).
    assert (Hrec : recommendation (Rules.analyzeWithRules j) =
                   Rules.recommend (legitimacyScore (Rules.analyzeWithRules j)))
      by reflexivity.
    rewrite accepted_spec. unfold acceptable. rewrite Hrec, Ha, Hr. lia.
Qed.

(** A provider that approves with a score of 5 gets the posting
    accepted. *)
Lemma scoring_chain_acceptance_witness :
  legitimacyScore (analyzeJobWithAI lenientProviderEnv acmeJob) = 5 /\
  Pipeline.accepted (analyzeJobWithAI lenientProviderEnv acmeJob) = true /\
  map verification_status (snd (Pipeline.runPipeline lenientProviderEnv []))
    = [VERIFIED].
Proof.
  destruct (proj1 (scoring_chain_acceptance lenientProviderEnv acmeJob)
              _ eq_refl) as [Hr Hacc].
  split; [rewrite Hr; reflexivity |].
  split; [rewrite Hr; apply Hacc; reflexivity | vm_compute; reflexivity].
Defined.

(** ** What a run does to the table *)

Lemma insertOne_appends env s x :
  (exists v, verification x = Some v /\
             insertOutcome env (job x) = Inserted /\
             Pipeline.table (Pipeline.insertOne env s x) =
               (Pipeline.table s ++
                [mkRow (Storage.freshId (Pipeline.table s))
                   (Pipeline.payload env (Pipeline.ticks s) (job x)
                      (aiAnalysis x) v)])%list /\
             Pipeline.added (Pipeline.insertOne env s x) = Pipeline.added s + 1) \/
  (Pipeline.table (Pipeline.insertOne env s x) = Pipeline.table s /\
   Pipeline.added (Pipeline.insertOne env s x) = Pipeline.added s).
Proof.
  unfold Pipeline.insertOne. destruct (verification x) as [v|]; [| right; auto].
  destruct (insertOutcome env (job x)) eqn:E; [| right; auto | right; auto].
  left. exists v. repeat split; reflexivity.
Qed.

Lemma payload_row_shape env k j a v :
  let p := Pipeline.payload env k j a v in
  ((ins_verification_status p = VERIFIED /\
    exists t, ins_last_verified_at p = Some t) \/
   (ins_verification_status p = PENDING /\ ins_last_verified_at p = None)) /\
  ins_apply_url p = applyUrl j /\ ins_source_url p = sourceUrl j.
Proof.
  cbn. destruct (Recommendation_eqb (recommendation a) APPROVE);
    (split; [| split; reflexivity]); [left | right]; split; eauto.
Qed.

Lemma insertAll_appends env (Q : JobRow -> Prop) xs : forall s,
  (forall x v k, In x xs -> verification x = Some v ->
     Q (mkRow k (Pipeline.payload env k (job x) (aiAnalysis x) v)) /\
     forall k' k'', Q (mkRow k' (Pipeline.payload env k'' (job x) (aiAnalysis x) v))) ->
  exists rows,
    Pipeline.table (Pipeline.insertAll env s xs) = (Pipeline.table s ++ rows)%list /\
    Z.of_nat (List.length rows) =
      Pipeline.added (Pipeline.insertAll env s xs) - Pipeline.added s /\
    Forall Q rows.
Proof.
  unfold Pipeline.insertAll.
  induction xs as [|x xs IH]; intros s HQ; cbn [fold_left].
  - exists []. rewrite app_nil_r. repeat split; [cbn; lia | constructor].
  - destruct (IH (Pipeline.insertOne env s x)) as (rows & Ht & Hl & Hq).
    { intros y v k Hy. apply HQ. right. exact Hy. }
    destruct (insertOne_appends env s x)
      as [(v & Hv & _ & Htab & Hadd) | [Htab Hadd]].
    + eexists (_ :: rows). rewrite Ht, Htab, <- app_assoc. cbn [app].
      split; [reflexivity |]. split; [cbn [List.length]; lia |].
      constructor; [| exact Hq].
      apply (HQ x v 0%nat (or_introl eq_refl) Hv).
    + exists rows. rewrite Ht, Htab. repeat split; [lia | exact Hq].
Qed.

(** The table after a run is the table before it followed by the rows
    of the insert loop, each built from an accepted posting. *)
Lemma run_table_shape (env : Env) (st : Store) :
  exists rows,
    snd (Pipeline.runPipeline env st) = (st ++ rows)%list /\
    Z.of_nat (List.length rows) = addedCount (fst (Pipeline.runPipeline env st)) /\
    Forall (insertedRow env st) rows.
Proof.
  destruct (runPipeline_loop env st) as [errs [Htable Hadded]].
  cbn zeta in Htable, Hadded.
  destruct (insertAll_appends env (insertedRow env st)
              (Pipeline.approvedJobsOf env st) (Pipeline.mkLoop st 1 0 errs))
    as (rows & Ht & Hl & Hq).
  { intros x v k Hx Hv.
    apply approved_spec in Hx as [j (Hj & -> & _)]. cbn in *.
    assert (forall k' k'', insertedRow env st
              (mkRow k' (Pipeline.payload env k'' j (assessmentOf env j) v))).
    { intros k' k''. unfold insertedRow.
      destruct (payload_row_shape env k'' j (assessmentOf env j) v)
        as (Hshape & Ha & Hs).
      split; [exact Hshape |]. exists j. auto. }
    split; auto. }
  exists rows. rewrite Htable, Hadded. cbn [Pipeline.table Pipeline.added] in *.
  split; [exact Ht |]. split; [lia | exact Hq].
Qed.

(** X11. A run only appends to the table: the rows it finds stay as
    they are, in place; the rows appended are as many as the run reports
    added; each of them is VERIFIED with a timestamp or PENDING without
    one, and carries the URLs of a posting that passed the filter after
    verification. *)
Theorem run_appends_rows (env : Env) (st : Store) :
  exists rows,
    snd (Pipeline.runPipeline env st) = (st ++ rows)%list /\
    Z.of_nat (List.length rows) = addedCount (fst (Pipeline.runPipeline env st)) /\
    Forall (insertedRow env st) rows.
Proof. exact (run_table_shape env st). Qed.

(** ** An invariant of the table kept by both entry points *)

Lemma update_rows st key patch r' :
  In r' (Storage.update st key patch) ->
  In r' st \/ exists r, In r st /\ id r = key /\ r' = mkRow key (patch (cols r)).
Proof.
  unfold Storage.update. intros H. apply in_map_iff in H as [r [E Hr]].
  destruct (id r =? key)%nat eqn:Ek.
  - apply Nat.eqb_eq in Ek. right. exists r. subst. auto.
  - left. subst. exact Hr.
Qed.

(** A row of the table after one check is a row of the table before,
    or a patched one: BROKEN_LINK, or with a timestamp. *)
Lemma checkOne_rows env s r r' :
  In r' (Sweep.table (Sweep.checkOne env s r)) ->
  In r' (Sweep.table s) \/
  (exists r0, In r0 (Sweep.table s) /\ id r' = id r0 /\
     ins_title (cols r') = ins_title (cols r0) /\
     ((verification_status r' = BROKEN_LINK /\
       last_verified_at r' = last_verified_at r0) \/
      (verification_status r' = verification_status r0 /\
       exists t, last_verified_at r' = Some t))).
Proof.
  unfold Sweep.checkOne.
  destruct (fetchHead (net env) (apply_url r)) as [st|];
    [destruct (Verifier.okStatus st) |]; cbn [Sweep.table]; intros H;
    apply update_rows in H as [H | (r0 & Hr0 & Hid & ->)]; auto;
    right; exists r0; (split; [exact Hr0 |]); (split; [symmetry; exact Hid |]);
    (split; [reflexivity |]).
  - right. split; [reflexivity | eexists; reflexivity].
  - left. split; reflexivity.
  - left. split; reflexivity.
Qed.

Lemma sweep_keeps_wellDated env rows : forall s,
  wellDated (Sweep.table s) ->
  wellDated (Sweep.table (fold_left (Sweep.checkOne env) rows s)).
Proof.
  induction rows as [|r rows IH]; intros s Hwd; [exact Hwd |].
  cbn [fold_left]. apply IH. intros r' Hin Hst.
  apply checkOne_rows in Hin
    as [Hin | (r0 & Hr0 & _ & _ & [[Hb _] | [Hs [t Ht]]])].
  - apply Hwd; assumption.
  - rewrite Hb in Hst. discriminate.
  - rewrite Ht. discriminate.
Qed.

(** X12. Both entry points keep the table well dated: if every
    VERIFIED row has a last-verified timestamp before an ingestion run
    or a re-verification sweep, every VERIFIED row has one after it; no
    run or sweep leaves a VERIFIED row that neither the listing nor the
    next sweep can select. *)
Theorem table_stays_well_dated (env : Env) (st : Store) :
  wellDated st ->
  wellDated (snd (Pipeline.runPipeline env st)) /\
  wellDated (snd (Sweep.reverifyExistingJobs env st)).
Proof.
  intros Hwd. split.
  - destruct (run_table_shape env st) as (rows & -> & _ & Hrows).
    intros r Hin Hst. apply in_app_or in Hin as [Hin | Hin].
    + apply Hwd; assumption.
    + rewrite Forall_forall in Hrows.
      destruct (Hrows r Hin) as [[[_ [t Ht]] | [Hp _]] _].
      * rewrite Ht. discriminate.
      * rewrite Hp in Hst. discriminate.
  - unfold Sweep.reverifyExistingJobs.
    destruct (staleReadError env); [exact Hwd |].
    destruct (List.length (Sweep.jobsToCheck env st) =? 0)%nat; [exact Hwd |].
    cbn [snd]. apply sweep_keeps_wellDated. exact Hwd.
Qed.

(** ** The counters and the error list of a run *)

Lemma approved_le_valid env st :
  Pipeline.count (Pipeline.approvedJobsOf env st) <=
  Pipeline.count (Pipeline.validJobsOf env st).
Proof.
  unfold Pipeline.approvedJobsOf, Pipeline.combined, Pipeline.count.
  match goal with
  | |- context [filter ?f (map ?g ?l)] =>
      pose proof (filter_length_le f (map g l)) as H
  end.
  rewrite length_map in H. lia.
Qed.

Lemma valid_le_new env st :
  Pipeline.count (Pipeline.validJobsOf env st) <=
  Pipeline.count (Pipeline.newJobsOf env st) /\
  Pipeline.count (Pipeline.newJobsOf env st) <=
  Pipeline.count (Pipeline.jobsOf env).
Proof.
  unfold Pipeline.validJobsOf, Pipeline.newJobsOf, Pipeline.count. split.
  - match goal with
    | |- context [filter ?f (filter ?g ?l)] =>
        pose proof (filter_length_le f (filter g l))
    end. lia.
  - match goal with
    | |- context [filter ?g ?l] => pose proof (filter_length_le g l)
    end. lia.
Qed.

(** X13. The counters of a run are consistent on every path: none is
    negative, the added postings are among the verified ones, the
    verified ones among those not skipped, and the added and the failed
    together never exceed the postings that were not skipped. *)
Theorem run_counter_bounds (env : Env) (st : Store) :
  let res := fst (Pipeline.runPipeline env st) in
  0 <= skippedCount res /\ 0 <= failedCount res /\
  0 <= addedCount res <= verifiedCount res /\
  verifiedCount res <= scrapedCount res - skippedCount res /\
  addedCount res + failedCount res <= scrapedCount res - skippedCount res.
Proof.
  cbn zeta.
  pose proof (approved_le_valid env st) as Hav.
  pose proof (valid_le_new env st) as [Hvn Hnj].
  unfold Pipeline.runPipeline.
  destruct (List.length (Pipeline.jobsOf env) =? 0)%nat;
    [cbn; lia |].
  destruct (List.length (Pipeline.newJobsOf env st) =? 0)%nat;
    [cbn; unfold Pipeline.count in *; lia |].
  destruct (List.length (Pipeline.validJobsOf env st) =? 0)%nat;
    [cbn; unfold Pipeline.count in *; lia |].
  cbn [fst scrapedCount skippedCount addedCount failedCount verifiedCount].
  rewrite insertAll_added. cbn [Pipeline.added].
  pose proof (count_split (taken env) (Pipeline.approvedJobsOf env st)).
  unfold Pipeline.count in *. lia.
Qed.

Lemma insertAll_errors env xs : forall s,
  Pipeline.count (Pipeline.loopErrors (Pipeline.insertAll env s xs)) =
  Pipeline.count (Pipeline.loopErrors s) +
  Pipeline.count (filter (fun x => negb (taken env x)) xs).
Proof.
  unfold Pipeline.insertAll, Pipeline.count.
  induction xs as [|x xs IH]; intros s; cbn [fold_left filter].
  - cbn. lia.
  - rewrite IH. unfold Pipeline.insertOne, taken.
    destruct (verification x);
      [destruct (insertOutcome env (job x)) |];
      cbn [Pipeline.loopErrors negb List.length]; rewrite ?length_app;
      cbn [List.length]; lia.
Qed.

(** X14. The error list of a run holds one string per approved posting
    whose insert fails, after at most four strings for stages that
    reject: it is as long as the failed inserts are many when no stage
    rejects, and empty when moreover every insert is taken. *)
Theorem run_error_list (env : Env) (st : Store) :
  let res := fst (Pipeline.runPipeline env st) in
  Pipeline.count (failedInserts env st) <= Pipeline.count (errors res) <=
    4 + Pipeline.count (failedInserts env st) /\
  (stagesSucceed env ->
   Pipeline.count (errors res) = Pipeline.count (failedInserts env st)).
Proof.
  cbn zeta.
  assert (Hstage :
    Pipeline.count (Pipeline.scrapeErrors env) <= 1 /\
    Pipeline.count (Pipeline.existingReadErrors env) <= 1 /\
    Pipeline.count (Pipeline.verifyErrors env) <= 1 /\
    Pipeline.count (Pipeline.analysisErrors env) <= 1).
  { unfold Pipeline.scrapeErrors, Pipeline.existingReadErrors,
      Pipeline.verifyErrors, Pipeline.analysisErrors, Pipeline.count.
    destruct (scraped env), (existingRead env), (verifyStageThrew env),
      (analysisStageThrew env); cbn; lia. }
  assert (Hok : stagesSucceed env ->
    Pipeline.scrapeErrors env = [] /\ Pipeline.existingReadErrors env = [] /\
    Pipeline.verifyErrors env = [] /\ Pipeline.analysisErrors env = []).
  { intros ([src Hs] & Hr & Hv & Ha).
    unfold Pipeline.scrapeErrors, Pipeline.existingReadErrors,
      Pipeline.verifyErrors, Pipeline.analysisErrors.
    rewrite Hs, Hv, Ha. destruct (existingRead env) eqn:E; auto.
    exfalso. exact (Hr _ eq_refl). }
  destruct Hstage as (H1 & H2 & H3 & H4).
  unfold Pipeline.runPipeline.
  destruct (List.length (Pipeline.jobsOf env) =? 0)%nat eqn:Hjobs.
  { unfold failedInserts, Pipeline.approvedJobsOf, Pipeline.combined,
      Pipeline.validJobsOf, Pipeline.newJobsOf.
    rewrite (length_zero_nil _ Hjobs). cbn [fst errors filter map].
    split; [unfold Pipeline.count in *; cbn [List.length]; lia |].
    intros Hs. destruct (Hok Hs) as (-> & _). reflexivity. }
  destruct (List.length (Pipeline.newJobsOf env st) =? 0)%nat eqn:Hnew.
  { unfold failedInserts, Pipeline.approvedJobsOf, Pipeline.combined,
      Pipeline.validJobsOf.
    rewrite (length_zero_nil _ Hnew). cbn [fst errors filter map].
    unfold Pipeline.count in *. rewrite length_app.
    split; [cbn [List.length]; lia |].
    intros Hs. destruct (Hok Hs) as (-> & -> & _). reflexivity. }
  destruct (List.length (Pipeline.validJobsOf env st) =? 0)%nat eqn:Hvalid.
  { unfold failedInserts, Pipeline.approvedJobsOf, Pipeline.combined.
    rewrite (length_zero_nil _ Hvalid). cbn [fst errors filter map].
    unfold Pipeline.count in *. rewrite !length_app.
    split; [cbn [List.length]; lia |].
    intros Hs. destruct (Hok Hs) as (-> & -> & -> & _). reflexivity. }
  cbn [fst errors]. rewrite insertAll_errors. cbn [Pipeline.loopErrors].
  fold (failedInserts env st).
  unfold Pipeline.count in *. rewrite !length_app.
  split; [lia |].
  intros Hs. destruct (Hok Hs) as (-> & -> & -> & ->). cbn [List.length]. lia.
Qed.

(** ** What a sweep does to the table *)

Lemma update_postings st key patch :
  (forall c, postingOf (mkRow key (patch c)) = postingOf (mkRow key c)) ->
  map postingOf (Storage.update st key patch) = map postingOf st.
Proof.
  intros Hpatch. unfold Storage.update. rewrite map_map. apply map_ext_in.
  intros r _. destruct (id r =? key)%nat eqn:E; [| reflexivity].
  apply Nat.eqb_eq in E. subst key. rewrite Hpatch. destruct r; reflexivity.
Qed.

Lemma checkOne_postings env s r :
  map postingOf (Sweep.table (Sweep.checkOne env s r)) =
  map postingOf (Sweep.table s).
Proof.
  unfold Sweep.checkOne.
  destruct (fetchHead (net env) (apply_url r)) as [st|];
    [destruct (Verifier.okStatus st) |]; cbn [Sweep.table];
    apply update_postings; intros c; reflexivity.
Qed.

Lemma sweep_postings env rows : forall s,
  map postingOf (Sweep.table (fold_left (Sweep.checkOne env) rows s)) =
  map postingOf (Sweep.table s).
Proof.
  induction rows as [|r rows IH]; intros s; [reflexivity |].
  cbn [fold_left]. rewrite IH. apply checkOne_postings.
Qed.

Lemma sweep_table_postings (env : Env) (st : Store) :
  map postingOf (snd (Sweep.reverifyExistingJobs env st)) = map postingOf st.
Proof.
  unfold Sweep.reverifyExistingJobs.
  destruct (staleReadError env); [reflexivity |].
  destruct (List.length (Sweep.jobsToCheck env st) =? 0)%nat; [reflexivity |].
  cbn [snd]. apply sweep_postings.
Qed.

(** X15. A sweep changes nothing but status, timestamp and notes: the
    table keeps its rows, in order, each with its key, title, company,
    location, salary bounds, URLs and source, whatever the network
    answers and even when the query of the sweep fails. *)
Theorem sweep_keeps_postings (env : Env) (st : Store) :
  map postingOf (snd (Sweep.reverifyExistingJobs env st)) = map postingOf st /\
  List.length (snd (Sweep.reverifyExistingJobs env st)) = List.length st.
Proof.
  pose proof (sweep_table_postings env st) as H.
  split; [exact H |].
  rewrite <- (length_map postingOf), H. apply length_map.
Qed.




(** ** The pages that show the listing *)

Lemma insertDesc_perm r l : Permutation (Pages.insertDesc r l) (r :: l).
Proof.
  induction l as [|x l IH]; cbn; [apply Permutation_refl |].
  destruct (Pages.notOlder r x); [apply Permutation_refl |].
  apply perm_trans with (x :: r :: l); [| apply perm_swap].
  apply perm_skip. exact IH.
Qed.

Lemma orderDesc_perm l : Permutation (Pages.orderDesc l) l.
Proof.
  unfold Pages.orderDesc. induction l as [|x l IH]; cbn; [constructor |].
  apply perm_trans with (x :: fold_right Pages.insertDesc [] l);
    [apply insertDesc_perm | apply perm_skip; exact IH].
Qed.

Lemma notOlder_total a b :
  Pages.notOlder a b = false -> Pages.notOlder b a = true.
Proof.
  unfold Pages.notOlder.
  destruct (last_verified_at a), (last_verified_at b); try discriminate;
    try reflexivity.
  intros H. apply Z.leb_gt in H. apply Z.leb_le. lia.
Qed.

Lemma notOlder_trans a b c :
  Pages.notOlder a b = true -> Pages.notOlder b c = true ->
  Pages.notOlder a c = true.
Proof.
  unfold Pages.notOlder.
  destruct (last_verified_at a), (last_verified_at b), (last_verified_at c);
    try discriminate; try reflexivity.
  rewrite !Z.leb_le. lia.
Qed.

Lemma insertDesc_sorted r l :
  StronglySorted (fun a b => Pages.notOlder a b = true) l ->
  StronglySorted (fun a b => Pages.notOlder a b = true) (Pages.insertDesc r l).
Proof.
  induction l as [|x l IH]; intros Hs; cbn.
  - constructor; constructor.
  - inversion Hs as [|? ? Hs' Hx]; subst.
    destruct (Pages.notOlder r x) eqn:E.
    + constructor; [exact Hs |]. constructor; [exact E |].
      rewrite Forall_forall in *. intros y Hy.
      apply (notOlder_trans r x y E). apply Hx. exact Hy.
    + constructor; [apply IH; exact Hs' |].
      rewrite Forall_forall in *. intros y Hy.
      apply (Permutation_in _ (insertDesc_perm r l)) in Hy.
      destruct Hy as [<- | Hy]; [apply notOlder_total; exact E | apply Hx; exact Hy].
Qed.

Lemma orderDesc_sorted l :
  StronglySorted (fun a b => Pages.notOlder a b = true) (Pages.orderDesc l).
Proof.
  unfold Pages.orderDesc. induction l as [|x l IH]; cbn; [constructor |].
  apply insertDesc_sorted. exact IH.
Qed.

Lemma sorted_split {A} (R : A -> A -> Prop) l1 : forall l2,
  StronglySorted R (l1 ++ l2) ->
  forall a b, In a l1 -> In b l2 -> R a b.
Proof.
  induction l1 as [|x l1 IH]; intros l2 Hs a b Ha Hb; [contradiction |].
  cbn in Hs. inversion Hs as [|? ? Hs' Hx]; subst.
  destruct Ha as [<- | Ha].
  - rewrite Forall_forall in Hx. apply Hx. apply in_or_app. right. exact Hb.
  - apply (IH l2 Hs' a b Ha Hb).
Qed.

Lemma in_firstn {A} (n : nat) (l : list A) (x : A) :
  In x (firstn n l) -> In x l.
Proof.
  intros H. rewrite <- (firstn_skipn n l). apply in_or_app. left. exact H.
Qed.

(** X17. The preview of the home page shows at most five rows, all of
    them selected by the listing query, and the latest ones: the other
    matching rows are none of them more recent than a row shown.  The
    link to all the jobs appears exactly when more than five rows
    match. *)
Theorem home_page_preview (now : Z) (st : Store) :
  let shown := Pages.homePagePreview now st in
  (List.length shown <= 5)%nat /\
  (forall r, In r shown -> Listing.selected now r = true) /\
  (exists rest,
      Permutation (Listing.matching now st) (shown ++ rest) /\
      forall a b, In a shown -> In b rest -> Pages.notOlder a b = true) /\
  (Pages.homePageShowsMore now st = true <->
   (5 < List.length (Listing.matching now st))%nat).
Proof.
  cbn zeta. unfold Pages.homePagePreview, Pages.homePageShowsMore,
    Pages.homePageJobs.
  set (L := Pages.orderDesc (Listing.matching now st)).
  assert (Hperm : Permutation L (Listing.matching now st))
    by apply orderDesc_perm.
  rewrite firstn_firstn. change (Nat.min 5 10) with 5%nat.
  split; [apply firstn_le_length |]. split.
  - intros r Hr.
    assert (In r L) by (apply (in_firstn _ _ _ Hr)).
    assert (Hm : In r (Listing.matching now st))
      by (apply (Permutation_in _ Hperm); assumption).
    unfold Listing.matching in Hm. apply filter_In in Hm. tauto.
  - split.
    + exists (skipn 5 L). split.
      * rewrite firstn_skipn. apply Permutation_sym. exact Hperm.
      * apply (sorted_split (fun a b => Pages.notOlder a b = true)).
        rewrite firstn_skipn. apply orderDesc_sorted.
    + rewrite Nat.ltb_lt, length_firstn, (Permutation_length Hperm). lia.
Qed.

(** X18. The job list of an account: the visible cards and the hidden
    count add up to the filtered jobs; an account that has not paid sees
    the first [freeLimit] filtered jobs and no more, then at most three
    blurred cards, which are the next filtered jobs; an account that has
    paid sees every filtered job and no blurred card. *)
Theorem job_list_accounting (jobs filteredJobs : list JobRow)
    (hasPaid : bool) (freeLimit : nat) :
  let vis := Pages.visibleJobs filteredJobs hasPaid freeLimit in
  let blur := Pages.blurredJobs jobs filteredJobs hasPaid freeLimit in
  Z.of_nat (List.length vis) + Pages.hiddenCount filteredJobs hasPaid freeLimit
    = Z.of_nat (List.length filteredJobs) /\
  (exists hidden, filteredJobs = (vis ++ hidden)%list /\
                  exists tail, hidden = (blur ++ tail)%list) /\
  (List.length blur <= 3)%nat /\
  (hasPaid = false -> (List.length vis <= freeLimit)%nat) /\
  (hasPaid = true -> vis = filteredJobs /\ blur = []).
Proof.
  cbn zeta. unfold Pages.visibleJobs, Pages.hiddenCount, Pages.blurredJobs,
    Pages.shouldShowPaywall.
  destruct hasPaid; cbn [negb andb].
  - split; [lia |]. split.
    + exists []. rewrite app_nil_r. split; [reflexivity |].
      exists []. destruct (List.length filteredJobs =? 0)%nat; reflexivity.
    + destruct (List.length filteredJobs =? 0)%nat; cbn;
        repeat split; try lia; try discriminate.
  - split; [rewrite length_firstn; lia |]. split.
    + exists (skipn freeLimit filteredJobs).
      split; [symmetry; apply firstn_skipn |].
      destruct (List.length filteredJobs =? 0)%nat eqn:E.
      * exists []. rewrite (length_zero_nil _ E). destruct freeLimit; reflexivity.
      * destruct (freeLimit <? List.length jobs)%nat.
        -- exists (skipn 3 (skipn freeLimit filteredJobs)).
           symmetry. apply firstn_skipn.
        -- exists (skipn freeLimit filteredJobs). reflexivity.
    + split.
      * destruct (List.length filteredJobs =? 0)%nat; [cbn; lia |].
        destruct (freeLimit <? List.length jobs)%nat; [| cbn; lia].
        apply firstn_le_length.
      * split; [intros _; apply firstn_le_length | discriminate].
Qed.

(** ** Display helpers *)

(** The four thresholds of [formatDistanceToNow], on the difference in
    milliseconds. *)
Lemma distance_cases (toLocale : Z -> string) (now date : Z) :
  let d := now - date in
  let s := Utils.formatDistanceToNow toLocale now date in
  (d < 60000 -> s = "just now") /\
  (60000 <= d < 3600000 ->
   exists m, 1 <= m <= 59 /\ m * 60000 <= d < (m + 1) * 60000 /\
             s = Js.showZ m ++ "m ago") /\
  (3600000 <= d < 86400000 ->
   exists h, 1 <= h <= 23 /\ h * 3600000 <= d < (h + 1) * 3600000 /\
             s = Js.showZ h ++ "h ago") /\
  (86400000 <= d < 604800000 ->
   exists k, 1 <= k <= 6 /\ k * 86400000 <= d < (k + 1) * 86400000 /\
             s = Js.showZ k ++ "d ago") /\
  (604800000 <= d -> s = toLocale date).
Proof.
  cbn zeta. unfold Utils.formatDistanceToNow.
  set (d := now - date).
  assert (Hh : d / 60000 / 60 = d / 3600000)
    by (rewrite Z.div_div by lia; reflexivity).
  assert (Hd : d / 60000 / 60 / 24 = d / 86400000)
    by (rewrite !Z.div_div by lia; reflexivity).
  rewrite Hd, Hh.
  pose proof (Z.div_mod d 60000 ltac:(lia)) as E1.
  pose proof (Z.mod_pos_bound d 60000 ltac:(lia)) as B1.
  pose proof (Z.div_mod d 3600000 ltac:(lia)) as E2.
  pose proof (Z.mod_pos_bound d 3600000 ltac:(lia)) as B2.
  pose proof (Z.div_mod d 86400000 ltac:(lia)) as E3.
  pose proof (Z.mod_pos_bound d 86400000 ltac:(lia)) as B3.
  repeat split.
  - intros H. assert ((d / 60000 <? 1) = true) as -> by (apply Z.ltb_lt; lia).
    reflexivity.
  - intros H. exists (d / 60000).
    assert ((d / 60000 <? 1) = false) as -> by (apply Z.ltb_ge; lia).
    assert ((d / 60000 <? 60) = true) as -> by (apply Z.ltb_lt; lia).
    repeat split; lia.
  - intros H. exists (d / 3600000).
    assert ((d / 60000 <? 1) = false) as -> by (apply Z.ltb_ge; lia).
    assert ((d / 60000 <? 60) = false) as -> by (apply Z.ltb_ge; lia).
    assert ((d / 3600000 <? 24) = true) as -> by (apply Z.ltb_lt; lia).
    repeat split; lia.
  - intros H. exists (d / 86400000).
    assert ((d / 60000 <? 1) = false) as -> by (apply Z.ltb_ge; lia).
    assert ((d / 60000 <? 60) = false) as -> by (apply Z.ltb_ge; lia).
    assert ((d / 3600000 <? 24) = false) as -> by (apply Z.ltb_ge; lia).
    assert ((d / 86400000 <? 7) = true) as -> by (apply Z.ltb_lt; lia).
    repeat split; lia.
  - intros H.
    assert ((d / 60000 <? 1) = false) as -> by (apply Z.ltb_ge; lia).
    assert ((d / 60000 <? 60) = false) as -> by (apply Z.ltb_ge; lia).
    assert ((d / 3600000 <? 24) = false) as -> by (apply Z.ltb_ge; lia).
    assert ((d / 86400000 <? 7) = false) as -> by (apply Z.ltb_ge; lia).
    reflexivity.
Qed.

(** X19. The age shown for a date: "just now" for anything younger
    than a minute, a date in the future included; then whole minutes
    from 1 to 59, whole hours from 1 to 23 and whole days from 1 to 6,
    each rounded down; the locale date from seven days on. *)
Theorem distance_buckets (toLocale : Z -> string) (now date : Z) :
  let d := now - date in
  let s := Utils.formatDistanceToNow toLocale now date in
  (d < 60000 -> s = "just now") /\
  (60000 <= d < 3600000 ->
   exists m, 1 <= m <= 59 /\ m * 60000 <= d < (m + 1) * 60000 /\
             s = Js.showZ m ++ "m ago") /\
  (3600000 <= d < 86400000 ->
   exists h, 1 <= h <= 23 /\ h * 3600000 <= d < (h + 1) * 3600000 /\
             s = Js.showZ h ++ "h ago") /\
  (86400000 <= d < 604800000 ->
   exists k, 1 <= k <= 6 /\ k * 86400000 <= d < (k + 1) * 86400000 /\
             s = Js.showZ k ++ "d ago") /\
  (604800000 <= d -> s = toLocale date).
Proof. exact (distance_cases toLocale now date). Qed.

(** A date 90 minutes back is shown as "1h ago". *)
Lemma distance_buckets_witness :
  Utils.formatDistanceToNow (fun _ => "11/3/2026") someNoon
    (someNoon - 90 * 60000) = "1h ago".
Proof.
  destruct (distance_buckets (fun _ => "11/3/2026") someNoon
              (someNoon - 90 * 60000)) as (_ & _ & H & _).
  destruct (H ltac:(cbn; lia)) as (h & _ & _ & _).
  reflexivity.
Defined.

Lemma string_length_append (a b : string) :
  String.length (a ++ b) = (String.length a + String.length b)%nat.
Proof. induction a as [|x a IH]; cbn; [reflexivity | rewrite IH; reflexivity]. Qed.

(** Two ages with different units are different strings. *)
Lemma unit_suffix_differs (x : string) (u : ascii) :
  u <> "d"%char -> x ++ String u " ago" <> "2d ago".
Proof.
  intros Hu E. pose proof (f_equal String.length E) as Hlen.
  rewrite string_length_append in Hlen. cbn in Hlen.
  destruct x as [|a [|b x]]; cbn in Hlen; try lia.
  cbn in E. injection E as _ E. apply Hu. exact E.
Qed.

(** X20. The badge of a listed row never falls back to the locale
    date: for a row the listing query selects, the age shown is "just
    now", 1 to 59 minutes, 1 to 23 hours, "1d ago" or "2d ago", the last
    one exactly for the row verified 48 hours ago to the millisecond. *)
Theorem listed_row_badge (toLocale : Z -> string) (now : Z) (r : JobRow)
    (t : Z) :
  Listing.selected now r = true -> last_verified_at r = Some t ->
  let s := Utils.formatDistanceToNow toLocale now t in
  (s = "just now" \/
   (exists m, 1 <= m <= 59 /\ s = Js.showZ m ++ "m ago") \/
   (exists h, 1 <= h <= 23 /\ s = Js.showZ h ++ "h ago") \/
   s = "1d ago" \/ s = "2d ago") /\
  (s = "2d ago" -> now - t = Listing.WINDOW_MS).
Proof.
  intros Hsel Ht. cbn zeta.
  unfold Listing.selected, Listing.fortyEightHoursAgo, Listing.WINDOW_MS in *.
  rewrite Ht in Hsel. apply andb_prop in Hsel as [_ Hsel].
  apply Z.leb_le in Hsel.
  destruct (distance_cases toLocale now t) as (H1 & H2 & H3 & H4 & _).
  cbn zeta in *.
  assert (Hcase : now - t < 60000 \/ 60000 <= now - t < 3600000 \/
                  3600000 <= now - t < 86400000 \/
                  86400000 <= now - t < 604800000) by lia.
  destruct Hcase as [Hc | [Hc | [Hc | Hc]]].
  - rewrite (H1 Hc). split; [left; reflexivity | discriminate].
  - destruct (H2 Hc) as (m & Hm & _ & ->). split.
    + right. left. exists m. auto.
    + intros E. exfalso. revert E. apply unit_suffix_differs. discriminate.
  - destruct (H3 Hc) as (h & Hh & _ & ->). split.
    + right. right. left. exists h. auto.
    + intros E. exfalso. revert E. apply unit_suffix_differs. discriminate.
  - destruct (H4 Hc) as (k & Hk & Hkd & ->).
    assert (k = 1 \/ k = 2) as [-> | ->] by lia.
    + split; [right; right; right; left; reflexivity |].
      intros E. discriminate E.
    + split; [right; right; right; right; reflexivity |].
      intros _. lia.
Qed.

(** The row verified exactly 48 hours ago is badged "2d ago". *)
Lemma listed_row_badge_witness :
  Utils.formatDistanceToNow (fun _ => "11/1/2026") someNoon
    (someNoon - Listing.WINDOW_MS) = "2d ago".
Proof.
  destruct (listed_row_badge (fun _ => "11/1/2026") someNoon boundaryRow
              (someNoon - Listing.WINDOW_MS) eq_refl eq_refl) as [_ _].
  reflexivity.
Defined.

Lemma roundK_spec n k : Utils.roundK n = k <-> nearestThousand n k.
Proof.
  unfold Utils.roundK, nearestThousand.
  pose proof (Z.div_mod (n + 500) 1000 ltac:(lia)).
  pose proof (Z.mod_pos_bound (n + 500) 1000 ltac:(lia)). split; lia.
Qed.

Lemma formatK_safe render n :
  Z.abs n < 2 ^ 53 ->
  exists k, nearestThousand n k /\
            Utils.formatK render n = "$" ++ Js.showZ k ++ "k".
Proof.
  intros Hn. exists (Utils.roundK n). split; [apply roundK_spec; reflexivity |].
  unfold Utils.formatK. apply Z.ltb_lt in Hn. rewrite Hn. reflexivity.
Qed.

(** X21. The salary line is "Salary not listed" exactly when both
    bounds are missing or zero, a bound of zero counting as missing.
    For bounds below 2^53 in size it shows the nearest thousand of each
    bound present, a half rounded up: "$ak - $bk" for two bounds, "$ak+"
    for a minimum alone and "Up to $bk" for a maximum alone. *)
Theorem salary_line (render : Z -> string) (min max : option Z) :
  (Utils.formatSalary render min max = "Salary not listed" <->
   Js.truthyNum min = false /\ Js.truthyNum max = false) /\
  (forall lo hi, min = Some lo -> max = Some hi -> lo <> 0 -> hi <> 0 ->
     Z.abs lo < 2 ^ 53 -> Z.abs hi < 2 ^ 53 ->
     exists a b, nearestThousand lo a /\ nearestThousand hi b /\
       Utils.formatSalary render min max =
       "$" ++ Js.showZ a ++ "k - $" ++ Js.showZ b ++ "k") /\
  (forall lo, min = Some lo -> lo <> 0 -> Js.truthyNum max = false ->
     Z.abs lo < 2 ^ 53 ->
     exists a, nearestThousand lo a /\
       Utils.formatSalary render min max = "$" ++ Js.showZ a ++ "k+") /\
  (forall hi, max = Some hi -> hi <> 0 -> Js.truthyNum min = false ->
     Z.abs hi < 2 ^ 53 ->
     exists b, nearestThousand hi b /\
       Utils.formatSalary render min max = "Up to $" ++ Js.showZ b ++ "k").
Proof.
  split; [| split; [| split]].
  - unfold Utils.formatSalary, Utils.formatK.
    destruct (Js.truthyNum min), (Js.truthyNum max); cbn [negb andb];
      split; intros H; try reflexivity; try tauto;
      try (destruct H; discriminate); cbn in H; discriminate H.
  - intros lo hi -> -> Hlo Hhi Blo Bhi.
    destruct (formatK_safe render lo Blo) as (a & Ha & Ea).
    destruct (formatK_safe render hi Bhi) as (b & Hb & Eb).
    exists a, b. split; [exact Ha |]. split; [exact Hb |].
    unfold Utils.formatSalary, Js.truthyNum.
    apply Z.eqb_neq in Hlo, Hhi. rewrite Hlo, Hhi. cbn [negb andb Utils.num].
    rewrite Ea, Eb, !append_assoc. reflexivity.
  - intros lo -> Hlo Hmax Blo.
    destruct (formatK_safe render lo Blo) as (a & Ha & Ea).
    exists a. split; [exact Ha |].
    unfold Utils.formatSalary. rewrite Hmax. unfold Js.truthyNum.
    apply Z.eqb_neq in Hlo. rewrite Hlo. cbn [negb andb Utils.num].
    rewrite Ea, !append_assoc. reflexivity.
  - intros hi -> Hhi Hmin Bhi.
    destruct (formatK_safe render hi Bhi) as (b & Hb & Eb).
    exists b. split; [exact Hb |].
    unfold Utils.formatSalary. rewrite Hmin. unfold Js.truthyNum.
    apply Z.eqb_neq in Hhi. rewrite Hhi. cbn [negb andb Utils.num].
    rewrite Eb. reflexivity.
Qed.

(** ** Salary parsing *)

Lemma mathInt_nonneg ds : forall acc,
  0 <= acc ->
  0 <= fold_left (fun a c => 10 * a + (Z.of_nat (nat_of_ascii c) - 48)) ds acc
  \/ exists c, In c ds /\ Regex.isDigit c = false.
Proof.
  induction ds as [|c ds IH]; intros acc Hacc; [left; exact Hacc |].
  cbn [fold_left]. destruct (Regex.isDigit c) eqn:Hc.
  - destruct (IH (10 * acc + (Z.of_nat (nat_of_ascii c) - 48))) as [H | [x [Hx Hd]]].
    + unfold Regex.isDigit in Hc. apply andb_prop in Hc as [Hlo _].
      apply Nat.leb_le in Hlo. lia.
    + left. exact H.
    + right. exists x. split; [right; exact Hx | exact Hd].
  - right. exists c. split; [left; reflexivity | exact Hc].
Qed.

(** The runs [/\d+/g] yields are made of digits. *)
Lemma digitRunsFrom_digits s : forall run,
  Forall (fun c => Regex.isDigit c = true) run ->
  Forall (Forall (fun c => Regex.isDigit c = true)) (Salary.digitRunsFrom run s).
Proof.
  induction s as [|c s IH]; intros run Hrun; cbn.
  - destruct run; [constructor |].
    constructor; [| constructor]. apply Forall_rev. exact Hrun.
  - destruct (Regex.isDigit c) eqn:Hc.
    + apply IH. constructor; assumption.
    + destruct run; [apply IH; constructor |].
      constructor; [apply Forall_rev; exact Hrun | apply IH; constructor].
Qed.

Lemma pow53 : 2 ^ 53 = 9007199254740992.
Proof. reflexivity. Qed.

(** Rounding to a double leaves an integer below 2^53 as it is and
    takes no other integer below 2^53. *)
Lemma toDouble_finite z v :
  0 <= z -> Salary.toDouble z = Finite v ->
  (v = z /\ z < 2 ^ 53) \/ (2 ^ 53 <= z /\ 2 ^ 53 <= v).
Proof.
  intros Hz. unfold Salary.toDouble.
  destruct (z <? 2 ^ 53) eqn:Hsmall.
  { apply Z.ltb_lt in Hsmall. intros E. injection E as <-. left. auto. }
  apply Z.ltb_ge in Hsmall. cbv zeta.
  set (e := Z.log2 z - 52).
  set (q := z / 2 ^ e).
  set (q' := if z mod 2 ^ e <? 2 ^ (e - 1) then q
             else if 2 ^ (e - 1) <? z mod 2 ^ e then q + 1
             else if Z.even q then q else q + 1).
  destruct (q' * 2 ^ e <? 2 ^ 1024); [| discriminate].
  intros E. injection E as <-. right. split; [exact Hsmall |].
  assert (Hlog : 53 <= Z.log2 z).
  { rewrite <- (Z.log2_pow2 53) by lia. apply Z.log2_le_mono. exact Hsmall. }
  assert (He : 1 <= e) by (unfold e; lia).
  assert (Hpe : 2 <= 2 ^ e).
  { change 2 with (2 ^ 1) at 1. apply Z.pow_le_mono_r; lia. }
  assert (Hq : 2 ^ 52 <= q).
  { unfold q. apply Z.div_le_lower_bound; [lia |].
    rewrite Z.mul_comm, <- Z.pow_add_r by lia.
    replace (52 + e) with (Z.log2 z) by (unfold e; lia).
    apply Z.log2_spec. rewrite pow53 in Hsmall. lia. }
  assert (Hq' : q <= q').
  { unfold q'. destruct (_ <? _); [lia |]. destruct (_ <? _); [lia |].
    destruct (Z.even q); lia. }
  change (2 ^ 53) with (2 ^ 52 * 2).
  apply Z.mul_le_mono_nonneg; lia.
Qed.

Lemma toDouble_nonNegative z : 0 <= z -> nonNegative (Salary.toDouble z).
Proof.
  intros Hz. unfold nonNegative.
  destruct (Salary.toDouble z) as [v|] eqn:E; [| left; reflexivity].
  right. exists v. split; [reflexivity |].
  destruct (toDouble_finite z v Hz E) as [[-> _] | [_ H]];
    [exact Hz | rewrite pow53 in H; lia].
Qed.

Lemma parsed_nonNegative s b :
  In b (map Salary.parseInt (Salary.digitRuns s)) -> nonNegative b.
Proof.
  intros H. apply in_map_iff in H as [ds [<- Hds]].
  pose proof (digitRunsFrom_digits s [] (Forall_nil _)) as Hall.
  rewrite Forall_forall in Hall. specialize (Hall ds Hds).
  apply toDouble_nonNegative. unfold Salary.mathInt.
  destruct (mathInt_nonneg ds 0 ltac:(lia)) as [H | [c [Hc Hd]]];
    [exact H |].
  rewrite Forall_forall in Hall. rewrite (Hall c Hc) in Hd. discriminate.
Qed.

Lemma thousands_spec x b :
  Salary.thousands x = Some b ->
  exists n, x = Some n /\ Salary.truthy (Some n) = true /\
            b = Salary.times1000 n.
Proof.
  destruct x as [n|]; cbn [Salary.thousands]; [| discriminate].
  destruct (Salary.truthy (Some n)) eqn:E; [| discriminate].
  intros H. injection H as <-. exists n. auto.
Qed.

(** A thousand times a truthy bound. *)
Lemma times1000_thousandfold n :
  nonNegative n -> Salary.truthy (Some n) = true ->
  thousandfold (Salary.times1000 n).
Proof.
  intros [-> | (p & -> & Hp)] Ht; [left; reflexivity |].
  cbn in Ht. apply negb_true_iff, Z.eqb_neq in Ht.
  unfold thousandfold. cbn [Salary.times1000].
  destruct (Salary.toDouble (p * 1000)) as [v|] eqn:E; [| left; reflexivity].
  right. exists v. split; [reflexivity |].
  destruct (toDouble_finite (p * 1000) v ltac:(lia) E) as [[-> _] | [_ H]].
  - split; [lia |]. intros _. apply Z_mod_mult.
  - rewrite pow53 in *. split; [lia |]. intros Hv. lia.
Qed.

Lemma thousandfold_nonNegative b : thousandfold b -> nonNegative b.
Proof.
  intros [-> | (v & -> & Hv & _)]; [left; reflexivity |].
  right. exists v. split; [reflexivity | lia].
Qed.

(** The bounds read from a text, by the presence of the letter k. *)
Lemma text_bounds s b :
  let r := Salary.parseSalary (SalaryText s) in
  rangeMin r = Some b \/ rangeMax r = Some b ->
  if Js.includes (Js.toLowerCase s) "k" then thousandfold b
  else nonNegative b.
Proof.
  cbn zeta. unfold Salary.parseSalary.
  destruct (String.eqb s ""); [cbn; intros [H | H]; discriminate |].
  pose proof (parsed_nonNegative s) as Hpos.
  destruct (Salary.digitRuns s) as [|d0 ds];
    [cbn; intros [H | H]; discriminate |].
  cbn [map] in Hpos.
  assert (H0 : nonNegative (Salary.parseInt d0))
    by (apply Hpos; left; reflexivity).
  assert (H1 : forall d1 rest, ds = d1 :: rest ->
                 nonNegative (Salary.parseInt d1)).
  { intros d1 rest ->. apply Hpos. right. left. reflexivity. }
  cbn [map nth_error].
  destruct (Js.includes (Js.toLowerCase s) "k"); cbn [rangeMin rangeMax].
  - destruct ds as [|d1 rest]; cbn [map nth_error].
    + cbn [Salary.truthy].
      intros [H | H]; apply thousands_spec in H as (n & E & Ht & ->);
        injection E as <-; apply times1000_thousandfold; assumption.
    + specialize (H1 d1 rest eq_refl).
      destruct (Salary.truthy (Some (Salary.parseInt d1))) eqn:Et;
        intros [H | H]; apply thousands_spec in H as (n & E & Ht & ->);
        injection E as <-; apply times1000_thousandfold; assumption.
  - destruct ds as [|d1 rest]; cbn [map nth_error].
    + cbn [Salary.truthy]. intros [H | H]; injection H as <-; exact H0.
    + specialize (H1 d1 rest eq_refl).
      destruct (Salary.truthy (Some (Salary.parseInt d1)));
        intros [H | H]; injection H as <-; assumption.
Qed.

(** X22. The range [parseSalary] returns: a non-zero number is both
    bounds; a text without digits, an empty text, a zero and a missing
    value give no bound; a minimum never comes without a maximum; a
    bound read from a text is [Infinity] or a non-negative integer; and
    when the text holds the letter k anywhere, a bound is [Infinity] or
    a positive integer, which below 2^53 is a multiple of 1000. *)
Theorem parse_salary_range (input : SalaryInput) :
  let r := Salary.parseSalary input in
  (rangeMin r <> None -> rangeMax r <> None) /\
  (forall n, input = SalaryNumber n -> n <> 0 ->
             r = mkRange (Some (Finite n)) (Some (Finite n))) /\
  (forall s, input = SalaryText s -> Salary.digitRuns s = [] ->
             r = mkRange None None) /\
  (forall s b, input = SalaryText s ->
     rangeMin r = Some b \/ rangeMax r = Some b -> nonNegative b) /\
  (forall s b, input = SalaryText s ->
     Js.includes (Js.toLowerCase s) "k" = true ->
     rangeMin r = Some b \/ rangeMax r = Some b -> thousandfold b).
Proof.
  cbn zeta. split; [| split; [| split; [| split]]].
  - destruct input as [| n | s]; cbn;
      [tauto | destruct (n =? 0); cbn; [tauto | discriminate] |].
    destruct (String.eqb s ""); [cbn; tauto |].
    destruct (Salary.digitRuns s) as [|d0 ds]; [cbn; tauto |].
    cbn [map nth_error].
    destruct (Js.includes (Js.toLowerCase s) "k"); cbn [rangeMin rangeMax].
    + destruct ds as [|d1 ds]; cbn [map nth_error].
      * cbn [Salary.truthy]. tauto.
      * destruct (Salary.truthy (Some (Salary.parseInt d1))) eqn:E1;
          [| tauto].
        intros _. cbn [Salary.thousands]. rewrite E1. discriminate.
    + intros _. destruct ds as [|d1 ds]; cbn [map nth_error].
      * cbn [Salary.truthy]. discriminate.
      * destruct (Salary.truthy (Some (Salary.parseInt d1))); discriminate.
  - intros n -> Hn. cbn. apply Z.eqb_neq in Hn. rewrite Hn. reflexivity.
  - intros s -> Hruns. cbn. rewrite Hruns.
    destruct (String.eqb s ""); reflexivity.
  - intros s b -> Hb. pose proof (text_bounds s b Hb) as H.
    destruct (Js.includes (Js.toLowerCase s) "k");
      [apply thousandfold_nonNegative |]; exact H.
  - intros s b -> Hk Hb. pose proof (text_bounds s b Hb) as H.
    rewrite Hk in H. exact H.
Qed.

(** "85k - 9007199254740991k": the first bound is 85000, the second is
    2^53 or more and no multiple of 1000. *)
Lemma parse_salary_range_witness :
  thousandfold (Finite 85000) /\
  Salary.parseSalary (SalaryText "85k - 9007199254740991k") =
    mkRange (Some (Finite 85000)) (Some (Finite 9007199254740990976)).
Proof.
  split; [| vm_compute; reflexivity].
  apply (proj2 (proj2 (proj2 (proj2
           (parse_salary_range (SalaryText "85k - 9007199254740991k")))))
           "85k - 9007199254740991k" (Finite 85000) eq_refl eq_refl).
  left. vm_compute. reflexivity.
Defined.

Lemma digit_run_read a : forall run rest,
  allDigits a = true ->
  Salary.digitRunsFrom run (a ++ rest) =
  Salary.digitRunsFrom (rev (list_ascii_of_string a) ++ run) rest.
Proof.
  induction a as [|c a IH]; intros run rest Hd; [reflexivity |].
  cbn in Hd. apply andb_prop in Hd as [Hc Hd].
  cbn [append Salary.digitRunsFrom list_ascii_of_string rev]. rewrite Hc.
  rewrite (IH (c :: run) rest Hd), <- app_assoc. reflexivity.
Qed.

Lemma includes_k_app a b :
  Js.includes (Js.toLowerCase (a ++ b)) "k" =
  Js.includes (Js.toLowerCase a) "k" || Js.includes (Js.toLowerCase b) "k".
Proof.
  induction a as [|c a IH].
  - cbn [append Js.toLowerCase]. reflexivity.
  - cbn [append Js.toLowerCase Js.includes]. rewrite IH.
    rewrite orb_assoc. reflexivity.
Qed.

Lemma digits_hold_no_k a :
  allDigits a = true -> Js.includes (Js.toLowerCase a) "k" = false.
Proof.
  induction a as [|c a IH]; intros Hd; [reflexivity |].
  cbn in Hd. apply andb_prop in Hd as [Hc Hd].
  cbn [Js.toLowerCase Js.includes]. rewrite (IH Hd), orb_false_r.
  revert Hc. clear.
  destruct c as [[] [] [] [] [] [] [] []]; vm_compute;
    solve [reflexivity | discriminate].
Qed.

Lemma reversed_run_nonempty (d : string) :
  d <> "" -> exists c l, rev (list_ascii_of_string d) = c :: l.
Proof.
  destruct d as [|x d]; [intros H; contradiction H; reflexivity |].
  intros _. cbn. destruct (rev (list_ascii_of_string d)); cbn; eauto.
Qed.

(** A run of [n] digits denotes a number below 10^n. *)
Lemma mathInt_bound ds : forall acc,
  Forall (fun c => Regex.isDigit c = true) ds -> 0 <= acc ->
  0 <= fold_left (fun a c => 10 * a + (Z.of_nat (nat_of_ascii c) - 48)) ds acc
    < (acc + 1) * 10 ^ Z.of_nat (List.length ds).
Proof.
  induction ds as [|c ds IH]; intros acc Hall Hacc.
  - cbn. lia.
  - inversion Hall as [|? ? Hc Hds]; subst. cbn [fold_left List.length].
    unfold Regex.isDigit in Hc. apply andb_prop in Hc as [Hlo Hhi].
    apply Nat.leb_le in Hlo, Hhi.
    destruct (IH (10 * acc + (Z.of_nat (nat_of_ascii c) - 48)) Hds
                ltac:(lia)) as [H1 H2].
    split; [exact H1 |].
    rewrite Nat2Z.inj_succ, Z.pow_succ_r by lia.
    assert (Hp : 0 < 10 ^ Z.of_nat (List.length ds))
      by (apply Z.pow_pos_nonneg; lia).
    nia.
Qed.

Lemma allDigits_Forall d :
  allDigits d = true ->
  Forall (fun c => Regex.isDigit c = true) (list_ascii_of_string d).
Proof.
  induction d as [|c d IH]; cbn; [constructor |].
  intros H. apply andb_prop in H as [Hc Hd]. constructor; auto.
Qed.

Lemma length_list_ascii d :
  List.length (list_ascii_of_string d) = String.length d.
Proof. induction d as [|c d IH]; cbn; [reflexivity | rewrite IH; reflexivity]. Qed.

(** A run of at most 15 digits is read exactly. *)
Lemma short_run_exact d :
  allDigits d = true -> (String.length d <= 15)%nat ->
  Salary.parseInt (list_ascii_of_string d) = Finite (digitsValue d) /\
  0 <= digitsValue d.
Proof.
  intros Hd Hlen. unfold Salary.parseInt, digitsValue, Salary.mathInt.
  destruct (mathInt_bound (list_ascii_of_string d) 0
              (allDigits_Forall d Hd) ltac:(lia)) as [H1 H2].
  rewrite length_list_ascii in H2. split; [| exact H1].
  unfold Salary.toDouble.
  assert (Hp : 10 ^ Z.of_nat (String.length d) <= 10 ^ 15)
    by (apply Z.pow_le_mono_r; lia).
  assert (H15 : 10 ^ 15 < 2 ^ 53) by reflexivity.
  match goal with
  | |- (if ?c then _ else _) = _ =>
      assert (c = true) as -> by (apply Z.ltb_lt; lia)
  end.
  reflexivity.
Qed.

(** X23. A thousands separator splits the amount: for a text made of a
    dollar sign, digits, a comma and digits, [parseSalary] reads the
    digits before the comma as the minimum, and as the maximum the
    digits after it, or the minimum again when those are all zeros; runs
    of at most 15 digits are read exactly, so that "$80,000" gives 80
    and 80. *)
Theorem thousands_separator_splits (a b : string) :
  allDigits a = true -> a <> "" -> allDigits b = true -> b <> "" ->
  let lo := Salary.parseInt (list_ascii_of_string a) in
  let hi := Salary.parseInt (list_ascii_of_string b) in
  Salary.parseSalary (SalaryText ("$" ++ a ++ "," ++ b)) =
    mkRange (Some lo) (Some (if Salary.truthy (Some hi) then hi else lo)) /\
  ((String.length a <= 15)%nat -> (String.length b <= 15)%nat ->
   Salary.parseSalary (SalaryText ("$" ++ a ++ "," ++ b)) =
     mkRange (Some (Finite (digitsValue a)))
             (Some (Finite (if digitsValue b =? 0 then digitsValue a
                            else digitsValue b)))).
Proof.
  intros Ha Hane Hb Hbne lo hi.
  assert (Hgen : Salary.parseSalary (SalaryText ("$" ++ a ++ "," ++ b)) =
                 mkRange (Some lo)
                         (Some (if Salary.truthy (Some hi) then hi else lo))).
  { unfold Salary.parseSalary.
    change (String.eqb ("$" ++ a ++ "," ++ b) "") with false. cbv iota.
    assert (Hk : Js.includes (Js.toLowerCase ("$" ++ a ++ "," ++ b)) "k"
                 = false).
    { rewrite (includes_k_app "$"), (includes_k_app a), (includes_k_app ",").
      rewrite (digits_hold_no_k a Ha), (digits_hold_no_k b Hb). reflexivity. }
    rewrite Hk.
    assert (Hruns : Salary.digitRuns ("$" ++ a ++ "," ++ b) =
                    [list_ascii_of_string a; list_ascii_of_string b]).
    { unfold Salary.digitRuns. cbn [append Salary.digitRunsFrom].
      change (Regex.isDigit "$") with false. cbv iota.
      rewrite (digit_run_read a [] (String "," b) Ha), app_nil_r.
      cbn [append Salary.digitRunsFrom].
      change (Regex.isDigit ",") with false. cbv iota.
      destruct (reversed_run_nonempty a Hane) as (ca & la & Ea).
      rewrite Ea, <- Ea, rev_involutive. f_equal.
      rewrite <- (append_empty b) at 1.
      rewrite (digit_run_read b [] "" Hb), app_nil_r.
      cbn [Salary.digitRunsFrom].
      destruct (reversed_run_nonempty b Hbne) as (cb & lb & Eb).
      rewrite Eb, <- Eb, rev_involutive. reflexivity. }
    rewrite Hruns. cbn [map nth_error]. fold lo hi.
    destruct (Salary.truthy (Some hi)); reflexivity. }
  split; [exact Hgen |].
  intros La Lb. rewrite Hgen. subst lo hi.
  destruct (short_run_exact a Ha La) as [-> _].
  destruct (short_run_exact b Hb Lb) as [-> _].
  cbn [Salary.truthy]. destruct (digitsValue b =? 0); reflexivity.
Qed.

(** "$80,000" is read as 80 to 80. *)
Lemma thousands_separator_splits_witness :
  Salary.parseSalary (SalaryText "$80,000") =
  mkRange (Some (Finite 80)) (Some (Finite 80)).
Proof.
  apply (proj2 (thousands_separator_splits "80" "000" eq_refl
                  ltac:(discriminate) eq_refl ltac:(discriminate)));
    cbn; lia.
Defined.

(** ** Aggregation: further behaviour *)

Lemma filterUnseen_fixed l : forall seen,
  NoDup (map Scraper.dedupKey l) ->
  (forall j, In j l -> ~ In (Scraper.dedupKey j) seen) ->
  Scraper.filterUnseen seen l = l.
Proof.
  induction l as [|x l IH]; intros seen Hnd Hseen; [reflexivity |].
  cbn. inversion Hnd as [|? ? Hfresh Hnd']; subst.
  assert (Scraper.setHas seen (Scraper.dedupKey x) = false) as ->.
  { apply setHas_false. apply Hseen. left. reflexivity. }
  f_equal. apply IH; [exact Hnd' |].
  intros j Hj [E | Hin].
  - apply Hfresh. rewrite E. apply in_map. exact Hj.
  - apply (Hseen j); [right; exact Hj | exact Hin].
Qed.

Lemma filterUnseen_sub l : forall seen j,
  In j (Scraper.filterUnseen seen l) -> In j l.
Proof.
  induction l as [|x l IH]; intros seen j; cbn; [tauto |].
  destruct (Scraper.setHas seen (Scraper.dedupKey x)).
  - intros H. right. apply (IH _ _ H).
  - intros [-> | H]; [left; reflexivity | right; apply (IH _ _ H)].
Qed.

Lemma filterUnseen_length l : forall seen,
  (List.length (Scraper.filterUnseen seen l) <= List.length l)%nat.
Proof.
  induction l as [|x l IH]; intros seen; cbn; [lia |].
  destruct (Scraper.setHas seen (Scraper.dedupKey x)); cbn;
    [specialize (IH seen) | specialize (IH (Scraper.setAdd seen (Scraper.dedupKey x)))];
    lia.
Qed.

(** X24. Aggregating twice changes nothing: the deduplication returns
    its own output unchanged, as it does any list whose keys already
    differ pairwise; it never invents a posting and never returns more
    postings than it was given. *)
Theorem dedup_is_idempotent (all : list ScrapedJob) :
  Scraper.uniqueJobs (Scraper.uniqueJobs all) = Scraper.uniqueJobs all /\
  (NoDup (map Scraper.dedupKey all) -> Scraper.uniqueJobs all = all) /\
  (forall j, In j (Scraper.uniqueJobs all) -> In j all) /\
  (List.length (Scraper.uniqueJobs all) <= List.length all)%nat.
Proof.
  unfold Scraper.uniqueJobs. split; [| split; [| split]].
  - apply filterUnseen_fixed; [apply filterUnseen_keys | intros j _ []].
  - intros Hnd. apply filterUnseen_fixed; [exact Hnd | intros j _ []].
  - apply filterUnseen_sub.
  - apply filterUnseen_length.
Qed.

(** Two different postings keep both. *)
Lemma dedup_is_idempotent_witness :
  Scraper.uniqueJobs [acmeJob; pushyJob] = [acmeJob; pushyJob].
Proof.
  apply (proj1 (proj2 (dedup_is_idempotent [acmeJob; pushyJob]))).
  apply distinctStrings_NoDup. reflexivity.
Defined.

(** X25. The key joins company and title with a hyphen and so cannot
    tell where one ends: a posting of company "x-y" with title "z" and a
    posting of company "x" with title "y-z" have the same key, and the
    one that comes later is dropped although company and title differ. *)
Theorem hyphen_split_collides (x y z : string)
    (l1 l2 l3 : list ScrapedJob) :
  Scraper.dedupKey (leftSplit x y z) = Scraper.dedupKey (rightSplit x y z) /\
  Scraper.uniqueJobs (l1 ++ leftSplit x y z :: l2 ++ rightSplit x y z :: l3) =
  Scraper.uniqueJobs (l1 ++ leftSplit x y z :: l2 ++ l3) /\
  Scraper.uniqueJobs (l1 ++ rightSplit x y z :: l2 ++ leftSplit x y z :: l3) =
  Scraper.uniqueJobs (l1 ++ rightSplit x y z :: l2 ++ l3).
Proof.
  assert (Hkey : Scraper.dedupKey (leftSplit x y z) =
                 Scraper.dedupKey (rightSplit x y z)).
  { unfold Scraper.dedupKey, leftSplit, rightSplit. cbn [company title].
    rewrite !toLowerCase_app, !append_assoc. reflexivity. }
  split; [exact Hkey |]. unfold Scraper.uniqueJobs. split.
  - apply filterUnseen_later_duplicate. exact Hkey.
  - apply filterUnseen_later_duplicate. symmetry. exact Hkey.
Qed.

(** ** The per-company boards *)

Lemma scrapeBatches_flat batchSize scrapeCompany :
  (0 < batchSize)%nat ->
  forall fuel roster, (List.length roster <= fuel)%nat ->
  Boards.scrapeBatches fuel batchSize scrapeCompany roster =
  flat_map scrapeCompany roster.
Proof.
  intros Hb. induction fuel as [|fuel IH]; intros roster Hlen.
  - destruct roster; [reflexivity | cbn in Hlen; lia].
  - destruct roster as [|t roster]; [reflexivity |].
    cbn [Boards.scrapeBatches]. rewrite IH.
    + rewrite <- flat_map_app, firstn_skipn. reflexivity.
    + rewrite length_skipn. cbn [List.length] in *. lia.
Qed.

(** X26. The sweeps over the company boards ask every company of the
    roster exactly once and return the postings board after board in
    roster order, whatever the batches: 40 Greenhouse boards and 20
    Lever boards; a board that fails adds nothing and takes nothing from
    the others. *)
Theorem boards_cover_roster (scrapeCompany : string -> list ScrapedJob) :
  Boards.scrapeGreenhouseAll scrapeCompany =
    flat_map scrapeCompany Boards.GREENHOUSE_COMPANIES /\
  Boards.scrapeLeverAll scrapeCompany =
    flat_map scrapeCompany Boards.LEVER_COMPANIES /\
  List.length Boards.GREENHOUSE_COMPANIES = 40%nat /\
  List.length Boards.LEVER_COMPANIES = 20%nat /\
  NoDup Boards.GREENHOUSE_COMPANIES /\ NoDup Boards.LEVER_COMPANIES /\
  (forall j, In j (Boards.scrapeGreenhouseAll scrapeCompany) <->
             exists token, In token Boards.GREENHOUSE_COMPANIES /\
                           In j (scrapeCompany token)).
Proof.
  assert (Hg : Boards.scrapeGreenhouseAll scrapeCompany =
               flat_map scrapeCompany Boards.GREENHOUSE_COMPANIES)
    by (apply scrapeBatches_flat; lia).
  split; [exact Hg |].
  split; [apply scrapeBatches_flat; lia |].
  split; [reflexivity |]. split; [reflexivity |].
  split; [apply distinctStrings_NoDup; reflexivity |].
  split; [apply distinctStrings_NoDup; reflexivity |].
  intros j. rewrite Hg. apply in_flat_map.
Qed.

(** ** The remaining patterns of the table *)

Lemma two_pattern_flag j p1 p2 flag :
  patternsOf Verifier.RED_FLAG_PATTERNS flag = [Regex.RAlt p1 p2] ->
  flag <> Verifier.SALARY_FLAG -> flag <> Verifier.COMPANY_FLAG ->
  (In flag (Verifier.detectRedFlags j) <->
   (exists pre m post, textToCheck j = pre ++ m ++ post /\ Lang p1 m) \/
   (exists pre m post, textToCheck j = pre ++ m ++ post /\ Lang p2 m)).
Proof.
  intros Htable Hs Hc.
  rewrite (single_pattern_flag j _ flag Htable Hs Hc), test_spec. split.
  - intros (pre & m & post & E & Hm). inversion Hm; subst; [left | right];
      exists pre, m, post; auto.
  - intros [(pre & m & post & E & Hm) | (pre & m & post & E & Hm)];
      exists pre, m, post; (split; [exact E |]);
      [apply LangAltL | apply LangAltR]; exact Hm.
Qed.

Lemma occurs_Lang w txt : plainWord w = true ->
  (exists pre m post, txt = pre ++ m ++ post /\ Lang (Regex.lit w) m) <->
  occursIgnoringCase txt w.
Proof.
  intros Hplain. rewrite <- (test_lit_iff w txt Hplain). symmetry.
  apply test_spec.
Qed.

(** X27. The two flags whose pattern offers two phrases are raised
    exactly when one of the phrases occurs, case ignored: the
    training-fee flag on "training fee" or "pay for training", the SSN
    flag on "social security" or on the letters "ssn" anywhere, inside a
    longer word too. *)
Theorem either_phrase_flags_exact (j : ScrapedJob) :
  (In "Requires training fee" (Verifier.detectRedFlags j) <->
   occursIgnoringCase (textToCheck j) "training fee" \/
   occursIgnoringCase (textToCheck j) "pay for training") /\
  (In "Requests SSN upfront" (Verifier.detectRedFlags j) <->
   occursIgnoringCase (textToCheck j) "ssn" \/
   occursIgnoringCase (textToCheck j) "social security").
Proof.
  split.
  - rewrite <- (occurs_Lang "training fee" _ eq_refl),
      <- (occurs_Lang "pay for training" _ eq_refl).
    apply two_pattern_flag;
      [vm_compute; reflexivity | discriminate | discriminate].
  - rewrite <- (occurs_Lang "ssn" _ eq_refl),
      <- (occurs_Lang "social security" _ eq_refl).
    apply two_pattern_flag;
      [vm_compute; reflexivity | discriminate | discriminate].
Qed.

Lemma Lang_anything m : Lang Regex.anything m <-> oneLine m = true.
Proof.
  unfold Regex.anything. induction m as [|a m IH]; cbn.
  - split; [reflexivity | constructor].
  - rewrite andb_true_iff, <- IH. split.
    + intros H. inversion H; subst. split; assumption.
    + intros [Ha Hm]. constructor; assumption.
Qed.

Lemma Lang_gap w1 w2 m :
  plainWord w1 = true -> plainWord w2 = true ->
  (Lang (Regex.cat [Regex.lit w1; Regex.anything; Regex.lit w2]) m <->
   exists a mid b, m = a ++ mid ++ b /\ Js.toLowerCase a = w1 /\
                   oneLine mid = true /\ Js.toLowerCase b = w2).
Proof.
  intros H1 H2. cbn [Regex.cat]. split.
  - intros H. apply Lang_cat in H as (a & m' & -> & Ha & H).
    apply Lang_cat in H as (mid & m'' & -> & Hmid & H).
    apply Lang_cat in H as (b & e & -> & Hb & He).
    apply Lang_eps in He. subst e. rewrite append_empty.
    exists a, mid, b. split; [reflexivity |].
    split; [apply (Lang_lit w1 H1); exact Ha |].
    split; [apply Lang_anything; exact Hmid | apply (Lang_lit w2 H2); exact Hb].
  - intros (a & mid & b & -> & Ha & Hmid & Hb).
    apply Lang_cat. exists a, (mid ++ b). split; [reflexivity |].
    split; [apply (Lang_lit w1 H1); exact Ha |].
    apply Lang_cat. exists mid, b. split; [reflexivity |].
    split; [apply Lang_anything; exact Hmid |].
    apply Lang_cat. exists b, "". split; [symmetry; apply append_empty |].
    split; [apply (Lang_lit w2 H2); exact Hb | constructor].
Qed.

Lemma gap_pattern_spec w1 w2 txt :
  plainWord w1 = true -> plainWord w2 = true ->
  ((exists pre m post, txt = pre ++ m ++ post /\
      Lang (Regex.cat [Regex.lit w1; Regex.anything; Regex.lit w2]) m) <->
   hasGap txt w1 w2).
Proof.
  intros H1 H2. unfold hasGap. split.
  - intros (pre & m & post & -> & Hm).
    apply (Lang_gap w1 w2 m H1 H2) in Hm as (a & mid & b & -> & Ha & Hmid & Hb).
    exists pre, a, mid, b, post. repeat split; try assumption.
    rewrite !append_assoc. reflexivity.
  - intros (pre & a & mid & b & post & -> & Ha & Hmid & Hb).
    exists pre, (a ++ mid ++ b), post. split.
    + rewrite !append_assoc. reflexivity.
    + apply (Lang_gap w1 w2 _ H1 H2). exists a, mid, b. auto.
Qed.

(** X28. The flags whose pattern allows anything between two phrases
    need both on one line: the crypto flag is raised exactly when
    "crypto" is followed by "payment" with no line break between them,
    the money-transfer flag exactly when "send" is so followed by "money"
    or "wire transfer" occurs, and the bank-account flag exactly when
    "personal", "bank" and "account" follow one another on one line. *)
Theorem same_line_flags_exact (j : ScrapedJob) :
  (In "Crypto payment offers" (Verifier.detectRedFlags j) <->
   hasGap (textToCheck j) "crypto" "payment") /\
  (In "Requests money transfer" (Verifier.detectRedFlags j) <->
   hasGap (textToCheck j) "send" "money" \/
   occursIgnoringCase (textToCheck j) "wire transfer") /\
  (In "Requests bank account info" (Verifier.detectRedFlags j) <->
   hasGaps (textToCheck j) "personal" "bank" "account").
Proof.
  split; [| split].
  - rewrite <- (gap_pattern_spec "crypto" "payment" _ eq_refl eq_refl),
      <- test_spec.
    apply single_pattern_flag;
      [vm_compute; reflexivity | discriminate | discriminate].
  - rewrite <- (gap_pattern_spec "send" "money" _ eq_refl eq_refl),
      <- (occurs_Lang "wire transfer" _ eq_refl).
    apply two_pattern_flag;
      [vm_compute; reflexivity | discriminate | discriminate].
  - rewrite (single_pattern_flag j
               (Regex.cat [Regex.lit "personal"; Regex.anything;
                           Regex.lit "bank"; Regex.anything;
                           Regex.lit "account"])
               "Requests bank account info");
      [| vm_compute; reflexivity | discriminate | discriminate].
    rewrite test_spec. unfold hasGaps. cbn [Regex.cat]. split.
    + intros (pre & m & post & -> & H).
      apply Lang_cat in H as (a & m' & -> & Ha & H).
      apply Lang_cat in H as (m1 & m'' & -> & Hm1 & H).
      apply Lang_cat in H as (b & m3 & -> & Hb & H).
      apply Lang_cat in H as (m2 & m4 & -> & Hm2 & H).
      apply Lang_cat in H as (c & e & -> & Hc & He).
      apply Lang_eps in He. subst e. rewrite append_empty.
      exists pre, a, m1, b, m2, c, post.
      split; [rewrite !append_assoc; reflexivity |].
      split; [apply (Lang_lit "personal" eq_refl); exact Ha |].
      split; [apply Lang_anything; exact Hm1 |].
      split; [apply (Lang_lit "bank" eq_refl); exact Hb |].
      split; [apply Lang_anything; exact Hm2 |].
      apply (Lang_lit "account" eq_refl); exact Hc.
    + intros (pre & a & m1 & b & m2 & c & post & -> & Ha & Hm1 & Hb & Hm2 & Hc).
      exists pre, (a ++ m1 ++ b ++ m2 ++ c ++ ""), post. split.
      * rewrite append_empty, !append_assoc. reflexivity.
      * apply Lang_cat. exists a, (m1 ++ b ++ m2 ++ c ++ "").
        split; [reflexivity |].
        split; [apply (Lang_lit "personal" eq_refl); exact Ha |].
        apply Lang_cat. exists m1, (b ++ m2 ++ c ++ "").
        split; [reflexivity |]. split; [apply Lang_anything; exact Hm1 |].
        apply Lang_cat. exists b, (m2 ++ c ++ "").
        split; [reflexivity |].
        split; [apply (Lang_lit "bank" eq_refl); exact Hb |].
        apply Lang_cat. exists m2, (c ++ "").
        split; [reflexivity |]. split; [apply Lang_anything; exact Hm2 |].
        apply Lang_cat. exists c, "". split; [reflexivity |].
        split; [apply (Lang_lit "account" eq_refl); exact Hc | constructor].
Qed.

Lemma Lang_plus_digits d :
  Lang (Regex.plus Regex.CDigit) d <-> allDigits d = true /\ d <> "".
Proof.
  unfold Regex.plus. rewrite Lang_cat. split.
  - intros (m1 & m2 & -> & H1 & H2).
    apply Lang_digit in H1 as [a [-> Ha]]. apply Lang_star_digits in H2.
    cbn. rewrite Ha, H2. split; [reflexivity | discriminate].
  - intros [Hd Hne]. destruct d as [|a d]; [contradiction Hne; reflexivity |].
    cbn in Hd. apply andb_prop in Hd as [Ha Hd].
    exists (String a ""), d. split; [reflexivity |].
    split; [constructor; exact Ha | apply Lang_star_digits; exact Hd].
Qed.

(** X29. The work-from-home flag is raised exactly when the text holds
    "work from home $", one digit or more and the letter k, case
    ignored: any amount written with a k, and no amount written out. *)
Theorem home_pay_flag_exact (j : ScrapedJob) :
  In "Work from home with unrealistic salary claims"
     (Verifier.detectRedFlags j) <->
  hasHomePay (textToCheck j).
Proof.
  rewrite (single_pattern_flag j
             (Regex.cat [Regex.lit "work from home $";
                         Regex.plus Regex.CDigit; Regex.lit "k"])
             "Work from home with unrealistic salary claims");
    [| vm_compute; reflexivity | discriminate | discriminate].
  rewrite test_spec. unfold hasHomePay. cbn [Regex.cat]. split.
  - intros (pre & m & post & -> & H).
    apply Lang_cat in H as (w & m' & -> & Hw & H).
    apply Lang_cat in H as (d & m'' & -> & Hd & H).
    apply Lang_cat in H as (k & e & -> & Hk & He).
    apply Lang_eps in He. subst e. rewrite append_empty.
    apply Lang_plus_digits in Hd as [Hd Hne].
    exists pre, w, d, k, post.
    split; [rewrite !append_assoc; reflexivity |].
    split; [apply (Lang_lit "work from home $" eq_refl); exact Hw |].
    split; [exact Hd |]. split; [exact Hne |].
    apply (Lang_lit "k" eq_refl); exact Hk.
  - intros (pre & w & d & k & post & -> & Hw & Hd & Hne & Hk).
    exists pre, (w ++ d ++ k ++ ""), post. split.
    + rewrite append_empty, !append_assoc. reflexivity.
    + apply Lang_cat. exists w, (d ++ k ++ ""). split; [reflexivity |].
      split; [apply (Lang_lit "work from home $" eq_refl); exact Hw |].
      apply Lang_cat. exists d, (k ++ ""). split; [reflexivity |].
      split; [apply Lang_plus_digits; auto |].
      apply Lang_cat. exists k, "". split; [reflexivity |].
      split; [apply (Lang_lit "k" eq_refl); exact Hk | constructor].
Qed.

(** ** Ingestion when the storage does not answer *)

Lemma insertAll_row_appended env xs : forall s x v,
  In x xs -> verification x = Some v ->
  insertOutcome env (job x) = Inserted ->
  exists pre r post,
    Pipeline.table (Pipeline.insertAll env s xs) =
      (Pipeline.table s ++ pre ++ r :: post)%list /\
    apply_url r = applyUrl (job x).
Proof.
  induction xs as [|y xs IH]; intros s x v Hin Hv Hins; [contradiction |].
  change (Pipeline.insertAll env s (y :: xs))
    with (Pipeline.insertAll env (Pipeline.insertOne env s y) xs).
  destruct Hin as [-> | Hin].
  - destruct (insertAll_appends env (fun _ => True) xs
                (Pipeline.insertOne env s x)) as (rows & Ht & _ & _);
      [intros; split; auto |].
    destruct (insertOne_appends env s x)
      as [(v' & Hv' & _ & Htab & _) | [Htab Hadd]].
    + eexists [], _, rows. rewrite Ht, Htab, <- app_assoc.
      split; [reflexivity | reflexivity].
    + exfalso. unfold Pipeline.insertOne in Hadd. rewrite Hv, Hins in Hadd.
      cbn in Hadd. lia.
  - destruct (IH (Pipeline.insertOne env s y) x v Hin Hv Hins)
      as (pre & r & post & Ht & Hurl).
    destruct (insertOne_appends env s y)
      as [(v' & _ & _ & Htab & _) | [Htab _]].
    + eexists (_ :: pre), r, post. rewrite Ht, Htab, <- app_assoc.
      split; [reflexivity | exact Hurl].
    + exists pre, r, post. rewrite Ht, Htab. split; [reflexivity | exact Hurl].
Qed.

(** X30. The existing-URL check fails open: when the URL query returns
    no data or throws, the run treats every aggregated posting as new
    and skips nothing; a posting that then passes the filters and whose
    insert is taken gets a new row, also when a row with its URL is in
    the table already. *)
Theorem url_check_fails_open (env : Env) (st : Store) :
  existingRead env <> ReadRows ->
  Pipeline.newJobsOf env st = Pipeline.jobsOf env /\
  skippedCount (fst (Pipeline.runPipeline env st)) = 0 /\
  (forall j, In j (Pipeline.jobsOf env) ->
     verifyStageThrew env = None ->
     urlAccessible (Verifier.verifyJob (net env) j) = true ->
     hasRedFlags (Verifier.verifyJob (net env) j) = false ->
     Pipeline.accepted (assessmentOf env j) = true ->
     insertOutcome env j = Inserted ->
     exists pre r post,
       snd (Pipeline.runPipeline env st) = (st ++ pre ++ r :: post)%list /\
       apply_url r = applyUrl j).
Proof.
  intros Hread.
  assert (Hurls : Pipeline.loadExistingUrls env st = []).
  { unfold Pipeline.loadExistingUrls.
    destruct (existingRead env); [contradiction Hread |..]; reflexivity. }
  assert (Hnew : Pipeline.newJobsOf env st = Pipeline.jobsOf env).
  { unfold Pipeline.newJobsOf. rewrite Hurls.
    induction (Pipeline.jobsOf env) as [|x l IH]; [reflexivity |].
    cbn. rewrite IH. reflexivity. }
  split; [exact Hnew |]. split.
  - unfold Pipeline.runPipeline. rewrite Hnew.
    destruct (List.length (Pipeline.jobsOf env) =? 0)%nat; [reflexivity |].
    destruct (List.length (Pipeline.validJobsOf env st) =? 0)%nat;
      cbn [fst skippedCount]; lia.
  - intros j Hj Hv Ha Hf Hacc Hins.
    assert (Hvalid : In j (Pipeline.validJobsOf env st)).
    { apply validJobs_spec. rewrite Hnew. auto. }
    set (x := mkJWA j (Some (Verifier.verifyJob (net env) j))
                    (assessmentOf env j)).
    assert (Happ : In x (Pipeline.approvedJobsOf env st))
      by (apply approved_spec; exists j; auto).
    destruct (runPipeline_loop env st) as [errs [Htable _]].
    cbn zeta in Htable. rewrite Htable.
    apply (insertAll_row_appended env _ (Pipeline.mkLoop st 1 0 errs) x _
             Happ eq_refl Hins).
Qed.

(** With a storage that does not answer, the Acme posting is inserted
    beside the row that holds its URL. *)
Lemma url_check_fails_open_witness :
  map apply_url (snd (Pipeline.runPipeline silentStoreEnv acmeTable)) =
    [applyUrl acmeJob; applyUrl acmeJob] /\
  skippedCount (fst (Pipeline.runPipeline silentStoreEnv acmeTable)) = 0.
Proof.
  split; [vm_compute; reflexivity |].
  apply (url_check_fails_open silentStoreEnv acmeTable). discriminate.
Defined.

(** ** Instances of the properties above *)

(** The table with the stale Acme row is well dated, before and after. *)
Lemma table_stays_well_dated_witness :
  wellDated (snd (Pipeline.runPipeline goneEnv [staleRow])) /\
  wellDated (snd (Sweep.reverifyExistingJobs goneEnv [staleRow])).
Proof.
  apply (table_stays_well_dated goneEnv [staleRow]).
  intros r [<- | []] _. discriminate.
Defined.

(** In the quiet world of the Acme posting the run reports no error
    beyond failed inserts. *)
Lemma run_error_list_witness :
  Pipeline.count (errors (fst (Pipeline.runPipeline acmeEnv []))) =
  Pipeline.count (failedInserts acmeEnv []).
Proof.
  apply (proj2 (run_error_list acmeEnv [])).
  unfold stagesSucceed. cbn.
  split; [eexists; reflexivity |]. split; [discriminate | split; reflexivity].
Defined.

